(** * Reference-post retrieval and ranking (reference_posts.py)

    A shallow embedding of the class [FewShotPosts]: the corpus loader
    ([__init__], [load_posts]), the length classifier ([categorize_length]),
    the tag index ([get_tags]) and the exemplar selector
    ([get_filtered_posts], [get_top_engaging_posts]).

    Conventions of the model.
    - A Python [str] is a Rocq [string], read as the UTF-8 bytes of the text:
      byte-wise lexicographic order is the code-point order Python compares
      by.
    - A JSON number is an [int] ([PInt], any integer) or a [float]
      ([PFloat]; NaN is [PNaN]).  A float64 or int64 column of a frame
      holds its entries as such cells.
    - What Python, NumPy and pandas leave to the platform or decide by
      tables too large to copy (how a str reads as a number, the C cast of
      a double out of range, the order of a set) is a parameter:
      [runtime] and [set_order].
    - A pandas [DataFrame] is a list of column labels and a list of rows,
      each row a finite map from labels to cells.  A cell a row does not
      hold reads as NaN.
    - [print] calls are dropped: nothing observes them. *)

From Stdlib Require Import ZArith Lia.
From stdpp Require Import base option list sorting gmap strings pretty.

Set Warnings "-register-all,-clear-no-such-hyp".

Local Open Scope string_scope.
Local Open Scope Z_scope.

(** ** Floats *)

(** A float other than NaN: an infinity, or the number
    [(-1)^negative * m * 2^e]. *)
Inductive float : Type :=
  | Finite (negative : bool) (m : N) (e : Z)
  | Infinite (negative : bool).

Definition float_is_zero (f : float) : bool :=
  match f with
  | Finite _ m _ => (m =? 0)%N
  | Infinite _ => false
  end.

(** [int(f)]: the integer part, towards zero.  An infinity has none. *)
Definition float_trunc (f : float) : option Z :=
  match f with
  | Finite negative m e =>
      let magnitude := Z.shiftl (Z.of_N m) e in
      Some (if negative then - magnitude else magnitude)
  | Infinite _ => None
  end.

(** [float(z)]: the nearest double, ties to the even mantissa of 53 bits.
    [None] stands for the OverflowError of an integer that rounds to
    2^1024 or more. *)
Definition float_of_int (z : Z) : option float :=
  let a := Z.abs z in
  let k := Z.max 0 (Z.log2 a + 1 - 53) in
  let q := Z.shiftr a k in
  let r := Z.land a (Z.ones k) in
  let half := Z.shiftl 1 (k - 1) in
  let q :=
    if (0 <? k) && ((half <? r) || ((r =? half) && Z.odd q)) then q + 1 else q in
  if 1024 <? Z.log2 q + 1 + k then None
  else Some (Finite (z <? 0) (Z.to_N q) k).

(** The bounds of int64 and uint64. *)
Definition int64_min : Z := Eval cbv in - 2 ^ 63.
Definition int64_max : Z := Eval cbv in 2 ^ 63 - 1.
Definition uint64_max : Z := Eval cbv in 2 ^ 64 - 1.

(** ** Python values *)

(** What a cell of the table, or a node of the parsed JSON document, can
    hold.  [PNaN] is the float NaN, which pandas also uses for a missing
    cell, and [PNA] is [pd.NA], which [json.load] does not produce. *)
Inductive pyval : Type :=
  | PNone
  | PNaN
  | PNA
  | PBool (b : bool)
  | PInt (z : Z)
  | PFloat (f : float)
  | PStr (s : string)
  | PList (l : list pyval)
  | PDict (items : list (string * pyval)).

#[global] Instance pyval_inhabited : Inhabited pyval := populate PNaN.

(** A row of a frame, and also a record returned by [to_dict]. *)
Abbreviation row := (gmap string pyval).

(** [bool(v)], as [if not posts] asks it of what [json.load] returned. *)
Definition py_truthy (v : pyval) : bool :=
  match v with
  | PNone | PNA => false
  | PNaN => true
  | PBool b => b
  | PInt z => negb (z =? 0)
  | PFloat f => negb (float_is_zero f)
  | PStr s => negb (String.eqb s "")
  | PList l => match l with [] => false | _ => true end
  | PDict d => match d with [] => false | _ => true end
  end.

(** [pd.isna] on a scalar. *)
Definition isna (v : pyval) : bool :=
  match v with
  | PNone | PNaN | PNA => true
  | _ => false
  end.

(** [isinstance(v, list)] and [isinstance(v, str)]. *)
Definition is_list (v : pyval) : bool :=
  match v with PList _ => true | _ => false end.

Definition is_str (v : pyval) : bool :=
  match v with PStr _ => true | _ => false end.

(** [s == v] for a [str] [s]: only an equal [str] compares equal. *)
Definition str_eq (s : string) (v : pyval) : bool :=
  match v with
  | PStr s' => bool_decide (s = s')
  | _ => false
  end.

(** [s in l] for a Python list [l]. *)
Definition str_in (s : string) (l : list pyval) : bool :=
  existsb (str_eq s) l.

(** ** Strings *)

(** [str.lower] on one byte: the letters A-Z move to a-z.  Bytes of
    non-ASCII characters are left alone; no such character lower-cases to
    one of the letters of "english", so the comparison in the language
    filter is exact. *)
Definition ascii_lower (c : Ascii.ascii) : Ascii.ascii :=
  let n := Ascii.N_of_ascii c in
  if ((65 <=? n) && (n <=? 90))%N then Ascii.ascii_of_N (n + 32) else c.

Fixpoint str_lower (s : string) : string :=
  match s with
  | String.EmptyString => String.EmptyString
  | String.String c s' => String.String (ascii_lower c) (str_lower s')
  end.

(** ** Exceptions *)

Inductive exn : Type :=
  | FileNotFoundError
  | OSError
  | UnicodeDecodeError
  | JSONDecodeError
  | NotImplementedError
  | AttributeError
  | OverflowError
  | ValueError
  | TypeError.

Inductive result (A : Type) : Type :=
  | Ok (a : A)
  | Raise (e : exn).
Arguments Ok {A} a.
Arguments Raise {A} e.

#[global] Instance result_ret : MRet result := @Ok.
#[global] Instance result_bind : MBind result := λ A B f m,
  match m with
  | Ok a => f a
  | Raise e => Raise e
  end.
#[global] Instance result_fmap : FMap result := λ A B f m,
  match m with
  | Ok a => Ok (f a)
  | Raise e => Raise e
  end.

(** [try: body / except ...: handler] *)
Definition try_except {A} (body : result A) (handler : exn → result A) : result A :=
  match body with
  | Ok a => Ok a
  | Raise e => handler e
  end.

(** Whether a computation raises, and its value when it does not. *)
Definition raises {A} (m : result A) : bool :=
  match m with
  | Ok _ => false
  | Raise _ => true
  end.

Definition value_or {A} (a : A) (m : result A) : A :=
  match m with
  | Ok a' => a'
  | Raise _ => a
  end.

(** ** The run-time

    Behaviour of Python, NumPy and pandas that the program relies on and
    that this development does not fix. *)

(** A number read from a str. *)
Inductive num : Type :=
  | NumInt (z : Z)
  | NumFloat (f : float).

Record runtime : Type := {
  (** the number [pd.to_numeric] reads from a str cell; [None] when it
      reads none, or NaN *)
  read_number : string → option num;
  (** [int(s)] for a str [s]; [None] stands for its ValueError *)
  str_int : string → option Z;
  (** [bool(pd.isna(l))] for a list [l]: the truth value of an array,
      which raises for most sizes *)
  list_isna : list pyval → result bool;
  (** the int64 NumPy's C cast gives for a finite double out of the int64
      range, which differs between machines *)
  cast_int64 : float → Z
}.

(** ** Length classifier *)

(** The comparisons of [categorize_length] on the integer [count]. *)
Definition count_category (count : Z) : string :=
  if count <? 5 then "Short"
  else if (5 <=? count) && (count <=? 10) then "Medium"
  else "Long".

Section categorize_length.
Variable rt : runtime.

(** [int(v)] *)
Definition py_int (v : pyval) : result Z :=
  match v with
  | PInt z => Ok z
  | PBool b => Ok (Z.b2z b)
  | PFloat f =>
      match float_trunc f with
      | Some z => Ok z
      | None => Raise OverflowError
      end
  | PNaN => Raise ValueError
  | PStr s =>
      match str_int rt s with
      | Some z => Ok z
      | None => Raise ValueError
      end
  | PNone | PNA | PList _ | PDict _ => Raise TypeError
  end.

(** [if pd.isna(v)]: [pd.isna] answers a bool for a scalar and for a
    dict, and an array for a list. *)
Definition isna_truth (v : pyval) : result bool :=
  match v with
  | PList l => list_isna rt l
  | _ => Ok (isna v)
  end.

(** [categorize_length].  The OverflowError of [int] on an infinity is
    not among the exceptions its [except] arm names. *)
Definition categorize_length (line_count : pyval) : result string :=
  na ← isna_truth line_count;
  if na : bool then Ok "Unknown"
  else
    try_except
      (count ← py_int line_count; Ok (count_category count))
      (λ e, match e with
            | ValueError | TypeError => Ok "Unknown"
            | _ => Raise e
            end).
End categorize_length.

(** ** Built-ins: [sorted] and slicing *)

Section sorted.
Context {A : Type} (R : relation A) `{!RelDecision R}.

(** [insert_before] puts [x] in front of the first entry it may precede. *)
Fixpoint insert_before (x : A) (l : list A) : list A :=
  match l with
  | [] => [x]
  | y :: l' => if decide (R x y) then x :: l else y :: insert_before x l'
  end.

(** [sorted(l)] under the order [R]: Python's sort is stable, and a
    stable sort has one possible output, which insertion from the right
    computes. *)
Fixpoint sorted (l : list A) : list A :=
  match l with
  | [] => []
  | x :: l' => insert_before x (sorted l')
  end.
End sorted.

(** [l[:n]] with Python's index adjustment: a negative [n] counts from the
    end, and both ends are clamped. *)
Definition slice_to {A} (l : list A) (n : Z) : list A :=
  let len := Z.of_nat (length l) in
  let stop := if n <? 0 then Z.max 0 (n + len) else Z.min n len in
  take (Z.to_nat stop) l.

(** ** Data frames *)

Record DataFrame : Type := mkDataFrame {
  columns : list string;
  rows : list row
}.

(** [pd.DataFrame(columns=[...])] *)
Definition DataFrame_columns (cols : list string) : DataFrame :=
  {| columns := cols; rows := [] |}.

(** [c in df.columns] *)
Definition has_column (d : DataFrame) (c : string) : bool :=
  bool_decide (c ∈ columns d).

(** [df.empty]: some axis has length 0. *)
Definition df_empty (d : DataFrame) : bool :=
  match rows d, columns d with
  | [], _ | _, [] => true
  | _, _ => false
  end.

Definition add_label (c : string) (cols : list string) : list string :=
  if bool_decide (c ∈ cols) then cols else cols ++ [c].

(** [df[c]]: the column as a Series. *)
Definition get_column (d : DataFrame) (c : string) : list pyval :=
  (λ r : row, r !!! c) <$> rows d.

(** [df[c] = series] *)
Definition set_column (d : DataFrame) (c : string) (s : list pyval) : DataFrame :=
  {| columns := add_label c (columns d);
     rows := zip_with (λ (r : row) v, <[c := v]> r) (rows d) s |}.

(** [df[c] = v] for a scalar [v], broadcast to every row. *)
Definition set_column_scalar (d : DataFrame) (c : string) (v : pyval) : DataFrame :=
  set_column d c (replicate (length (rows d)) v).

(** [df[mask]] *)
Fixpoint boolean_index (rs : list row) (mask : list bool) : list row :=
  match rs, mask with
  | r :: rs', b :: mask' =>
      if b then r :: boolean_index rs' mask' else boolean_index rs' mask'
  | _, _ => []
  end.

(** [df[cols].to_dict(orient='records')] *)
Definition to_dict_records (cols : list string) (rs : list row) : list row :=
  (λ r : row, list_to_map ((λ c, (c, r !!! c)) <$> cols)) <$> rs.

(** [series.fillna(v)] *)
Definition fillna (v : pyval) (s : list pyval) : list pyval :=
  (λ x, if isna x then v else x) <$> s.

(** ** [pd.json_normalize]

    With default arguments, [json_normalize(data)] of pandas 2 is
    [DataFrame(_simple_json_normalize(data))]; the definitions follow
    that code. *)

Definition is_dict (v : pyval) : bool :=
  match v with PDict _ => true | _ => false end.

(** [_normalise_json]: the cells [data] gives rise to, under the label
    [key_string] built so far.  A dict spreads into labels joined by ".",
    any other value is one cell. *)
Fixpoint normalise_json (key_string : string) (data : pyval) : list (string * pyval) :=
  match data with
  | PDict items =>
      (fix go (items : list (string * pyval)) : list (string * pyval) :=
         match items with
         | [] => []
         | (key, value) :: rest =>
             let new_key :=
               if bool_decide (key_string = "") then key
               else key_string +:+ "." +:+ key in
             (normalise_json new_key value ++ go rest)%list
         end) items
  | _ => [(key_string, data)]
  end.

(** The dict with the given items; a later item overrides an earlier one
    with the same key. *)
Definition dict_of_items (items : list (string * pyval)) : row :=
  list_to_map (reverse items).

(** [_normalise_json_ordered]: the top-level cells first, then the cells
    of the nested dicts.  [items] are the items of a dict as [json.load]
    returns it, so with distinct keys. *)
Definition normalise_json_ordered (items : list (string * pyval)) : row :=
  let top_dict := List.filter (λ kv, negb (is_dict kv.2)) items in
  let nested_dict := List.filter (λ kv, is_dict kv.2) items in
  dict_of_items (top_dict ++ normalise_json "" (PDict nested_dict)).

(** [_simple_json_normalize] on one element of the array: a flat record
    for an object, the empty record for a scalar; a list stays a list. *)
Inductive element : Type :=
  | ERecord (r : row)
  | EList.

Definition simple_json_normalize (v : pyval) : element :=
  match v with
  | PDict items => ERecord (normalise_json_ordered items)
  | PList _ => EList
  | _ => ERecord ∅
  end.

(** [pd.DataFrame(records)]: the labels are the keys that occur. *)
Definition DataFrame_records (recs : list row) : DataFrame :=
  {| columns := remove_dups (recs ≫= (λ r : row, (map_to_list r).*1));
     rows := recs |}.

(** [pd.DataFrame(data)] for the normalised array.  When its first element
    is a list, pandas reads every element as a row of positional cells: the
    frame has one row for each element and integer labels only, hence no
    cell under any of the labels of this model.  Otherwise every element
    is read as a dict, and a list among them raises. *)
Definition DataFrame_elements (data : list element) : result DataFrame :=
  match data with
  | EList :: _ => Ok (DataFrame_records (replicate (length data) ∅))
  | _ =>
      DataFrame_records <$>
        mapM (λ e, match e with
                   | ERecord r => Ok r
                   | EList => Raise AttributeError
                   end) data
  end.

Definition json_normalize (data : pyval) : result DataFrame :=
  match data with
  | PDict _ => DataFrame_elements [simple_json_normalize data]
  | PList l => DataFrame_elements (simple_json_normalize <$> l)
  | _ => Raise NotImplementedError
  end.

(** ** The corpus file *)

(** What reading the file at [file_path] gives. *)
Inductive file_content : Type :=
  | Undecodable            (* the bytes are not UTF-8 *)
  | NotJson                (* text that is not a JSON document *)
  | Document (v : pyval).  (* a JSON document and its value *)

Inductive file_state : Type :=
  | Missing                (* no file at the path *)
  | Unreadable             (* the file exists and cannot be opened *)
  | Readable (c : file_content).

(** [open(file_path, encoding="utf-8")] *)
Definition open_file (file : file_state) : result file_content :=
  match file with
  | Missing => Raise FileNotFoundError
  | Unreadable => Raise OSError
  | Readable c => Ok c
  end.

(** [json.load(f)] *)
Definition json_load (f : file_content) : result pyval :=
  match f with
  | Undecodable => Raise UnicodeDecodeError
  | NotJson => Raise JSONDecodeError
  | Document v => Ok v
  end.

(** ** The class [FewShotPosts] *)

Record FewShotPosts : Type := mkFewShotPosts {
  df : option DataFrame;
  unique_tags : list string
}.

Definition schema : list string :=
  ["text"; "line_count"; "tags"; "language"; "length"; "engagement"].

(** *** Numeric columns

    [pd.DataFrame] and [pd.to_numeric] give a column of numbers one dtype
    for all its entries.  The two of them together take a column of
    Python objects to the column defined here. *)

(** What an entry counts as: a missing value, a bool, an int or a float.
    With [errors='coerce'] whatever is no number counts as missing. *)
Inductive reading : Type :=
  | RNull
  | RBool (b : bool)
  | RInt (z : Z)
  | RFloat (f : float).

Inductive dtype : Type :=
  | Bool
  | Int64
  | UInt64
  | Float64.

(** An entry that forces float64: a missing value, a float, an int that
    neither int64 nor uint64 holds. *)
Definition is_floating (rd : reading) : bool :=
  match rd with
  | RNull | RFloat _ => true
  | RInt z => (z <? int64_min) || (uint64_max <? z)
  | RBool _ => false
  end.

Definition is_negative_int (rd : reading) : bool :=
  match rd with
  | RInt z => z <? 0
  | _ => false
  end.

Definition is_uint (rd : reading) : bool :=
  match rd with
  | RInt z => int64_max <? z
  | _ => false
  end.

Definition is_int_reading (rd : reading) : bool :=
  match rd with
  | RInt _ => true
  | _ => false
  end.

(** The dtype of a column: float64 also when a negative int meets one
    above int64. *)
Definition column_dtype (readings : list reading) : dtype :=
  if existsb is_floating readings
     || (existsb is_negative_int readings && existsb is_uint readings)
  then Float64
  else if existsb is_uint readings then UInt64
  else if existsb is_int_reading readings then Int64
  else Bool.

(** An entry as a cell of a column of dtype [dt]. *)
Definition convert (dt : dtype) (rd : reading) : result pyval :=
  match dt, rd with
  | Float64, RNull => Ok PNaN
  | Float64, RBool b => Ok (PFloat (Finite false (if b then 1 else 0) 0))
  | Float64, RInt z =>
      match float_of_int z with
      | Some f => Ok (PFloat f)
      | None => Raise OverflowError
      end
  | Float64, RFloat f => Ok (PFloat f)
  | Bool, RBool b => Ok (PBool b)
  | _, RBool b => Ok (PInt (Z.b2z b))
  | _, RInt z => Ok (PInt z)
  | _, RFloat f => Ok (PFloat f)
  | _, RNull => Ok PNaN
  end.

(** The entries of a list cell, and the text of a [str] entry. *)
Definition list_items (v : pyval) : list pyval :=
  match v with
  | PList l => l
  | _ => []
  end.

Definition str_items (v : pyval) : list string :=
  match v with
  | PStr s => [s]
  | _ => []
  end.

(** [series.astype(str).str.lower()], kept for [str] cells.  The [str()]
    of any other cell (None, True, 12, nan, a list) is not "english" in any
    casing, which [None] stands for. *)
Definition astype_str_lower (v : pyval) : option string :=
  match v with
  | PStr s => Some (str_lower s)
  | _ => None
  end.

(** [x.get('engagement', 0)] as the sort key; the loader stores integers. *)
Definition engagement_key (x : row) : Z :=
  match x !! "engagement" with
  | Some (PInt z) => z
  | Some (PBool b) => Z.b2z b
  | _ => 0
  end.

(** [reverse=True] on the key: [x] may precede [y] when its key is at
    least as large. *)
Definition by_engagement_desc : relation row :=
  λ x y, engagement_key y ≤ engagement_key x.

#[global] Instance by_engagement_desc_dec : RelDecision by_engagement_desc.
Proof. intros x y. unfold by_engagement_desc. apply _. Defined.

Section FewShotPosts.
(** The run-time, and the order in which a [set] of strings is iterated,
    which changes from one interpreter run to the next. *)
Variable rt : runtime.
Variable set_order : list string → list string.

(** What an entry of a column counts as for [pd.to_numeric(...,
    errors='coerce')]. *)
Definition read_cell (v : pyval) : reading :=
  match v with
  | PBool b => RBool b
  | PInt z => RInt z
  | PFloat f => RFloat f
  | PStr s =>
      match read_number rt s with
      | Some (NumInt z) => RInt z
      | Some (NumFloat f) => RFloat f
      | None => RNull
      end
  | PNone | PNaN | PNA | PList _ | PDict _ => RNull
  end.

(** [pd.to_numeric(series, errors='coerce')].  An int too large for a
    double, in a column that is float64, raises OverflowError. *)
Definition to_numeric (s : list pyval) : result (list pyval) :=
  let readings := read_cell <$> s in
  mapM (convert (column_dtype readings)) readings.

(** [series.astype(int)] on one entry of a numeric column whose missing
    values are filled: an int64.  An entry of a uint64 column wraps
    around, a float loses its fraction, and an infinity raises. *)
Definition astype_int (v : pyval) : result pyval :=
  match v with
  | PBool b => Ok (PInt (Z.b2z b))
  | PInt z => Ok (PInt (if z <=? int64_max then z else z - (uint64_max + 1)))
  | PFloat f =>
      match float_trunc f with
      | Some z =>
          Ok (PInt (if (int64_min <=? z) && (z <=? int64_max) then z
                    else cast_int64 rt f))
      | None => Raise ValueError
      end
  | _ => Ok (PInt 0)
  end.

(** The blocks of [load_posts] under "Data Cleaning and Column
    Handling", one definition for each. *)

(** Line count and length category *)
Definition clean_line_count (d : DataFrame) : result DataFrame :=
  if negb (has_column d "line_count") then
    let d := set_column_scalar d "line_count" PNA in
    Ok (set_column_scalar d "length" (PStr "Unknown"))
  else
    line_count ← to_numeric (get_column d "line_count");
    let d := set_column d "line_count" line_count in
    length ← mapM (categorize_length rt) (get_column d "line_count");
    Ok (set_column d "length" (PStr <$> length)).

(** Tags: the frame, and the value assigned to [self.unique_tags].  Every
    cell is a list when the comprehension runs, so it cannot raise and
    its [except] arm is never taken. *)
Definition clean_tags (d : DataFrame) : DataFrame * list string :=
  if negb (has_column d "tags") then
    (set_column d "tags" (replicate (length (rows d)) (PList [])), [])
  else
    let d := set_column d "tags"
               ((λ x, if is_list x then x else PList []) <$> get_column d "tags") in
    let all_tags :=
      get_column d "tags" ≫= (λ sublist, list_items sublist ≫= str_items) in
    (d, sorted String.le (set_order all_tags)).

(** Language *)
Definition clean_language (d : DataFrame) : DataFrame :=
  if negb (has_column d "language") then
    set_column_scalar d "language" (PStr "English")
  else
    set_column d "language" (fillna (PStr "English") (get_column d "language")).

(** Text *)
Definition clean_text (d : DataFrame) : DataFrame :=
  if negb (has_column d "text") then set_column_scalar d "text" (PStr "")
  else d.

(** Engagement.  [fillna(0)] leaves no missing value for [astype]. *)
Definition clean_engagement (d : DataFrame) : result DataFrame :=
  if negb (has_column d "engagement") then
    Ok (set_column_scalar d "engagement" (PInt 0))
  else
    engagement ← to_numeric (get_column d "engagement");
    engagement ← mapM astype_int (fillna (PInt 0) engagement);
    Ok (set_column d "engagement" engagement).

Definition load_posts (self : FewShotPosts) (file : file_state) : result FewShotPosts :=
  f ← open_file file;
  posts ← try_except (json_load f)
    (λ e, match e with
          | JSONDecodeError => Ok (PList [])
          | _ => Raise e
          end);
  if negb (py_truthy posts) then
    Ok {| df := Some (DataFrame_columns schema); unique_tags := [] |}
  else
    d ← json_normalize posts;
    d ← clean_line_count d;
    let '(d, tags) := clean_tags d in
    let d := clean_language d in
    let d := clean_text d in
    d ← clean_engagement d;
    Ok {| df := Some d; unique_tags := tags |}.

Definition __init__ (file : file_state) : result FewShotPosts :=
  let self := {| df := None; unique_tags := [] |} in
  try_except (load_posts self file)
    (λ e, match e with
          | FileNotFoundError =>
              Ok {| df := Some (DataFrame_columns schema); unique_tags := [] |}
          | _ =>
              Ok {| df := Some (DataFrame_columns schema); unique_tags := [] |}
          end).
End FewShotPosts.

Definition required_cols : list string :=
  ["tags"; "language"; "length"; "text"; "engagement"].

(** The masks and the projection of [get_filtered_posts] do not raise on a
    frame that has the required columns, so its [except] arm is left out. *)
Definition get_filtered_posts (self : FewShotPosts) (length tag : string) : list row :=
  match df self with
  | None => []
  | Some d =>
      if df_empty d then []
      else if negb (forallb (has_column d) required_cols) then []
      else
        let has_tag :=
          (λ tags, is_list tags && str_in tag (list_items tags))
            <$> get_column d "tags" in
        let english :=
          (λ x, bool_decide (astype_str_lower x = Some "english"))
            <$> get_column d "language" in
        let of_length := str_eq length <$> get_column d "length" in
        let df_filtered :=
          boolean_index (rows d)
            (zip_with andb (zip_with andb has_tag english) of_length) in
        to_dict_records ["text"; "tags"; "length"; "engagement"] df_filtered
  end.

Definition get_top_engaging_posts (self : FewShotPosts) (length tag : string) (n : Z) : list row :=
  match df self with
  | None => []
  | Some d =>
      if df_empty d || negb (has_column d "engagement") then []
      else
        let filtered_posts := get_filtered_posts self length tag in
        match filtered_posts with
        | [] => []
        | _ => slice_to (sorted by_engagement_desc filtered_posts) n
        end
  end.

Definition get_tags (self : FewShotPosts) : list string :=
  unique_tags self.

(** ** The loaded table, row by row

    What the cleaning blocks of [load_posts] do to one row of the frame
    [raw] that [json_normalize] built, when none of them raises; and the
    rows at which one of them does. *)

Section clean_row.
Variable rt : runtime.

(** The cell [to_numeric] makes of [v] among the entries [column]. *)
Definition numeric_cell (column : list pyval) (v : pyval) : pyval :=
  value_or PNaN
    (convert (column_dtype (read_cell rt <$> column)) (read_cell rt v)).

Definition numeric_fails (column : list pyval) (v : pyval) : bool :=
  raises (convert (column_dtype (read_cell rt <$> column)) (read_cell rt v)).

Definition length_step (present : bool) (column : list pyval) (r : row) : row :=
  if present then
    let r := <["line_count" := numeric_cell column (r !!! "line_count")]> r in
    <["length" := PStr (value_or "Unknown" (categorize_length rt (r !!! "line_count")))]> r
  else
    <["length" := PStr "Unknown"]> (<["line_count" := PNA]> r).

Definition tags_step (present : bool) (r : row) : row :=
  if present then <["tags" := if is_list (r !!! "tags") then r !!! "tags" else PList []]> r
  else <["tags" := PList []]> r.

Definition language_step (present : bool) (r : row) : row :=
  if present then
    <["language" := if isna (r !!! "language") then PStr "English" else r !!! "language"]> r
  else <["language" := PStr "English"]> r.

Definition text_step (present : bool) (r : row) : row :=
  if present then r else <["text" := PStr ""]> r.

(** The entry of the engagement column after [fillna(0)]. *)
Definition filled (v : pyval) : pyval :=
  if isna v then PInt 0 else v.

Definition engagement_step (present : bool) (column : list pyval) (r : row) : row :=
  if present then
    <["engagement" :=
        value_or (PInt 0) (astype_int rt (filled (numeric_cell column (r !!! "engagement"))))]> r
  else <["engagement" := PInt 0]> r.

Definition clean_row (raw : DataFrame) (r : row) : row :=
  engagement_step (has_column raw "engagement") (get_column raw "engagement")
    (text_step (has_column raw "text")
      (language_step (has_column raw "language")
        (tags_step (has_column raw "tags")
          (length_step (has_column raw "line_count") (get_column raw "line_count") r)))).

(** The rows at which the line count block raises, and those at which the
    engagement block does. *)
Definition line_count_fails (raw : DataFrame) (r : row) : bool :=
  has_column raw "line_count"
  && (numeric_fails (get_column raw "line_count") (r !!! "line_count")
      || raises (categorize_length rt
                   (numeric_cell (get_column raw "line_count") (r !!! "line_count")))).

Definition engagement_fails (raw : DataFrame) (r : row) : bool :=
  has_column raw "engagement"
  && (numeric_fails (get_column raw "engagement") (r !!! "engagement")
      || raises (astype_int rt
                   (filled (numeric_cell (get_column raw "engagement")
                              (r !!! "engagement"))))).

(** Whether [load_posts] raises on the frame [raw]. *)
Definition load_fails (raw : DataFrame) : bool :=
  existsb (line_count_fails raw) (rows raw)
  || existsb (engagement_fails raw) (rows raw).

Definition row_tags (r : row) : list string :=
  list_items (r !!! "tags") ≫= str_items.
End clean_row.

(** ** The selection, in the words of the specification *)

(** The fields of a record that a selection hands out. *)
Definition exposed (r : row) : row :=
  list_to_map
    [("text", r !!! "text"); ("tags", r !!! "tags");
     ("length", r !!! "length"); ("engagement", r !!! "engagement")].

(** The cells a numeric column holds: NaN, a bool, an int or a float. *)
Definition is_number_cell (v : pyval) : bool :=
  match v with
  | PNaN | PBool _ | PInt _ | PFloat _ => true
  | _ => false
  end.

(** The length category of a stored line count: the category of its
    integer part when it is a number, Unknown when it is missing (and for
    an infinity, which no loaded record holds). *)
Definition derived_length (line_count : pyval) : string :=
  match line_count with
  | PInt z => count_category z
  | PBool b => count_category (Z.b2z b)
  | PFloat f =>
      match float_trunc f with
      | Some z => count_category z
      | None => "Unknown"
      end
  | _ => "Unknown"
  end.

(** What a line count stands for, in the words of the amended C3: the
    integer [int()] gives (the count itself, the integer part of a finite
    float, the number a str spells), no count at all for a missing value
    and for whatever [int()] rejects, and an exception for an infinity and
    for a list whose [pd.isna] has no truth value. *)
Inductive count_reading : Type :=
  | Count (z : Z)
  | NoCount
  | Fails (e : exn).

Definition read_count (rt : runtime) (c : pyval) : count_reading :=
  match c with
  | PInt z => Count z
  | PBool b => Count (Z.b2z b)
  | PFloat f =>
      match float_trunc f with
      | Some z => Count z
      | None => Fails OverflowError
      end
  | PStr s =>
      match str_int rt s with
      | Some z => Count z
      | None => NoCount
      end
  | PList l =>
      match list_isna rt l with
      | Ok _ => NoCount
      | Raise e => Fails e
      end
  | PNone | PNaN | PNA | PDict _ => NoCount
  end.

(** A record passes the filter when its tags list holds [tag] as one of
    its entries, its language equals "english" up to letter case, and the
    length category derived from its line count is [length]. *)
Definition matches (length tag : string) (r : row) : Prop :=
  (∃ tags, r !!! "tags" = PList tags ∧ PStr tag ∈ tags)
  ∧ (∃ language, r !!! "language" = PStr language
                 ∧ str_lower language = str_lower "english")
  ∧ derived_length (r !!! "line_count") = length.

(** The engagement value a returned record carries. *)
Definition engagement (x : row) (e : Z) : Prop :=
  x !! "engagement" = Some (PInt e).


(** The three masks of [get_filtered_posts] on one row. *)
Definition passes (length tag : string) (r : row) : bool :=
  is_list (r !!! "tags") && str_in tag (list_items (r !!! "tags"))
  && bool_decide (astype_str_lower (r !!! "language") = Some "english")
  && str_eq length (r !!! "length").

(** The boolean reading of [matches]. *)
Definition matchesb (length tag : string) (r : row) : bool :=
  is_list (r !!! "tags") && str_in tag (list_items (r !!! "tags"))
  && bool_decide (astype_str_lower (r !!! "language") = Some "english")
  && bool_decide (derived_length (r !!! "line_count") = length).

(** ** Loading, seen from outside *)

(** The frame pandas builds from the file; no rows and no columns when
    the loader does not get that far. *)
Definition source_frame (file : file_state) : DataFrame :=
  match file with
  | Readable (Document posts) =>
      if py_truthy posts then
        match json_normalize posts with
        | Ok raw => raw
        | Raise _ => DataFrame_records []
        end
      else DataFrame_records []
  | _ => DataFrame_records []
  end.

(** [__init__] returns the object [self], which holds the table [T]. *)
Definition loads (rt : runtime)
    (set_order : list string → list string)
    (file : file_state) (self : FewShotPosts) (T : DataFrame) : Prop :=
  __init__ rt set_order file = Ok self ∧ df self = Some T.

(** What holds of each record of a loaded table. *)
Definition row_ok (r : row) : Prop :=
  (∃ tags, r !!! "tags" = PList tags)
  ∧ (∃ e, r !!! "engagement" = PInt e)
  ∧ isna (r !!! "language") = false
  ∧ r !!! "length" = PStr (derived_length (r !!! "line_count")).

(** A call of one of the public methods: what it returns, and the object
    afterwards.  None of the three assigns to a field of [self]. *)
Inductive request : Type :=
  | GetTags
  | GetFilteredPosts (length tag : string)
  | GetTopEngagingPosts (length tag : string) (n : Z).

Inductive response : Type :=
  | Tags (tags : list string)
  | Posts (posts : list row).

Definition call (self : FewShotPosts) (q : request) : response * FewShotPosts :=
  match q with
  | GetTags => (Tags (get_tags self), self)
  | GetFilteredPosts length tag => (Posts (get_filtered_posts self length tag), self)
  | GetTopEngagingPosts length tag n =>
      (Posts (get_top_engaging_posts self length tag n), self)
  end.

Definition calls (self : FewShotPosts) (qs : list request) : FewShotPosts :=
  foldl (λ s q, (call s q).2) self qs.

(** ** Instances of the run-time parameters *)

(** What every iteration order of a [set] built from [l] satisfies: each
    member of [l] comes up once. *)
Definition set_order_ok (set_order : list string → list string) : Prop :=
  ∀ l, NoDup (set_order l) ∧ ∀ x, x ∈ set_order l ↔ x ∈ l.

(** A reader of optionally signed runs of decimal digits, used where an
    example needs some run-time. *)
Fixpoint digits_value (acc : Z) (s : string) : option Z :=
  match s with
  | String.EmptyString => Some acc
  | String.String c s' =>
      match Ascii.is_nat c with
      | Some k => digits_value (10 * acc + Z.of_nat k) s'
      | None => None
      end
  end.

Definition read_decimal (s : string) : option Z :=
  match s with
  | String.EmptyString => None
  | String.String c s' =>
      if bool_decide (String.String c "" = "-") then
        match s' with
        | String.EmptyString => None
        | _ => Z.opp <$> digits_value 0 s'
        end
      else digits_value 0 s
  end.

(** The run-time of the examples: a str reads as a number when it is a
    decimal integer, the truth value of an array is that of its one
    entry, and a double out of range casts to the least int64. *)
Definition sample_runtime : runtime :=
  {| read_number := λ s, NumInt <$> read_decimal s;
     str_int := read_decimal;
     list_isna := λ l, match l with
                       | [v] => Ok (isna v)
                       | _ => Raise ValueError
                       end;
     cast_int64 := λ _, int64_min |}.

(** ** The claims that fail, as they are stated *)




(** The claims C6 and C7 as stated, for a table [T]. *)
Definition tags_all_strings (T : DataFrame) : Prop :=
  ∀ r, r ∈ rows T →
    ∃ tags, r !!! "tags" = PList tags ∧ Forall (λ v, is_str v = true) tags.

Definition engagement_nonneg (T : DataFrame) : Prop :=
  ∀ r, r ∈ rows T → ∃ e, r !!! "engagement" = PInt e ∧ 0 ≤ e.

(** No corpus to read: the file is missing, cannot be opened or decoded,
    or is not JSON. *)
Definition unavailable (file : file_state) : Prop :=
  match file with
  | Readable (Document _) => False
  | _ => True
  end.

(** A source value [pd.to_numeric] reads no number from: null, a list
    or an object, a str that reads as none; a missing key reads as NaN. *)
Definition no_number (rt : runtime) (v : pyval) : Prop :=
  read_cell rt v = RNull.

(** A source value of a numeric column on which neither the conversion
    to a double, nor [int()], nor [astype(int)] can raise: it does not read
    as an infinity, and as an int it is within int64. *)
Definition harmless (rt : runtime) (v : pyval) : bool :=
  match read_cell rt v with
  | RInt z => (int64_min <=? z) && (z <=? int64_max)
  | RFloat (Infinite _) => false
  | _ => true
  end.

(** The tags cell the loader stores for a source tags value. *)
Definition stored_tags (v : pyval) : pyval :=
  if is_list v then v else PList [].

(** ** Sample files *)

(** The sample corpus of the specification, and variations of it. *)
Definition post (text : string) (line_count : Z) (tags engagement : pyval) : pyval :=
  PDict [("text", PStr text); ("line_count", PInt line_count); ("tags", tags);
         ("language", PStr "English"); ("engagement", engagement)].

Definition sample_corpus : file_state :=
  Readable (Document (PList
    [post "A" 3 (PList [PStr "AI"]) (PInt 10);
     post "B" 4 (PList [PStr "AI"]) (PInt 50)])).

Definition mixed_tags_corpus : file_state :=
  Readable (Document (PList [post "A" 3 (PList [PInt 1; PStr "AI"]) (PInt 10)])).

Definition scalar_tags_corpus : file_state :=
  Readable (Document (PList
    [post "A" 3 (PStr "AI") (PInt 10);
     post "B" 4 (PList [PStr "AI"]) (PInt 50)])).

Definition negative_engagement_corpus : file_state :=
  Readable (Document (PList [post "A" 3 (PList [PStr "AI"]) (PInt (-5))])).

(** Corpora with numbers that are no small integers: an infinite
    engagement; engagements that share a column with a missing one, the
    integer 2^53 + 1, the float 64.5 and the str "12" among them; and
    the line count 10.5. *)
Definition infinite_engagement_corpus : file_state :=
  Readable (Document (PList
    [post "A" 3 (PList [PStr "AI"]) (PFloat (Infinite false));
     post "B" 4 (PList [PStr "AI"]) (PInt 50)])).

Definition mixed_engagement_corpus : file_state :=
  Readable (Document (PList
    [post "A" 3 (PList [PStr "AI"]) (PInt 9007199254740993);
     post "B" 4 (PList [PStr "AI"]) PNone;
     post "C" 4 (PList [PStr "AI"]) (PFloat (Finite false 129 (-1)));
     post "D" 4 (PList [PStr "AI"]) (PStr "12")])).

Definition fractional_line_count_corpus : file_state :=
  Readable (Document (PList
    [PDict [("text", PStr "A"); ("line_count", PFloat (Finite false 21 (-1)));
            ("tags", PList [PStr "AI"]); ("language", PStr "English");
            ("engagement", PInt 10)]])).

(** The cells a constructed object holds under a label. *)
Definition loaded_column (self : FewShotPosts) (c : string) : list pyval :=
  match df self with
  | Some d => get_column d c
  | None => []
  end.

(** The object built from the sample corpus. *)
Definition sample_object : FewShotPosts :=
  match __init__ sample_runtime remove_dups sample_corpus with
  | Ok self => self
  | Raise _ => {| df := None; unique_tags := [] |}
  end.

(** ** The prompt (output_generator.py) *)

(** The newline and the double quote, spliced into the texts below. *)
Definition nl : string := String.String (Ascii.ascii_of_N 10) "".
Definition dquote : string := String.String (Ascii.ascii_of_N 34) "".

Definition get_length_str (length : string) : string :=
  if bool_decide (length = "Short") then "1 to 4 lines"
  else if bool_decide (length = "Medium") then "5 to 10 lines"
  else if bool_decide (length = "Long") then "11 lines or more"
  else "any length".

Section output_generator.
(** [random.choice], and [str()] of a value that is not a [str]. *)
Variable random_choice : list string → string.
Variable py_str : pyval → string.

(** A value as an f-string renders it. *)
Definition format_value (v : pyval) : string :=
  match v with
  | PStr s => s
  | _ => py_str v
  end.

(** What the loop of [get_prompt] appends for the example [post_data] at
    index [i]. *)
Definition example_block (i : nat) (post_data : row) : string :=
  let post_text := default (PStr "Example text not available.") (post_data !! "text") in
  nl +:+ nl +:+ "--- Top Engaging Example " +:+ pretty (i + 1)%nat +:+ " ---" +:+ nl
  +:+ format_value post_text +:+ nl
  +:+ "--- End Top Engaging Example " +:+ pretty (i + 1)%nat +:+ " ---".

Definition get_prompt (length tag formatting_style : string)
    (reference_post_examples : option (list row)) : string :=
  let length_str := get_length_str length in
  let language := "English" in
  let prompt :=
    nl
    +:+ "Generate a LinkedIn post using the below information. Write only the post content, no preamble or explanation before it."
    +:+ nl +:+ nl +:+ "1) Topic: " +:+ tag +:+ nl +:+ "2) Length: " +:+ length_str +:+ nl
    +:+ "3) Language: " +:+ language +:+ nl +:+ nl
    +:+ "Instructions: Write a compelling LinkedIn post in " +:+ language +:+ " about " +:+ dquote
    +:+ tag +:+ dquote
    +:+ ". Aim for a **professional, insightful, and engaging tone** that encourages interaction. The post should provide **practical value or a fresh perspective** for the reader. Use clear and concise language, avoiding overly technical jargon unless the topic specifically requires it and is clearly explained."
    +:+ nl +:+ nl +:+ "Structure of the Post:" +:+ nl
    +:+ "(a) Hook: Start with a **strong opening that grabs attention immediately**. This could be a thought-provoking question, a surprising statistic, a bold statement related to '"
    +:+ tag +:+ "', or a relatable observation about the professional world concerning '" +:+ tag
    +:+ "'." +:+ nl
    +:+ "(b) Main Idea: Clearly and concisely explain the core concept, trend, or insight related to '"
    +:+ tag +:+ "'. Break down complex ideas into digestible points if necessary." +:+ nl
    +:+ "(c) Examples/Analogies (Optional): If helpful for understanding '" +:+ tag
    +:+ "', briefly include a real-world example or an analogy. Keep it concise and directly relevant."
    +:+ nl
    +:+ "(d) Actionable Takeaway/Conclusion: End with a **clear takeaway, practical tip, or a thought-provoking question** that encourages readers to share their own experiences or opinions on '"
    +:+ tag +:+ "' in the comments." +:+ nl +:+ nl
    +:+ "**Focus on providing value to the reader and sparking conversation.** Avoid generic statements or overly promotional content."
    +:+ nl in
  let prompt :=
    if bool_decide (formatting_style = "Use Emojis") then
      prompt +:+ nl
      +:+ "4) Formatting: Incorporate relevant emojis naturally within the text to enhance readability and tone. Do not use bullet points."
    else if bool_decide (formatting_style = "Plain Text") then
      prompt +:+ nl
      +:+ "4) Formatting: Do not use any emojis or bullet points. Write in plain paragraphs only."
    else if bool_decide (formatting_style = "Auto") then
      let style_instruction :=
        random_choice
          [nl +:+ "4) Formatting: Write in plain paragraphs. You may use emojis sparingly if appropriate.";
           nl +:+ "4) Formatting: Incorporate relevant emojis naturally where they add value.";
           nl +:+ "4) Formatting: Use bullet points (using '-' or '*') for key points or lists if it improves clarity.";
           nl +:+ "4) Formatting: Feel free to use both emojis and bullet points where appropriate to enhance readability and engagement.";
           nl +:+ "4) Formatting: Write primarily in paragraphs, but you can use bullet points for lists if needed. Emojis are optional."] in
      prompt +:+ style_instruction
    else
      prompt +:+ nl +:+ "4) Formatting: Write in plain paragraphs only." in
  let prompt :=
    match reference_post_examples with
    | Some ((_ :: _) as examples) =>
        let prompt :=
          prompt +:+ nl +:+ nl
          +:+ "5) Writing Style Examples: Emulate the style, tone, and structure of the following English examples, but generate new content for the requested topic." in
        foldl (λ prompt ix, prompt +:+ example_block ix.1 ix.2) prompt
          (imap pair (take 2 examples))
    | _ =>
        prompt +:+ nl +:+ nl
        +:+ "5) Writing Style Examples: No specific examples provided for this combination. Use your general knowledge of professional LinkedIn posts."
    end in
  prompt +:+ nl +:+ nl +:+ "Generated Post:".
End output_generator.

(** ** The topic list (main.py) *)

(** [sorted(list(set(category_topic_mapping.get(selected_category,
    unique_tags))))] *)
Definition available_topics (set_order : list string → list string)
    (category_topic_mapping : gmap string (list string))
    (selected_category : string) (unique_tags : list string) : list string :=
  sorted String.le
    (set_order (default unique_tags (category_topic_mapping !! selected_category))).

(** ** Preprocessing (preprocess.py) *)

(** A [dict] by its items, in insertion order and with distinct keys:
    lookup, assignment and the merge [a | b]. *)
Fixpoint dict_get (k : string) (items : list (string * pyval)) : option pyval :=
  match items with
  | [] => None
  | (k', v) :: rest => if bool_decide (k' = k) then Some v else dict_get k rest
  end.

Fixpoint dict_set (k : string) (v : pyval) (items : list (string * pyval))
    : list (string * pyval) :=
  match items with
  | [] => [(k, v)]
  | (k', v') :: rest =>
      if bool_decide (k' = k) then (k, v) :: rest else (k', v') :: dict_set k v rest
  end.

Definition dict_merge (a b : list (string * pyval)) : list (string * pyval) :=
  ((λ kv : string * pyval, (kv.1, default kv.2 (dict_get kv.1 b))) <$> a)
  ++ filter (λ kv : string * pyval, dict_get kv.1 a = None) b.

(** [isinstance(v, int)] ([bool] is a subclass of [int]), [v < 0] for
    such a value, and the number it is. *)
Definition is_int (v : pyval) : bool :=
  match v with
  | PInt _ | PBool _ => true
  | _ => false
  end.

Definition negative (v : pyval) : bool :=
  match v with
  | PInt z => z <? 0
  | _ => false
  end.

Definition int_value (v : pyval) : Z :=
  match v with
  | PInt z => z
  | PBool b => Z.b2z b
  | _ => 0
  end.

(** The string tags of a post that has a list under "tags". *)
Definition post_tags (post : list (string * pyval)) : list string :=
  match dict_get "tags" post with
  | Some (PList l) => l ≫= str_items
  | _ => []
  end.

(** The file at [processed_file_path]: whether [open(..., mode="w")]
    opens it. *)
Inductive output_file : Type :=
  | Writable
  | NotWritable.

(** How a call of [process_posts] ends: with an exception that
    propagates, with a [return] or the caught IOError of the last block,
    nothing written either way, or with [json.dump] called on
    [final_posts] and the file opened for it. *)
Inductive process_outcome : Type :=
  | Propagates (e : exn)
  | Returns
  | Dumps (final_posts : list pyval).

Section preprocess.
(** The language model and the JSON output parser are outside the
    program: the content the chain of [extract_metadata] answers for a
    post text and the one of [get_unified_tags] for a string of tags
    ([None] when the invocation raises, or when building the prompt from
    its template does), and what the parser makes of a content ([None]
    when it raises).  So are [str.strip], [str()] and the
    iteration order of a set. *)
Variable invoke_metadata : pyval → option string.
Variable invoke_unify : string → option string.
Variable json_parse : string → option pyval.
Variable strip : string → string.
Variable py_str : pyval → string.
Variable set_order : list string → list string.

(** [tag.strip()] for a tag the comprehension of [extract_metadata]
    keeps. *)
Definition clean_tag (tag : pyval) : option pyval :=
  match tag with
  | PStr s => if bool_decide (strip s = "") then None else Some (PStr (strip s))
  | _ => None
  end.

(** [extract_metadata]; [None] stands for the exception it raises. *)
Definition extract_metadata (post_text : pyval) : option (list (string * pyval)) :=
  content ← invoke_metadata post_text;
  res ← json_parse content;
  match res with
  | PDict res =>
      match dict_get "line_count" res, dict_get "tags" res with
      | Some line_count, Some tags =>
          if negb (is_int line_count) || negative line_count then None
          else
            Some (dict_set "tags"
                    (match tags with
                     | PList l => PList (take 2 (omap clean_tag l))
                     | _ => PList []
                     end) res)
      | _, _ => None
      end
  | _ => None
  end.

(** [get_unified_tags]; [None] stands for the exception it raises.  The
    keys added for [missing_keys] are distinct, so the order in which they
    are added does not show in the map. *)
Definition get_unified_tags (posts_with_metadata : list (list (string * pyval)))
    : option (gmap string string) :=
  let unique_tags := posts_with_metadata ≫= post_tags in
  match unique_tags with
  | [] => Some ∅
  | _ =>
      let unique_tags_list := sorted String.le (set_order unique_tags) in
      let tags_string := String.concat "," unique_tags_list in
      content ← invoke_unify tags_string;
      res ← json_parse content;
      match res with
      | PDict items =>
          let res : row := dict_of_items items in
          let missing_keys :=
            set_order (filter (λ t, res !! t = None) unique_tags) in
          let res := foldl (λ (res : row) key, <[key := PStr key]> res) res missing_keys in
          Some ((λ value, match value with
                          | PStr s => s
                          | _ => py_str value
                          end) <$> res)
      | _ => None
      end
  end.

(** One round of the first loop of [process_posts]: the post enriched,
    [Some None] when it is skipped, [None] when a [TypeError] escapes.
    A list or a str either has no 'text' in it or fails at [post['text']]
    inside the [try]: skipped both ways.  For any other value that is no
    dict the test ['text' not in post] itself raises. *)
Definition enrich (post : pyval) : option (option (list (string * pyval))) :=
  match post with
  | PDict items =>
      match dict_get "text" items with
      | None => Some None
      | Some text =>
          match extract_metadata text with
          | Some metadata => Some (Some (dict_merge items metadata))
          | None => Some None
          end
      end
  | PList _ | PStr _ => Some None
  | _ => None
  end.

(** The second loop: the tags of a post mapped and sorted.  The posts
    it runs over are enriched ones, whose tags are the strings
    [extract_metadata] kept; tags that are no strings are not modelled. *)
Definition unify (unified_tags_map : gmap string string)
    (post : list (string * pyval)) : list (string * pyval) :=
  match dict_get "tags" post with
  | Some (PList _) =>
      let new_tags := (λ tag, default tag (unified_tags_map !! tag)) <$> post_tags post in
      dict_set "tags" (PList (PStr <$> sorted String.le (set_order new_tags))) post
  | _ => post
  end.

(** [process_posts].  An exception of [get_unified_tags] leaves the
    posts as they were enriched.  In the last block an output file that
    cannot be opened raises the IOError that the block catches, and the
    call returns; the values handed to [json.dump] come from JSON
    documents, so the [TypeError] arm of that block is never taken. *)
Definition process_posts (raw_file : file_state) (processed_file : output_file)
    : process_outcome :=
  match open_file raw_file ≫= json_load with
  | Raise FileNotFoundError | Raise JSONDecodeError => Returns
  | Raise e => Propagates e
  | Ok posts =>
      match
        match posts with
        | PList l => omap id <$> mapM enrich l
        | PDict _ | PStr _ => Some []
        | _ => None
        end
      with
      | None => Propagates TypeError
      | Some [] => Returns
      | Some enriched_posts =>
          let final_posts :=
            match get_unified_tags enriched_posts with
            | Some unified_tags_map =>
                if bool_decide (unified_tags_map = ∅) then enriched_posts
                else unify unified_tags_map <$> enriched_posts
            | None => enriched_posts
            end in
          match processed_file with
          | Writable => Dumps (PDict <$> final_posts)
          | NotWritable => Returns
          end
      end
  end.
End preprocess.

(** [len(v)] and ['text' in v] are defined for a str, a list and a dict. *)
Definition is_container (v : pyval) : bool :=
  match v with
  | PStr _ | PList _ | PDict _ => true
  | _ => false
  end.

(** An object of the corpus as the preprocessing step writes it: distinct
    keys, no nested object, an int not below 0 as line count and a tags
    list of strings. *)
Definition conforming (v : pyval) (line_count : Z) (tags : list string) : Prop :=
  ∃ items lc,
    v = PDict items
    ∧ NoDup items.*1
    ∧ Forall (λ kv : string * pyval, is_dict kv.2 = false) items
    ∧ ("line_count", lc) ∈ items
    ∧ is_int lc = true
    ∧ int_value lc = line_count
    ∧ 0 ≤ line_count
    ∧ ("tags", PList (PStr <$> tags)) ∈ items.

(** A dumped post, by its items. *)
Definition well_formed (e : list (string * pyval)) : Prop :=
  NoDup e.*1
  ∧ Forall (λ kv : string * pyval, is_dict kv.2 = false) e
  ∧ ∃ line_count tags,
      dict_get "line_count" e = Some line_count
      ∧ is_int line_count = true ∧ 0 ≤ int_value line_count
      ∧ dict_get "tags" e = Some (PList (PStr <$> tags))
      ∧ (length tags ≤ 2)%nat.

(** ** Sample inputs of the preprocessing step *)

(** A language model for the examples: it answers one and the same
    metadata for every text, and a tag map with one key. *)
Definition sample_invoke_metadata : pyval → option string := λ _, Some "metadata".
Definition sample_invoke_unify : string → option string := λ _, Some "tag map".
Definition sample_json_parse (content : string) : option pyval :=
  if bool_decide (content = "metadata") then
    Some (PDict [("line_count", PInt 3);
                 ("tags", PList [PStr "AI"; PInt 7; PStr "ML"; PStr "NLP"])])
  else Some (PDict [("AI", PStr "Tech")]).
Definition sample_strip : string → string := λ s, s.
Definition sample_str : pyval → string := λ _, "".
Definition sample_choice : list string → string := λ l, default "" (head l).

Definition sample_raw_file : file_state :=
  Readable (Document (PList
    [PDict [("text", PStr "A"); ("engagement", PInt 10)];
     PDict [("engagement", PInt 5)]])).


Definition sample_final_posts : list pyval :=
  [PDict [("text", PStr "A"); ("engagement", PInt 10);
          ("line_count", PInt 3); ("tags", PList [PStr "ML"; PStr "Tech"])]].

(** * Properties *)

(** ** [sorted] is a stable sort *)

Section sorted_facts.
Context {A : Type} (R : relation A) `{!RelDecision R}.

Lemma insert_before_Permutation x l : insert_before R x l ≡ₚ x :: l.
Proof.
  induction l as [|y l IH]; simpl; [done|].
  case_decide; [done|]. rewrite IH. apply Permutation_swap.
Qed.

Lemma sorted_Permutation l : sorted R l ≡ₚ l.
Proof.
  induction l as [|x l IH]; simpl; [done|].
  by rewrite insert_before_Permutation, IH.
Qed.

Lemma sorted_length l : length (sorted R l) = length l.
Proof. by rewrite sorted_Permutation. Qed.

Lemma Sorted_insert_before `{!Total R} x l :
  Sorted R l → Sorted R (insert_before R x l).
Proof.
  induction 1 as [|y l Hl IH Hy]; simpl; [by repeat constructor|].
  case_decide as Hxy.
  - by repeat constructor.
  - constructor; [done|].
    destruct (total R x y) as [|Hyx]; [done|].
    destruct Hy as [|z l Hyz]; simpl; [by constructor|].
    case_decide; by constructor.
Qed.

Lemma Sorted_sorted `{!Total R} l : Sorted R (sorted R l).
Proof.
  induction l; simpl; [constructor|]. by apply Sorted_insert_before.
Qed.

Lemma StronglySorted_sorted `{!Total R, !Transitive R} l :
  StronglySorted R (sorted R l).
Proof. apply Sorted_StronglySorted; [done|apply Sorted_sorted]. Qed.

(** Stability.  [P] picks out a class of entries that may all precede
    one another (entries with one and the same key): sorting keeps them
    in the order they had. *)
Context (P : A → Prop) `{!∀ x, Decision (P x)}.
Hypothesis P_class : ∀ x y, P x → P y → R x y.

Lemma filter_insert_before x l :
  filter P (insert_before R x l) = filter P (x :: l).
Proof.
  induction l as [|y l IH]; simpl; [done|].
  case_decide as Hxy; [done|].
  rewrite filter_cons, IH, !filter_cons.
  destruct (decide (P y)) as [Hy|]; [|done].
  destruct (decide (P x)) as [Hx|]; [|done].
  destruct Hxy. by apply P_class.
Qed.

Lemma filter_sorted l : filter P (sorted R l) = filter P l.
Proof.
  induction l as [|x l IH]; simpl; [done|].
  by rewrite filter_insert_before, !filter_cons, IH.
Qed.
End sorted_facts.

(** ** A stable sort has one output *)

Section stable_unique.
Context {A : Type} (key : A → Z).

(** Descending order of the key, and the entries with key [e]. *)
Let desc : relation A := λ x y, key y ≤ key x.
Let of_key (e : Z) (l : list A) : list A := filter (λ x, key x = e) l.

Lemma of_key_elem_of e x l : x ∈ of_key e l → key x = e ∧ x ∈ l.
Proof. unfold of_key. by rewrite list_elem_of_filter. Qed.

Lemma stable_sorted_head x l1 y l2 :
  StronglySorted desc (x :: l1) →
  StronglySorted desc (y :: l2) →
  (∀ e, of_key e (x :: l1) = of_key e (y :: l2)) →
  x = y.
Proof.
  intros H1 H2 Hkeys.
  apply StronglySorted_inv in H1 as [_ H1], H2 as [_ H2].
  rewrite Forall_forall in H1, H2.
  assert (x ∈ y :: l2) as Hx.
  { apply (of_key_elem_of (key x)). rewrite <-Hkeys. unfold of_key.
    rewrite filter_cons_True by done. left. }
  assert (y ∈ x :: l1) as Hy.
  { apply (of_key_elem_of (key y)). rewrite Hkeys. unfold of_key.
    rewrite filter_cons_True by done. left. }
  assert (key x = key y) as Hxy.
  { apply elem_of_cons in Hx as [->|Hx]; [done|].
    apply elem_of_cons in Hy as [->|Hy]; [done|].
    specialize (H1 y Hy). specialize (H2 x Hx). unfold desc in *. lia. }
  specialize (Hkeys (key x)). unfold of_key in Hkeys.
  rewrite !filter_cons_True in Hkeys by done. by injection Hkeys.
Qed.

Lemma stable_sorted_unique l1 l2 :
  StronglySorted desc l1 →
  StronglySorted desc l2 →
  (∀ e, of_key e l1 = of_key e l2) →
  l1 = l2.
Proof.
  revert l2. induction l1 as [|x l1 IH]; intros [|y l2] H1 H2 Hkeys.
  - done.
  - specialize (Hkeys (key y)). unfold of_key in Hkeys.
    by rewrite filter_cons_True in Hkeys.
  - specialize (Hkeys (key x)). unfold of_key in Hkeys.
    by rewrite filter_cons_True in Hkeys.
  - assert (x = y) as <- by eauto using stable_sorted_head.
    f_equal. apply IH.
    + by apply StronglySorted_inv in H1 as [? _].
    + by apply StronglySorted_inv in H2 as [? _].
    + intros e. specialize (Hkeys e). unfold of_key in *.
      rewrite !filter_cons in Hkeys. destruct (decide (key x = e)); [|done].
      by injection Hkeys.
Qed.

#[local] Instance desc_dec : RelDecision desc.
Proof. intros x y. unfold desc. apply _. Defined.

(** Any sorting procedure that orders by the key and keeps entries of
    equal key in their order computes [sorted]. *)
Lemma sorted_is_the_stable_sort (l l' : list A) :
  StronglySorted desc l' →
  (∀ e, of_key e l' = of_key e l) →
  l' = sorted desc l.
Proof.
  intros Hsorted Hstable. apply stable_sorted_unique; [done|..].
  - apply StronglySorted_sorted.
    + intros x y. unfold desc. lia.
    + intros x y z. unfold desc. lia.
  - intros e. rewrite Hstable. unfold of_key. symmetry.
    apply filter_sorted. intros x y Hx Hy. unfold desc. lia.
Qed.
End stable_unique.

(** ** Slicing *)

Section slice_facts.
Context {A : Type}.
Implicit Types l : list A.

Lemma slice_to_prefix l n : slice_to l n `prefix_of` l.
Proof. apply prefix_take. Qed.

Lemma slice_to_nonneg l n :
  0 ≤ n → slice_to l n = take (Z.to_nat n) l.
Proof.
  intros Hn. unfold slice_to.
  destruct (Z.ltb_spec n 0) as [|_]; [lia|].
  destruct (Z.le_ge_cases n (Z.of_nat (length l))).
  - by rewrite Z.min_l.
  - rewrite Z.min_r, Nat2Z.id by done. rewrite !take_ge; [done|lia..].
Qed.

Lemma slice_to_neg l n :
  n < 0 → slice_to l n = take (length l - Z.to_nat (- n)) l.
Proof.
  intros Hn. unfold slice_to.
  destruct (Z.ltb_spec n 0) as [_|]; [|lia]. f_equal. lia.
Qed.

Lemma slice_to_length l n :
  0 ≤ n → (length (slice_to l n) ≤ Z.to_nat n)%nat.
Proof. intros. rewrite slice_to_nonneg, length_take by done. lia. Qed.

Lemma slice_to_all l n :
  Z.of_nat (length l) ≤ n → slice_to l n = l.
Proof.
  intros. rewrite slice_to_nonneg by lia. apply take_ge. lia.
Qed.
End slice_facts.

(** ** Frames *)

Section frame_facts.
Implicit Types (d : DataFrame) (c : string) (r : row).

Lemma zip_with_fmap_self {A B C} (g : A → B → C) (h : A → B) (l : list A) :
  zip_with g l (h <$> l) = (λ x, g x (h x)) <$> l.
Proof. induction l; simpl; [done|]. by f_equal. Qed.

Lemma replicate_length_fmap {A B} (v : B) (l : list A) :
  replicate (length l) v = (λ _, v) <$> l.
Proof. induction l; simpl; [done|]. by f_equal. Qed.

Lemma rows_set_column d c (f : row → pyval) :
  rows (set_column d c (f <$> rows d)) = (λ r, <[c := f r]> r) <$> rows d.
Proof. unfold set_column. simpl. apply zip_with_fmap_self. Qed.

Lemma rows_set_column_scalar d c v :
  rows (set_column_scalar d c v) = (λ r, <[c := v]> r) <$> rows d.
Proof.
  unfold set_column_scalar. rewrite replicate_length_fmap.
  apply (rows_set_column d c (λ _, v)).
Qed.

Lemma has_column_set_column d c s c' :
  has_column (set_column d c s) c' = bool_decide (c' = c) || has_column d c'.
Proof.
  unfold has_column, set_column, add_label. simpl.
  apply eq_true_iff_eq.
  rewrite orb_true_iff, !bool_decide_eq_true.
  case_bool_decide; set_solver.
Qed.

Lemma boolean_index_fmap (f : row → bool) (rs : list row) :
  boolean_index rs (f <$> rs) = filter (λ r, f r) rs.
Proof.
  induction rs as [|r rs IH]; [done|].
  rewrite filter_cons, <-IH. simpl. by destruct (f r).
Qed.

Lemma zip_with_fmap_fmap {A B C D} (g : B → C → D) (h : A → B) (k : A → C) (l : list A) :
  zip_with g (h <$> l) (k <$> l) = (λ x, g (h x) (k x)) <$> l.
Proof. induction l; simpl; [done|]. by f_equal. Qed.
Lemma Forall2_fmap_diag {A B} (P : A → B → Prop) (f : A → B) (l : list A) :
  (∀ x, x ∈ l → P x (f x)) → Forall2 P l (f <$> l).
Proof.
  intros HP. apply Forall2_fmap_r, Forall_Forall2_diag, Forall_forall, HP.
Qed.
End frame_facts.

(** ** Exceptions *)

Section result_facts.
Context {A B : Type}.

Lemma raises_false (m : result A) (dflt : A) :
  raises m = false → m = Ok (value_or dflt m).
Proof. by destruct m. Qed.

Lemma raises_true (m : result A) : raises m = true → ∃ e, m = Raise e.
Proof. destruct m; [done|]. by eexists. Qed.

Lemma existsb_false_elem_of (p : A → bool) (l : list A) :
  existsb p l = false ↔ ∀ x, x ∈ l → p x = false.
Proof.
  induction l as [|y l IH]; cbn [existsb].
  - split; [|done]. intros _ x Hx. by apply elem_of_nil in Hx.
  - rewrite orb_false_iff, IH. split.
    + intros [Hy Hl] x [->|Hx]%elem_of_cons; auto.
    + intros Hall. split; [apply Hall; left|intros x Hx; apply Hall; by right].
Qed.

Lemma existsb_true_elem_of (p : A → bool) (l : list A) :
  existsb p l = true ↔ ∃ x, x ∈ l ∧ p x = true.
Proof. rewrite existsb_exists. by setoid_rewrite list_elem_of_In. Qed.

(** [mapM] in the exception monad returns when every call does, and
    raises when one of them raises. *)
Lemma mapM_result_Ok (f : A → result B) (g : A → B) (l : list A) :
  (∀ x, x ∈ l → f x = Ok (g x)) → mapM f l = Ok (g <$> l).
Proof.
  induction l as [|x l IH]; intros Hf; [done|].
  cbn [mapM]. rewrite Hf by left. cbn [mbind result_bind].
  rewrite IH; [done|]. intros y Hy. apply Hf. by right.
Qed.

Lemma mapM_result_Raise (f : A → result B) (l : list A) (x : A) :
  x ∈ l → raises (f x) = true → ∃ e, mapM f l = Raise e.
Proof.
  induction l as [|y l IH]; intros Hx Hr; [by apply elem_of_nil in Hx|].
  cbn [mapM]. destruct (f y) as [b|e] eqn:Hy; [|by eexists].
  apply elem_of_cons in Hx as [->|Hx]; [by rewrite Hy in Hr|].
  destruct (IH Hx Hr) as [e ->]. by eexists.
Qed.

Lemma mapM_result_fmap {C} (f : B → result C) (g : A → B) (l : list A) :
  mapM f (g <$> l) = mapM (f ∘ g) l.
Proof. induction l as [|x l IH]; [done|]. cbn [fmap list_fmap mapM] in *. by rewrite IH. Qed.
End result_facts.

(** ** The cleaning blocks, row by row *)

Section load_facts.
Variable rt : runtime.
Variable set_order : list string → list string.

Implicit Types (d : DataFrame) (c : string) (r : row).

Lemma has_column_set_column_scalar d c v c' :
  has_column (set_column_scalar d c v) c' = bool_decide (c' = c) || has_column d c'.
Proof. apply has_column_set_column. Qed.

Lemma get_column_fmap d c : get_column d c = (λ r : row, r !!! c) <$> rows d.
Proof. done. Qed.

Lemma rows_set_column_get d c c' (f : pyval → pyval) :
  rows (set_column d c (f <$> get_column d c'))
  = (λ r : row, <[c := f (r !!! c')]> r) <$> rows d.
Proof.
  rewrite get_column_fmap, <-list_fmap_compose. apply rows_set_column.
Qed.

(** [pd.to_numeric] on a column of a frame. *)
Lemma to_numeric_column d c :
  (∀ r, r ∈ rows d → numeric_fails rt (get_column d c) (r !!! c) = false) →
  to_numeric rt (get_column d c)
  = Ok ((λ r : row, numeric_cell rt (get_column d c) (r !!! c)) <$> rows d).
Proof.
  intros Hok. unfold to_numeric, numeric_cell, numeric_fails in *. cbv zeta.
  set (dt := column_dtype _) in *.
  rewrite get_column_fmap, !mapM_result_fmap.
  apply mapM_result_Ok. intros r Hr. apply raises_false, Hok, Hr.
Qed.

Lemma to_numeric_column_raise d c r :
  r ∈ rows d → numeric_fails rt (get_column d c) (r !!! c) = true →
  ∃ e, to_numeric rt (get_column d c) = Raise e.
Proof.
  intros Hr Hfail. unfold to_numeric, numeric_fails in *. cbv zeta.
  set (dt := column_dtype _) in *.
  rewrite get_column_fmap, !mapM_result_fmap.
  by apply (mapM_result_Raise _ _ r).
Qed.

Lemma clean_line_count_ok d :
  (∀ r, r ∈ rows d → line_count_fails rt d r = false) →
  ∃ d',
    clean_line_count rt d = Ok d'
    ∧ rows d'
      = length_step rt (has_column d "line_count") (get_column d "line_count")
          <$> rows d
    ∧ ∀ c, has_column d' c
           = bool_decide (c = "length") || bool_decide (c = "line_count")
             || has_column d c.
Proof.
  intros Hok. unfold clean_line_count, length_step.
  destruct (has_column d "line_count") eqn:Hcol; cbn [negb].
  - assert (∀ r, r ∈ rows d →
        numeric_fails rt (get_column d "line_count") (r !!! "line_count") = false
        ∧ raises (categorize_length rt
            (numeric_cell rt (get_column d "line_count") (r !!! "line_count")))
          = false) as Hnum.
    { intros r Hr. specialize (Hok r Hr). unfold line_count_fails in Hok.
      rewrite Hcol in Hok. by apply orb_false_iff in Hok. }
    rewrite to_numeric_column by (intros; by apply Hnum).
    cbn [mbind result_bind].
    set (cell := λ r : row,
           numeric_cell rt (get_column d "line_count") (r !!! "line_count")).
    rewrite (get_column_fmap (set_column _ _ _)), (rows_set_column d "line_count" cell).
    rewrite !mapM_result_fmap.
    rewrite (mapM_result_Ok _
               (λ r, value_or "Unknown" (categorize_length rt (cell r)))).
    2:{ intros r Hr. unfold compose. rewrite lookup_total_insert_eq.
        apply raises_false, Hnum, Hr. }
    cbn [mbind result_bind]. eexists. split; [done|]. split.
    + unfold set_column at 1. cbn [rows]. rewrite rows_set_column.
      rewrite <-list_fmap_compose, zip_with_fmap_fmap.
      apply list_fmap_ext. intros i r _. unfold compose. cbv zeta.
      by rewrite lookup_total_insert_eq.
    + intros c. rewrite !has_column_set_column. by rewrite orb_assoc.
  - eexists. split; [done|]. split.
    + by rewrite !rows_set_column_scalar, <-list_fmap_compose.
    + intros c. rewrite !has_column_set_column_scalar. by rewrite orb_assoc.
Qed.

Lemma clean_line_count_raise d r :
  r ∈ rows d → line_count_fails rt d r = true →
  ∃ e, clean_line_count rt d = Raise e.
Proof.
  intros Hr Hfail. unfold line_count_fails in Hfail.
  apply andb_true_iff in Hfail as [Hcol Hfail].
  unfold clean_line_count. rewrite Hcol. cbn [negb].
  destruct (existsb
    (λ r : row, numeric_fails rt (get_column d "line_count") (r !!! "line_count"))
    (rows d)) eqn:Hnum.
  - apply existsb_true_elem_of in Hnum as (r' & Hr' & Hf).
    destruct (to_numeric_column_raise d "line_count" r' Hr' Hf) as [e ->].
    by eexists.
  - rewrite existsb_false_elem_of in Hnum. rewrite to_numeric_column by done.
    rewrite (Hnum r Hr) in Hfail. cbn [orb] in Hfail.
    cbn [mbind result_bind].
    rewrite (get_column_fmap (set_column _ _ _)), rows_set_column.
    rewrite !mapM_result_fmap.
    destruct (mapM_result_Raise
      (categorize_length rt ∘ (λ r : row, r !!! "line_count")
       ∘ (λ r : row,
            <["line_count" :=
                numeric_cell rt (get_column d "line_count") (r !!! "line_count")]> r))
      (rows d) r Hr) as [e ->]; [|by eexists].
    unfold compose. by rewrite lookup_total_insert_eq.
Qed.

Lemma rows_clean_tags d :
  rows (clean_tags set_order d).1 = tags_step (has_column d "tags") <$> rows d.
Proof.
  unfold clean_tags, tags_step.
  destruct (has_column d "tags"); cbn [negb fst snd].
  - by rewrite rows_set_column_get.
  - by rewrite replicate_length_fmap, rows_set_column.
Qed.

Lemma has_column_clean_tags d c :
  has_column (clean_tags set_order d).1 c = bool_decide (c = "tags") || has_column d c.
Proof.
  unfold clean_tags.
  destruct (has_column d "tags"); cbn [negb fst snd]; by rewrite has_column_set_column.
Qed.

Lemma unique_tags_clean_tags d :
  (clean_tags set_order d).2
  = if has_column d "tags"
    then sorted String.le (set_order (rows (clean_tags set_order d).1 ≫= row_tags))
    else [].
Proof.
  unfold clean_tags.
  destruct (has_column d "tags"); cbn [negb fst snd]; [|done].
  by rewrite get_column_fmap, list_fmap_bind.
Qed.

Lemma rows_clean_language d :
  rows (clean_language d) = language_step (has_column d "language") <$> rows d.
Proof.
  unfold clean_language, language_step, fillna.
  destruct (has_column d "language"); cbn [negb fst snd].
  - by rewrite rows_set_column_get.
  - by rewrite rows_set_column_scalar.
Qed.

Lemma has_column_clean_language d c :
  has_column (clean_language d) c = bool_decide (c = "language") || has_column d c.
Proof.
  unfold clean_language.
  destruct (has_column d "language"); cbn [negb fst snd];
    by rewrite ?has_column_set_column_scalar, ?has_column_set_column.
Qed.

Lemma rows_clean_text d :
  rows (clean_text d) = text_step (has_column d "text") <$> rows d.
Proof.
  unfold clean_text, text_step.
  destruct (has_column d "text"); cbn [negb fst snd].
  - by rewrite list_fmap_id.
  - by rewrite rows_set_column_scalar.
Qed.

Lemma has_column_clean_text d c :
  has_column (clean_text d) c = bool_decide (c = "text") || has_column d c.
Proof.
  unfold clean_text.
  destruct (has_column d "text") eqn:Ht; cbn [negb fst snd].
  - case_bool_decide; simpl; congruence.
  - by rewrite has_column_set_column_scalar.
Qed.

Lemma clean_engagement_ok d :
  (∀ r, r ∈ rows d → engagement_fails rt d r = false) →
  ∃ d',
    clean_engagement rt d = Ok d'
    ∧ rows d'
      = engagement_step rt (has_column d "engagement") (get_column d "engagement")
          <$> rows d
    ∧ ∀ c, has_column d' c = bool_decide (c = "engagement") || has_column d c.
Proof.
  intros Hok. unfold clean_engagement, engagement_step.
  destruct (has_column d "engagement") eqn:Hcol; cbn [negb].
  - assert (∀ r, r ∈ rows d →
        numeric_fails rt (get_column d "engagement") (r !!! "engagement") = false
        ∧ raises (astype_int rt (filled
            (numeric_cell rt (get_column d "engagement") (r !!! "engagement"))))
          = false) as Hnum.
    { intros r Hr. specialize (Hok r Hr). unfold engagement_fails in Hok.
      rewrite Hcol in Hok. by apply orb_false_iff in Hok. }
    rewrite to_numeric_column by (intros; by apply Hnum).
    cbn [mbind result_bind]. unfold fillna.
    rewrite !mapM_result_fmap.
    rewrite (mapM_result_Ok _
      (λ r : row, value_or (PInt 0) (astype_int rt (filled
         (numeric_cell rt (get_column d "engagement") (r !!! "engagement")))))).
    2:{ intros r Hr. unfold compose. apply raises_false, Hnum, Hr. }
    cbn [mbind result_bind]. eexists. split; [done|]. split.
    + apply rows_set_column.
    + intros c. by rewrite has_column_set_column.
  - eexists. split; [done|]. split.
    + by rewrite rows_set_column_scalar.
    + intros c. by rewrite has_column_set_column_scalar.
Qed.

Lemma clean_engagement_raise d r :
  r ∈ rows d → engagement_fails rt d r = true →
  ∃ e, clean_engagement rt d = Raise e.
Proof.
  intros Hr Hfail. unfold engagement_fails in Hfail.
  apply andb_true_iff in Hfail as [Hcol Hfail].
  unfold clean_engagement. rewrite Hcol. cbn [negb].
  destruct (existsb
    (λ r : row, numeric_fails rt (get_column d "engagement") (r !!! "engagement"))
    (rows d)) eqn:Hnum.
  - apply existsb_true_elem_of in Hnum as (r' & Hr' & Hf).
    destruct (to_numeric_column_raise d "engagement" r' Hr' Hf) as [e ->].
    by eexists.
  - rewrite existsb_false_elem_of in Hnum. rewrite to_numeric_column by done.
    rewrite (Hnum r Hr) in Hfail. cbn [orb] in Hfail.
    cbn [mbind result_bind]. unfold fillna. rewrite !mapM_result_fmap.
    destruct (mapM_result_Raise
      (astype_int rt ∘ (λ x, if isna x then PInt 0 else x)
       ∘ (λ r : row,
            numeric_cell rt (get_column d "engagement") (r !!! "engagement")))
      (rows d) r Hr) as [e ->]; [|by eexists].
    exact Hfail.
Qed.

Lemma lookup_engagement_step b column r c :
  c ≠ "engagement" → engagement_step rt b column r !!! c = r !!! c.
Proof. intros. unfold engagement_step. destruct b; by rewrite lookup_total_insert_ne. Qed.

Lemma lookup_text_step b r c :
  c ≠ "text" → text_step b r !!! c = r !!! c.
Proof. intros. unfold text_step. destruct b; [done|]. by rewrite lookup_total_insert_ne. Qed.

Lemma lookup_language_step b r c :
  c ≠ "language" → language_step b r !!! c = r !!! c.
Proof. intros. unfold language_step. destruct b; by rewrite lookup_total_insert_ne. Qed.

Lemma lookup_tags_step b r c :
  c ≠ "tags" → tags_step b r !!! c = r !!! c.
Proof. intros. unfold tags_step. destruct b; by rewrite lookup_total_insert_ne. Qed.

Lemma lookup_length_step b column r c :
  c ≠ "length" → c ≠ "line_count" → length_step rt b column r !!! c = r !!! c.
Proof.
  intros. unfold length_step. destruct b; cbv zeta; by rewrite !lookup_total_insert_ne.
Qed.

Ltac labels :=
  repeat first
    [ rewrite bool_decide_eq_true_2 by reflexivity
    | rewrite bool_decide_eq_false_2 by discriminate ];
  cbn [orb].

(** [load_posts] on a document that is not empty: it raises when one of
    the two numeric blocks does, and otherwise holds the frame cleaned row
    by row. *)
Lemma load_posts_document self posts raw :
  py_truthy posts = true →
  json_normalize posts = Ok raw →
  if load_fails rt raw
  then ∃ e, load_posts rt set_order self (Readable (Document posts)) = Raise e
  else
    ∃ d,
      load_posts rt set_order self (Readable (Document posts)) =
        Ok {| df := Some d;
              unique_tags :=
                if has_column raw "tags"
                then sorted String.le (set_order (rows d ≫= row_tags))
                else [] |}
      ∧ rows d = clean_row rt raw <$> rows raw
      ∧ Forall (λ c, has_column d c = true) schema.
Proof.
  intros Htruthy Hnorm. unfold load_posts.
  cbn [open_file json_load try_except mbind result_bind].
  rewrite Htruthy. cbn [negb]. rewrite Hnorm.
  cbn [mbind result_bind]. unfold load_fails.
  destruct (existsb (line_count_fails rt raw) (rows raw)) eqn:Hlc; cbn [orb].
  { apply existsb_true_elem_of in Hlc as (r & Hr & Hf).
    destruct (clean_line_count_raise raw r Hr Hf) as [e ->]. by eexists. }
  rewrite existsb_false_elem_of in Hlc.
  destruct (clean_line_count_ok raw Hlc) as (d1 & -> & Hrows1 & Hcols1).
  cbn [mbind result_bind].
  rewrite (surjective_pairing (clean_tags set_order d1)).
  set (d4 := clean_text (clean_language (clean_tags set_order d1).1)).
  set (before := λ r : row,
         text_step (has_column raw "text")
           (language_step (has_column raw "language")
             (tags_step (has_column raw "tags")
               (length_step rt (has_column raw "line_count")
                  (get_column raw "line_count") r)))).
  assert (rows d4 = before <$> rows raw) as Hrows4.
  { unfold d4. rewrite rows_clean_text, rows_clean_language, rows_clean_tags, Hrows1.
    rewrite !has_column_clean_language, !has_column_clean_tags, !Hcols1.
    labels. by rewrite <-!list_fmap_compose. }
  assert (∀ c, has_column d4 c
               = bool_decide (c = "text") || bool_decide (c = "language")
                 || bool_decide (c = "tags") || bool_decide (c = "length")
                 || bool_decide (c = "line_count") || has_column raw c) as Hcols4.
  { intros c. unfold d4.
    rewrite has_column_clean_text, has_column_clean_language,
      has_column_clean_tags, Hcols1.
    by rewrite !orb_assoc. }
  assert (∀ r, before r !!! "engagement" = r !!! "engagement") as Hcell.
  { intros r. unfold before.
    by rewrite lookup_text_step, lookup_language_step, lookup_tags_step,
      lookup_length_step. }
  assert (get_column d4 "engagement" = get_column raw "engagement") as Hget4.
  { rewrite !get_column_fmap, Hrows4, <-list_fmap_compose.
    apply list_fmap_ext. intros i r _. apply Hcell. }
  assert (has_column d4 "engagement" = has_column raw "engagement") as Hcol4.
  { rewrite Hcols4. by labels. }
  assert (∀ r, engagement_fails rt d4 (before r) = engagement_fails rt raw r)
    as Hfails.
  { intros r. unfold engagement_fails. by rewrite Hcol4, Hget4, Hcell. }
  destruct (existsb (engagement_fails rt raw) (rows raw)) eqn:Heng.
  { apply existsb_true_elem_of in Heng as (r & Hr & Hf).
    destruct (clean_engagement_raise d4 (before r)) as [e ->];
      [|by rewrite Hfails|by eexists].
    rewrite Hrows4. apply list_elem_of_fmap. by exists r. }
  rewrite existsb_false_elem_of in Heng.
  destruct (clean_engagement_ok d4) as (d5 & -> & Hrows5 & Hcols5).
  { intros r' Hr'. rewrite Hrows4 in Hr'.
    apply list_elem_of_fmap in Hr' as (r & -> & Hr). rewrite Hfails. by apply Heng. }
  cbn [mbind result_bind].
  rewrite Hcol4, Hget4, Hrows4, <-list_fmap_compose in Hrows5.
  exists d5. split; [|split; [exact Hrows5|]].
  - do 2 f_equal. rewrite unique_tags_clean_tags, Hcols1.
    labels. destruct (has_column raw "tags") eqn:Htags; [|done]. do 2 f_equal.
    rewrite Hrows5, rows_clean_tags, Hrows1, Hcols1.
    labels. rewrite Htags, <-!list_fmap_compose, !list_fmap_bind.
    apply list_bind_ext; [|done]. intros r. unfold row_tags, compose, before.
    by rewrite lookup_engagement_step, lookup_text_step, lookup_language_step.
  - unfold schema. repeat constructor; rewrite Hcols5, Hcols4; by labels.
Qed.
End load_facts.

(** ** The length classifier *)

Lemma count_category_Short z : count_category z = "Short" ↔ z < 5.
Proof.
  unfold count_category. destruct (Z.ltb_spec z 5); [done|].
  destruct ((5 <=? z) && (z <=? 10)); split; (done || lia).
Qed.


Lemma count_category_Long z : count_category z = "Long" ↔ 10 < z.
Proof.
  unfold count_category. destruct (Z.ltb_spec z 5); [split; (done || lia)|].
  destruct (Z.leb_spec 5 z); [|lia].
  destruct (Z.leb_spec z 10); cbn [andb]; split; (done || lia).
Qed.

Lemma count_category_known z : count_category z ≠ "Unknown".
Proof. unfold count_category. by repeat case_match. Qed.

(** The integer part of a finite float: [m * 2^e] when the exponent is
    not negative, and [m] divided by [2^(-e)], rounded towards zero, when
    it is. *)
Lemma float_trunc_finite negative m e :
  float_trunc (Finite negative m e)
  = Some ((if negative then -1 else 1)
          * (if 0 <=? e then Z.of_N m * 2 ^ e else Z.of_N m / 2 ^ (- e))).
Proof.
  cbn [float_trunc]. f_equal.
  assert (Z.shiftl (Z.of_N m) e
          = if 0 <=? e then Z.of_N m * 2 ^ e else Z.of_N m / 2 ^ (- e)) as ->.
  { destruct (Z.leb_spec 0 e).
    - by apply Z.shiftl_mul_pow2.
    - apply Z.shiftl_div_pow2. lia. }
  destruct negative; lia.
Qed.

(** [categorize_length] by what its argument stands for. *)
Lemma categorize_length_read rt c :
  categorize_length rt c
  = match read_count rt c with
    | Count z => Ok (count_category z)
    | NoCount => Ok "Unknown"
    | Fails e => Raise e
    end.
Proof.
  unfold categorize_length.
  destruct c as [| | |b|z|f|s|l|items];
    cbn [isna_truth isna mbind result_bind read_count py_int try_except]; try done.
  - by destruct (float_trunc f).
  - by destruct (str_int rt s).
  - by destruct (list_isna rt l) as [[|]|e].
Qed.



(** ** The selector *)

Section select_facts.
Implicit Types (self : FewShotPosts) (d : DataFrame) (r : row).

Lemma str_eq_spec s v : str_eq s v = true ↔ v = PStr s.
Proof.
  destruct v; simpl; try (split; [done|congruence]).
  rewrite bool_decide_eq_true. split; congruence.
Qed.

Lemma str_in_spec s l : str_in s l = true ↔ PStr s ∈ l.
Proof.
  unfold str_in. rewrite existsb_exists. setoid_rewrite str_eq_spec.
  setoid_rewrite <-list_elem_of_In. naive_solver.
Qed.

Lemma to_dict_records_exposed rs :
  to_dict_records ["text"; "tags"; "length"; "engagement"] rs = exposed <$> rs.
Proof. done. Qed.

Lemma get_filtered_posts_rows self d length tag :
  df self = Some d →
  Forall (λ c, has_column d c = true) schema →
  get_filtered_posts self length tag
  = exposed <$> filter (λ r, passes length tag r) (rows d).
Proof.
  intros Hdf Hcols. unfold get_filtered_posts. rewrite Hdf.
  unfold df_empty. destruct (rows d) as [|r rs] eqn:Hrows; [done|].
  destruct (columns d) as [|c cs] eqn:Hc.
  { apply Forall_cons_1 in Hcols as [Hcols _].
    unfold has_column in Hcols. rewrite Hc in Hcols.
    apply bool_decide_eq_true in Hcols. by apply elem_of_nil in Hcols. }
  assert (forallb (has_column d) required_cols = true) as ->.
  { apply forallb_forall. intros c' Hc'. apply list_elem_of_In in Hc'.
    rewrite Forall_forall in Hcols. apply Hcols.
    unfold required_cols, schema in *. set_solver. }
  cbn [negb]. rewrite to_dict_records_exposed. f_equal.
  unfold get_column. rewrite <-!list_fmap_compose, !zip_with_fmap_fmap.
  rewrite <-Hrows. apply boolean_index_fmap.
Qed.

Lemma slice_to_nil {A} n : slice_to (@nil A) n = [].
Proof. unfold slice_to. apply take_nil. Qed.

Lemma get_top_engaging_posts_eq self length tag n :
  get_top_engaging_posts self length tag n
  = slice_to (sorted by_engagement_desc (get_filtered_posts self length tag)) n.
Proof.
  unfold get_top_engaging_posts.
  destruct (df self) as [d|] eqn:Hdf.
  - destruct (df_empty d || negb (has_column d "engagement")) eqn:Hguard.
    + assert (get_filtered_posts self length tag = []) as ->;
        [|symmetry; apply slice_to_nil].
      unfold get_filtered_posts. rewrite Hdf.
      destruct (df_empty d); [done|]. cbn [orb] in Hguard.
      apply negb_true_iff in Hguard.
      assert (forallb (has_column d) required_cols = false) as ->; [|done].
      apply not_true_is_false. rewrite forallb_forall. intros Hall.
      rewrite Hall in Hguard; [done|]. unfold required_cols. cbn. tauto.
    + destruct (get_filtered_posts self length tag); [|done].
      symmetry; apply slice_to_nil.
  - unfold get_filtered_posts. rewrite Hdf. symmetry; apply slice_to_nil.
Qed.

Lemma matchesb_spec length tag r :
  matchesb length tag r = true ↔ matches length tag r.
Proof.
  unfold matchesb, matches.
  rewrite !andb_true_iff, !bool_decide_eq_true, str_in_spec.
  split.
  - intros [[[Hl Hin] Hlang] Hlen]. split_and!; [|..|done].
    + destruct (r !!! "tags") as [| | | | | | |l|]; try done. by exists l.
    + destruct (r !!! "language") as [| | | | | |s| |]; try done.
      exists s. split; [done|]. by injection Hlang.
  - intros ((l & -> & Hin) & (s & -> & Hs) & Hlen).
    split_and!; try done. cbn [astype_str_lower]. by rewrite Hs.
Qed.

#[global] Instance matches_dec length tag r : Decision (matches length tag r).
Proof.
  refine (cast_if (decide (matchesb length tag r = true)));
    by rewrite <-matchesb_spec.
Defined.

Lemma passes_matchesb length tag r :
  r !!! "length" = PStr (derived_length (r !!! "line_count")) →
  passes length tag r = matchesb length tag r.
Proof.
  intros Hlen. unfold passes, matchesb. f_equal. rewrite Hlen.
  cbn [str_eq]. apply bool_decide_ext. naive_solver.
Qed.
End select_facts.

(** ** What a loaded table looks like *)

Section loaded_facts.
Variable rt : runtime.
Variable set_order : list string → list string.
Implicit Types (self : FewShotPosts) (d raw : DataFrame) (r : row).

Lemma clean_row_tags raw r :
  clean_row rt raw r !!! "tags"
  = if has_column raw "tags" && is_list (r !!! "tags") then r !!! "tags" else PList [].
Proof.
  unfold clean_row.
  rewrite lookup_engagement_step, lookup_text_step, lookup_language_step by done.
  unfold tags_step. rewrite lookup_length_step by done.
  destruct (has_column raw "tags"); by rewrite lookup_total_insert_eq.
Qed.

Lemma clean_row_language raw r :
  clean_row rt raw r !!! "language"
  = if has_column raw "language" && negb (isna (r !!! "language"))
    then r !!! "language" else PStr "English".
Proof.
  unfold clean_row.
  rewrite lookup_engagement_step, lookup_text_step by done.
  unfold language_step. rewrite lookup_tags_step, lookup_length_step by done.
  destruct (has_column raw "language"); rewrite lookup_total_insert_eq; [|done].
  by destruct (isna _).
Qed.

Lemma clean_row_line_count raw r :
  clean_row rt raw r !!! "line_count"
  = if has_column raw "line_count"
    then numeric_cell rt (get_column raw "line_count") (r !!! "line_count")
    else PNA.
Proof.
  unfold clean_row.
  rewrite lookup_engagement_step, lookup_text_step, lookup_language_step,
    lookup_tags_step by done.
  unfold length_step. destruct (has_column raw "line_count"); cbv zeta.
  - by rewrite lookup_total_insert_ne, lookup_total_insert_eq.
  - by rewrite lookup_total_insert_ne, lookup_total_insert_eq.
Qed.

Lemma convert_number_cell dt rd v : convert dt rd = Ok v → is_number_cell v = true.
Proof.
  destruct dt, rd as [|b|z|f]; cbn [convert]; try (by intros [= <-]).
  destruct (float_of_int z); [|done]. by intros [= <-].
Qed.

Lemma numeric_cell_number column v : is_number_cell (numeric_cell rt column v) = true.
Proof.
  unfold numeric_cell.
  destruct (convert _ _) as [c|e] eqn:Hc; [|done].
  by apply convert_number_cell in Hc.
Qed.

(** On a cell of a numeric column the classifier answers the derived
    length, and Unknown stands in where it raises. *)
Lemma categorize_length_derived c :
  is_number_cell c = true →
  value_or "Unknown" (categorize_length rt c) = derived_length c.
Proof.
  intros Hc. rewrite categorize_length_read.
  destruct c as [| | |b|z|f|s|l|items]; try done.
  cbn [read_count derived_length]. by destruct (float_trunc f).
Qed.

Lemma categorize_length_Ok_derived c category :
  is_number_cell c = true →
  categorize_length rt c = Ok category → category = derived_length c.
Proof.
  intros Hc Hcat. rewrite <-(categorize_length_derived c Hc). by rewrite Hcat.
Qed.

Lemma clean_row_length raw r :
  clean_row rt raw r !!! "length"
  = PStr (derived_length (clean_row rt raw r !!! "line_count")).
Proof.
  rewrite clean_row_line_count. unfold clean_row.
  rewrite lookup_engagement_step, lookup_text_step, lookup_language_step,
    lookup_tags_step by done.
  unfold length_step. destruct (has_column raw "line_count"); cbv zeta.
  - rewrite !lookup_total_insert_eq.
    by rewrite categorize_length_derived by apply numeric_cell_number.
  - by rewrite lookup_total_insert_eq.
Qed.

Lemma clean_row_engagement raw r :
  clean_row rt raw r !! "engagement"
  = Some (if has_column raw "engagement"
          then value_or (PInt 0)
                 (astype_int rt
                    (filled (numeric_cell rt (get_column raw "engagement")
                               (r !!! "engagement"))))
          else PInt 0).
Proof.
  unfold clean_row, engagement_step.
  destruct (has_column raw "engagement").
  - rewrite lookup_insert_eq.
    by rewrite lookup_text_step, lookup_language_step, lookup_tags_step,
      lookup_length_step.
  - by rewrite lookup_insert_eq.
Qed.

Lemma astype_int_cell v : ∃ z, value_or (PInt 0) (astype_int rt v) = PInt z.
Proof.
  destruct v as [| | |b|z|f|s|l|items]; cbn [astype_int value_or]; eauto.
  destruct (float_trunc f); cbn [value_or]; eauto.
Qed.

Lemma clean_row_engagement_int raw r :
  ∃ e, clean_row rt raw r !! "engagement" = Some (PInt e).
Proof.
  rewrite clean_row_engagement.
  destruct (has_column raw "engagement"); [|by eexists].
  destruct (astype_int_cell
    (filled (numeric_cell rt (get_column raw "engagement") (r !!! "engagement"))))
    as [e ->].
  by eexists.
Qed.

Lemma DataFrame_records_columns recs r c :
  r ∈ recs → is_Some (r !! c) → has_column (DataFrame_records recs) c = true.
Proof.
  intros Hr [v Hv]. unfold has_column, DataFrame_records. cbn [columns].
  apply bool_decide_eq_true. rewrite elem_of_remove_dups.
  apply list_elem_of_bind. exists r. split; [|done].
  apply list_elem_of_fmap. exists (c, v). split; [done|].
  by apply elem_of_map_to_list.
Qed.

Lemma DataFrame_elements_records data raw :
  DataFrame_elements data = Ok raw → ∃ recs, raw = DataFrame_records recs.
Proof.
  unfold DataFrame_elements. destruct data as [|[r|] data].
  - intros [= <-]. by eexists.
  - destruct (mapM _ _) as [recs|]; [|done]. intros [= <-]. by eexists.
  - intros [= <-]. by eexists.
Qed.

Lemma json_normalize_records posts raw :
  json_normalize posts = Ok raw → ∃ recs, raw = DataFrame_records recs.
Proof.
  unfold json_normalize.
  destruct posts; try done; apply DataFrame_elements_records.
Qed.

Lemma source_frame_columns file r c :
  r ∈ rows (source_frame file) → is_Some (r !! c) →
  has_column (source_frame file) c = true.
Proof.
  assert (∃ recs, source_frame file = DataFrame_records recs) as [recs ->].
  { unfold source_frame. destruct file as [| |[| |posts]]; eauto.
    destruct (py_truthy posts); eauto.
    destruct (json_normalize posts) eqn:Hn; eauto using json_normalize_records. }
  apply DataFrame_records_columns.
Qed.

Lemma source_frame_absent file r c :
  r ∈ rows (source_frame file) → has_column (source_frame file) c = false →
  r !!! c = PNaN.
Proof.
  intros Hr Hc. rewrite lookup_total_alt.
  destruct (r !! c) as [v|] eqn:Hv; [|done].
  rewrite (source_frame_columns file r c) in Hc; [done..|by eexists].
Qed.

Lemma source_frame_present file r c :
  r ∈ rows (source_frame file) → r !!! c ≠ PNaN →
  has_column (source_frame file) c = true.
Proof.
  intros Hr Hc. apply (source_frame_columns file r c Hr).
  rewrite lookup_total_alt in Hc. by destruct (r !! c).
Qed.

(** Construction always succeeds.  The table it holds is the source
    frame cleaned row by row, or the empty table when [load_posts]
    raised. *)
Lemma init_loaded file :
  ∃ self T,
    loads rt set_order file self T
    ∧ Forall (λ c, has_column T c = true) schema
    ∧ if load_fails rt (source_frame file)
      then rows T = [] ∧ unique_tags self = []
      else
        rows T = clean_row rt (source_frame file) <$> rows (source_frame file)
        ∧ unique_tags self =
            if has_column (source_frame file) "tags"
            then sorted String.le (set_order (rows T ≫= row_tags))
            else [].
Proof.
  assert (Hschema : Forall (λ c, has_column (DataFrame_columns schema) c = true)
                      schema).
  { apply Forall_forall. intros c Hc. by apply bool_decide_eq_true. }
  assert (Hnone : ∃ self T,
    (Ok (mkFewShotPosts (Some (DataFrame_columns schema)) []) = Ok self
     ∧ df self = Some T)
    ∧ Forall (λ c, has_column T c = true) schema
    ∧ if load_fails rt (DataFrame_records [])
      then rows T = [] ∧ unique_tags self = []
      else
        rows T = clean_row rt (DataFrame_records []) <$> rows (DataFrame_records [])
        ∧ unique_tags self =
            if has_column (DataFrame_records []) "tags"
            then sorted String.le (set_order (rows T ≫= row_tags))
            else []).
  { eexists _, _. by split_and!. }
  unfold loads, __init__, source_frame.
  destruct file as [| |[| |posts]]; try exact Hnone.
  destruct (py_truthy posts) eqn:Htruthy.
  - destruct (json_normalize posts) as [raw|e] eqn:Hnorm.
    + pose proof (load_posts_document rt set_order
        (mkFewShotPosts None []) posts raw Htruthy Hnorm) as Hload.
      destruct (load_fails rt raw).
      * destruct Hload as [e ->]. cbn [try_except].
        eexists _, _. split_and!; [by destruct e|done..].
      * destruct Hload as (d & -> & Hrows & Hcols).
        eexists _, d. by split_and!.
    + unfold load_posts.
      cbn [open_file json_load try_except mbind result_bind].
      rewrite Htruthy. cbn [negb]. rewrite Hnorm.
      cbn [mbind result_bind try_except]. destruct e; exact Hnone.
  - unfold load_posts.
    cbn [open_file json_load try_except mbind result_bind].
    rewrite Htruthy. exact Hnone.
Qed.

(** The rows of the source frame that reach the table: all of them, or
    none. *)
Lemma init_loaded_rows file :
  ∃ self T src,
    loads rt set_order file self T
    ∧ Forall (λ c, has_column T c = true) schema
    ∧ rows T = clean_row rt (source_frame file) <$> src
    ∧ (src = [] ∨ src = rows (source_frame file)).
Proof.
  destruct (init_loaded file) as (self & T & Hloads & Hcols & Hrows).
  destruct (load_fails rt (source_frame file)); destruct Hrows as [Hrows _].
  - exists self, T, []. by split_and!; [..|left].
  - exists self, T, (rows (source_frame file)). by split_and!; [..|right].
Qed.
End loaded_facts.

(** ** From the JSON document to the source frame *)

(** The record of a JSON object none of whose values is an object: its
    items as they are. *)
Lemma normalise_json_ordered_flat items :
  Forall (λ kv : string * pyval, is_dict kv.2 = false) items →
  normalise_json_ordered items = dict_of_items items.
Proof.
  intros Hflat. unfold normalise_json_ordered.
  assert (List.filter (λ kv : string * pyval, negb (is_dict kv.2)) items = items
          ∧ List.filter (λ kv : string * pyval, is_dict kv.2) items = [])
    as [-> ->]; [|by rewrite app_nil_r].
  induction Hflat as [|kv items Hkv _ [IH1 IH2]]; [done|].
  cbn [List.filter]. by rewrite Hkv, IH1, IH2.
Qed.

Lemma dict_of_items_lookup items k v :
  NoDup items.*1 → (k, v) ∈ items → dict_of_items items !!! k = v.
Proof.
  intros Hnd Hin. unfold dict_of_items.
  apply lookup_total_correct, elem_of_list_to_map_1.
  - by rewrite fmap_reverse, reverse_Permutation.
  - by rewrite reverse_Permutation.
Qed.

Lemma dict_of_items_absent items k :
  k ∉ items.*1 → dict_of_items items !!! k = PNaN.
Proof.
  intros Hk. unfold dict_of_items. rewrite lookup_total_alt.
  rewrite (not_elem_of_list_to_map_1 (reverse items) k); [done|].
  by rewrite fmap_reverse, reverse_Permutation.
Qed.

(** The rows of the source frame of an array of objects: the records of
    the objects, in the order of the array. *)
Lemma source_frame_objects l :
  l ≠ [] →
  Forall (λ v, is_dict v = true) l →
  rows (source_frame (Readable (Document (PList l))))
  = (λ v, match v with
          | PDict items => normalise_json_ordered items
          | _ => ∅
          end) <$> l.
Proof.
  intros Hne Hobj. unfold source_frame.
  assert (py_truthy (PList l) = true) as -> by by destruct l.
  cbn [json_normalize]. unfold DataFrame_elements.
  set (record := λ v, match v with
                      | PDict items => normalise_json_ordered items
                      | _ => ∅
                      end).
  assert (mapM (λ e, match e with
                     | ERecord r => Ok r
                     | EList => Raise AttributeError
                     end) (simple_json_normalize <$> l) = Ok (record <$> l)) as Hrec.
  { clear Hne. induction Hobj as [|v l Hv _ IH]; [done|].
    destruct v; try done. cbn [fmap list_fmap simple_json_normalize mapM].
    cbn [fmap list_fmap] in IH. by rewrite IH. }
  destruct l as [|v l]; [done|].
  inversion Hobj as [|? ? Hv _]; subst. destruct v; try done.
  cbn [fmap list_fmap simple_json_normalize] in *. by rewrite Hrec.
Qed.

(** A cell of the source frame of an array of objects without nested
    objects: the value the object has under the key, NaN when it has
    none. *)
Lemma source_frame_cell l i items r k :
  Forall (λ v, is_dict v = true) l →
  l !! i = Some (PDict items) →
  Forall (λ kv : string * pyval, is_dict kv.2 = false) items →
  NoDup items.*1 →
  rows (source_frame (Readable (Document (PList l)))) !! i = Some r →
  (∀ v, (k, v) ∈ items → r !!! k = v) ∧ (k ∉ items.*1 → r !!! k = PNaN).
Proof.
  intros Hobj Hi Hflat Hnd Hr.
  rewrite source_frame_objects in Hr; [|by intros ->|done].
  rewrite list_lookup_fmap, Hi in Hr. injection Hr as <-.
  rewrite normalise_json_ordered_flat by done. split.
  - intros v Hv. by apply dict_of_items_lookup.
  - apply dict_of_items_absent.
Qed.

(** ** Ranking *)

#[global] Instance by_engagement_desc_total : Total by_engagement_desc.
Proof. intros x y. unfold by_engagement_desc. lia. Qed.

#[global] Instance by_engagement_desc_trans : Transitive by_engagement_desc.
Proof. intros x y z. unfold by_engagement_desc. lia. Qed.

#[global] Instance engagement_dec x e : Decision (engagement x e).
Proof.
  unfold engagement.
  destruct (x !! "engagement") as [[| | | |z| | | |]|]; try (right; congruence).
  destruct (decide (z = e)) as [->|]; [by left|right; congruence].
Defined.

Lemma engagement_key_eq x e : engagement x e → engagement_key x = e.
Proof. unfold engagement, engagement_key. by intros ->. Qed.

Lemma StronglySorted_lookup {A} (R : relation A) (l : list A) (i j : nat) x y :
  StronglySorted R l → (i < j)%nat → l !! i = Some x → l !! j = Some y → R x y.
Proof.
  intros Hl. revert i j. induction Hl as [|z l Hl IH Hz]; intros i j Hij Hi Hj.
  { by rewrite lookup_nil in Hi. }
  destruct j as [|j]; [lia|]. destruct i as [|i].
  - injection Hi as ->. rewrite Forall_forall in Hz.
    apply Hz. by eapply list_elem_of_lookup_2.
  - apply (IH i j); [lia|done..].
Qed.

Lemma StronglySorted_prefix {A} (R : relation A) (l k : list A) :
  l `prefix_of` k → StronglySorted R k → StronglySorted R l.
Proof. intros [k' ->] Hk. by apply StronglySorted_app_1_l in Hk. Qed.

Lemma prefix_filter {A} (P : A → Prop) `{!∀ x, Decision (P x)} (l k : list A) :
  l `prefix_of` k → filter P l `prefix_of` filter P k.
Proof. intros [k' ->]. rewrite filter_app. by apply prefix_app_r. Qed.

Lemma prefix_elem_of {A} (l k : list A) x : l `prefix_of` k → x ∈ l → x ∈ k.
Proof. intros [k' ->] Hx. set_solver. Qed.

Lemma filter_ext_elem_of {A} (P Q : A → Prop)
    `{!∀ x, Decision (P x), !∀ x, Decision (Q x)} (l : list A) :
  (∀ x, x ∈ l → P x ↔ Q x) → filter P l = filter Q l.
Proof.
  induction l as [|x l IH]; intros HPQ; [done|].
  rewrite !filter_cons, IH by (intros; apply HPQ; by right).
  destruct (decide (P x)), (decide (Q x)); try done;
    exfalso; specialize (HPQ x); set_solver.
Qed.

(** ** The loaded table and its selections *)

Lemma exposed_engagement r : exposed r !! "engagement" = Some (r !!! "engagement").
Proof.
  unfold exposed. rewrite !list_to_map_cons.
  do 3 (rewrite lookup_insert_ne by done). apply lookup_insert_eq.
Qed.

Section loaded_tables.
Variable rt : runtime.
Variable set_order : list string → list string.
Implicit Types (self : FewShotPosts) (T : DataFrame) (r : row).

Lemma clean_row_ok raw r : row_ok (clean_row rt raw r).
Proof.
  split_and!.
  - rewrite clean_row_tags.
    destruct (has_column raw "tags"); cbn [andb]; [|by eexists].
    destruct (r !!! "tags"); by eexists.
  - rewrite lookup_total_alt.
    destruct (clean_row_engagement_int rt raw r) as [e ->]. by exists e.
  - rewrite clean_row_language.
    destruct (has_column raw "language"); cbn [andb]; [|done].
    by destruct (isna (r !!! "language")) eqn:Hna.
  - apply clean_row_length.
Qed.

(** Every construction yields a table whose records are well formed and
    whose selections are the matching records, ranked and cut. *)
Lemma loaded_select file :
  ∃ self T,
    loads rt set_order file self T
    ∧ Forall row_ok (rows T)
    ∧ ∀ cat tag n,
        get_top_engaging_posts self cat tag n
        = slice_to (sorted by_engagement_desc
                      (exposed <$> filter (matches cat tag) (rows T))) n.
Proof.
  destruct (init_loaded_rows rt set_order file)
    as (self & T & src & [Hinit Hdf] & Hcols & Hrows & _).
  assert (Forall row_ok (rows T)) as Hok.
  { rewrite Hrows. apply Forall_fmap, Forall_forall. intros r _.
    apply clean_row_ok. }
  exists self, T. split_and!; [done..|].
  intros cat tag n.
  rewrite get_top_engaging_posts_eq, (get_filtered_posts_rows self T) by done.
  do 3 f_equal. apply filter_ext_elem_of. intros r Hr.
  rewrite Forall_forall in Hok. destruct (Hok r Hr) as (_ & _ & _ & Hlen).
  rewrite passes_matchesb by done. rewrite <-matchesb_spec.
  by destruct (matchesb cat tag r).
Qed.
End loaded_tables.

(** ** The exemplar selector *)

(** C1: a selection from a loaded table returns only records that pass the
    filter (the tag is an entry of the tags list, the language is "english"
    up to case, the derived length is the requested one), and before it is
    cut to [n] it returns every such record, once for each occurrence in the
    table. *)
Theorem select_exact rt set_order file cat tag :
  ∃ self T,
    loads rt set_order file self T
    ∧ (∀ n x, x ∈ get_top_engaging_posts self cat tag n →
         ∃ r, r ∈ rows T ∧ matches cat tag r ∧ x = exposed r)
    ∧ (∀ n, Z.of_nat (length (rows T)) ≤ n →
         get_top_engaging_posts self cat tag n
         ≡ₚ exposed <$> filter (matches cat tag) (rows T)).
Proof.
  destruct (loaded_select rt set_order file)
    as (self & T & Hloads & _ & Hsel).
  exists self, T. split_and!; [done|..].
  - intros n x. rewrite Hsel. intros Hx.
    apply (prefix_elem_of _ _ _ (slice_to_prefix _ _)) in Hx.
    rewrite sorted_Permutation in Hx.
    apply list_elem_of_fmap in Hx as (r & -> & Hr).
    apply list_elem_of_filter in Hr as [Hm Hr]. by exists r.
  - intros n Hn. rewrite Hsel, slice_to_all; [apply sorted_Permutation|].
    rewrite sorted_length, length_fmap.
    pose proof (length_filter (matches cat tag) (rows T)). lia.
Qed.

(** C2: the records of a selection come in descending order of engagement,
    and records of equal engagement keep the order they have in the
    table. *)
Theorem select_ranked rt set_order file cat tag n :
  ∃ self T,
    loads rt set_order file self T
    ∧ (∀ i j x y,
         (i < j)%nat →
         get_top_engaging_posts self cat tag n !! i = Some x →
         get_top_engaging_posts self cat tag n !! j = Some y →
         ∃ ex ey, engagement x ex ∧ engagement y ey ∧ ey ≤ ex)
    ∧ (∀ e,
         filter (λ x, engagement x e) (get_top_engaging_posts self cat tag n)
         `prefix_of`
         filter (λ x, engagement x e)
           (exposed <$> filter (matches cat tag) (rows T))).
Proof.
  destruct (loaded_select rt set_order file)
    as (self & T & Hloads & Hok & Hsel).
  exists self, T. split_and!; [done|..].
  - intros i j x y Hij Hx Hy. rewrite Hsel in Hx, Hy.
    assert (∀ z, z ∈ slice_to (sorted by_engagement_desc
              (exposed <$> filter (matches cat tag) (rows T))) n →
            ∃ e, engagement z e) as Heng.
    { intros z Hz.
      apply (prefix_elem_of _ _ _ (slice_to_prefix _ _)) in Hz.
      rewrite sorted_Permutation in Hz.
      apply list_elem_of_fmap in Hz as (r & -> & Hr).
      apply list_elem_of_filter in Hr as [_ Hr].
      rewrite Forall_forall in Hok. destruct (Hok r Hr) as (_ & [e He] & _).
      exists e. unfold engagement. by rewrite exposed_engagement, He. }
    destruct (Heng x) as [ex Hex]; [by eapply list_elem_of_lookup_2|].
    destruct (Heng y) as [ey Hey]; [by eapply list_elem_of_lookup_2|].
    exists ex, ey. split_and!; [done..|].
    rewrite <-(engagement_key_eq x ex), <-(engagement_key_eq y ey) by done.
    change (by_engagement_desc x y).
    eapply StronglySorted_lookup; [|exact Hij|exact Hx|exact Hy].
    eapply StronglySorted_prefix; [apply slice_to_prefix|].
    apply StronglySorted_sorted; apply _.
  - intros e. rewrite Hsel.
    rewrite <-(filter_sorted by_engagement_desc (λ x, engagement x e))
      with (l := exposed <$> _).
    + apply prefix_filter, slice_to_prefix.
    + intros x y Hx Hy. unfold by_engagement_desc.
      by rewrite (engagement_key_eq x e), (engagement_key_eq y e).
Qed.

(** C4: for [n] at least 0 a selection has at most [n] records, none when
    [n] is 0, and all the matching records when there are no more than
    [n] of them. *)
Theorem select_at_most rt set_order file cat tag n :
  0 ≤ n →
  ∃ self T,
    loads rt set_order file self T
    ∧ Z.of_nat (length (get_top_engaging_posts self cat tag n)) ≤ n
    ∧ (n = 0 → get_top_engaging_posts self cat tag n = [])
    ∧ (Z.of_nat (length (filter (matches cat tag) (rows T))) ≤ n →
       get_top_engaging_posts self cat tag n
       ≡ₚ exposed <$> filter (matches cat tag) (rows T)).
Proof.
  intros Hn.
  destruct (loaded_select rt set_order file)
    as (self & T & Hloads & _ & Hsel).
  exists self, T. split_and!; [done|..].
  - rewrite Hsel. pose proof (slice_to_length
      (sorted by_engagement_desc (exposed <$> filter (matches cat tag) (rows T)))
      n Hn). lia.
  - intros ->. rewrite Hsel. by rewrite slice_to_nonneg.
  - intros Hall. rewrite Hsel, slice_to_all; [apply sorted_Permutation|].
    by rewrite sorted_length, length_fmap.
Qed.

Lemma select_at_most_witness :
  ∃ self T,
    loads sample_runtime remove_dups sample_corpus self T
    ∧ Z.of_nat (length (get_top_engaging_posts self "Short" "AI" 1)) ≤ 1
    ∧ (1 = 0 → get_top_engaging_posts self "Short" "AI" 1 = [])
    ∧ (Z.of_nat (length (filter (matches "Short" "AI") (rows T))) ≤ 1 →
       get_top_engaging_posts self "Short" "AI" 1
       ≡ₚ exposed <$> filter (matches "Short" "AI") (rows T)).
Proof. apply select_at_most. lia. Defined.

(** C10: for a negative [n] a selection is the ranked list of all matching
    records without its last [|n|] entries: it is empty only when [|n|] is
    at least the number of matches.  The ranked list holds the matching
    records in descending order of engagement, those of equal engagement
    in the order of the table. *)
Theorem select_negative rt set_order file cat tag n :
  n < 0 →
  ∃ self T ranked,
    loads rt set_order file self T
    ∧ ranked = get_top_engaging_posts self cat tag (Z.of_nat (length (rows T)))
    ∧ ranked ≡ₚ exposed <$> filter (matches cat tag) (rows T)
    ∧ (∀ i j x y,
         (i < j)%nat → ranked !! i = Some x → ranked !! j = Some y →
         ∃ ex ey, engagement x ex ∧ engagement y ey ∧ ey ≤ ex)
    ∧ (∀ e,
         filter (λ x, engagement x e) ranked
         = filter (λ x, engagement x e)
             (exposed <$> filter (matches cat tag) (rows T)))
    ∧ get_top_engaging_posts self cat tag n
      = take (length ranked - Z.to_nat (- n)) ranked
    ∧ (get_top_engaging_posts self cat tag n = []
       ↔ (length (filter (matches cat tag) (rows T)) ≤ Z.to_nat (- n))%nat).
Proof.
  intros Hn.
  destruct (loaded_select rt set_order file)
    as (self & T & Hloads & Hok & Hsel).
  set (all := sorted by_engagement_desc
                (exposed <$> filter (matches cat tag) (rows T))).
  assert (length all = length (filter (matches cat tag) (rows T))) as Hlen.
  { unfold all. by rewrite sorted_length, length_fmap. }
  assert (get_top_engaging_posts self cat tag (Z.of_nat (length (rows T))) = all)
    as Hall.
  { rewrite Hsel. apply slice_to_all. fold all. rewrite Hlen.
    pose proof (length_filter (matches cat tag) (rows T)). lia. }
  exists self, T, all. split_and!; [done| done |apply sorted_Permutation|..].
  - intros i j x y Hij Hx Hy.
    assert (∀ z, z ∈ all → ∃ e, engagement z e) as Heng.
    { intros z Hz. unfold all in Hz. rewrite sorted_Permutation in Hz.
      apply list_elem_of_fmap in Hz as (r & -> & Hr).
      apply list_elem_of_filter in Hr as [_ Hr].
      rewrite Forall_forall in Hok. destruct (Hok r Hr) as (_ & [e He] & _).
      exists e. unfold engagement. by rewrite exposed_engagement, He. }
    destruct (Heng x) as [ex Hex]; [by eapply list_elem_of_lookup_2|].
    destruct (Heng y) as [ey Hey]; [by eapply list_elem_of_lookup_2|].
    exists ex, ey. split_and!; [done..|].
    rewrite <-(engagement_key_eq x ex), <-(engagement_key_eq y ey) by done.
    change (by_engagement_desc x y).
    eapply StronglySorted_lookup; [|exact Hij|exact Hx|exact Hy].
    apply StronglySorted_sorted; apply _.
  - intros e. unfold all. apply filter_sorted.
    intros x y Hx Hy. unfold by_engagement_desc.
    by rewrite (engagement_key_eq x e), (engagement_key_eq y e).
  - rewrite Hsel. by apply slice_to_neg.
  - rewrite Hsel. fold all. rewrite slice_to_neg, <-Hlen by done. split.
    + intros Hnil. apply (f_equal length) in Hnil.
      rewrite length_take in Hnil. simpl in Hnil. lia.
    + intros Hle. replace (length all - Z.to_nat (- n))%nat with 0%nat by lia.
      apply take_0.
Qed.

Lemma select_negative_witness :
  ∃ self T ranked,
    loads sample_runtime remove_dups sample_corpus self T
    ∧ ranked = get_top_engaging_posts self "Short" "AI" (Z.of_nat (length (rows T)))
    ∧ ranked ≡ₚ exposed <$> filter (matches "Short" "AI") (rows T)
    ∧ (∀ i j x y,
         (i < j)%nat → ranked !! i = Some x → ranked !! j = Some y →
         ∃ ex ey, engagement x ex ∧ engagement y ey ∧ ey ≤ ex)
    ∧ (∀ e,
         filter (λ x, engagement x e) ranked
         = filter (λ x, engagement x e)
             (exposed <$> filter (matches "Short" "AI") (rows T)))
    ∧ get_top_engaging_posts self "Short" "AI" (-1)
      = take (length ranked - Z.to_nat (- -1)) ranked
    ∧ (get_top_engaging_posts self "Short" "AI" (-1) = []
       ↔ (length (filter (matches "Short" "AI") (rows T)) ≤ Z.to_nat (- -1))%nat).
Proof. apply select_negative. lia. Defined.

(** ** The corpus loader *)

Lemma loads_unique rt set_order set_order' file self T self' T' :
  loads rt set_order file self T →
  loads rt set_order' file self' T' →
  rows T = rows T'.
Proof.
  intros Hl Hl'.
  destruct (init_loaded rt set_order file)
    as (s1 & T1 & [Hi1 Hd1] & _ & Hr1).
  destruct (init_loaded rt set_order' file)
    as (s2 & T2 & [Hi2 Hd2] & _ & Hr2).
  destruct Hl as [Hi Hd], Hl' as [Hi' Hd'].
  assert (T = T1) as -> by congruence.
  assert (T' = T2) as -> by congruence.
  destruct (load_fails rt (source_frame file));
    destruct Hr1 as [Hr1 _], Hr2 as [Hr2 _]; congruence.
Qed.

Lemma elem_of_row_tags (r : row) t :
  t ∈ row_tags r ↔ ∃ tags, r !!! "tags" = PList tags ∧ PStr t ∈ tags.
Proof.
  unfold row_tags. rewrite list_elem_of_bind. split.
  - intros (v & Ht & Hv). destruct v; try by apply elem_of_nil in Ht.
    apply list_elem_of_singleton in Ht as ->.
    destruct (r !!! "tags") as [| | | | | | |tags|]; try by apply elem_of_nil in Hv.
    by exists tags.
  - intros (tags & -> & Ht). exists (PStr t). split; [|done].
    by apply list_elem_of_singleton.
Qed.

(** The tag index of a loaded table: sorted, free of duplicates, and made
    of the strings that occur in the tags lists of the records. *)
Lemma loaded_tag_index rt set_order file :
  set_order_ok set_order →
  ∃ self T,
    loads rt set_order file self T
    ∧ StronglySorted String.le (get_tags self)
    ∧ NoDup (get_tags self)
    ∧ ∀ t, t ∈ get_tags self
           ↔ ∃ r tags, r ∈ rows T ∧ r !!! "tags" = PList tags ∧ PStr t ∈ tags.
Proof.
  intros Hset.
  destruct (init_loaded rt set_order file)
    as (self & T & Hloads & _ & Hrows).
  exists self, T. unfold get_tags.
  destruct (load_fails rt (source_frame file)); destruct Hrows as [Hrows Htags].
  { rewrite Htags, Hrows. split_and!; [done|constructor|constructor|].
    intros t. split; [by intros ?%elem_of_nil|].
    by intros (r & tags & ?%elem_of_nil & _). }
  rewrite Htags.
  destruct (has_column (source_frame file) "tags") eqn:Hcol.
  - destruct (Hset (rows T ≫= row_tags)) as [Hnd Hin].
    split_and!; [done|apply StronglySorted_sorted; apply _|..].
    + by rewrite sorted_Permutation.
    + intros t. rewrite sorted_Permutation, Hin, list_elem_of_bind.
      setoid_rewrite elem_of_row_tags. naive_solver.
  - split_and!; [done|constructor|constructor|].
    intros t. split; [by intros ?%elem_of_nil|].
    intros (r & tags & Hr & Htg & Ht). rewrite Hrows in Hr.
    apply list_elem_of_fmap in Hr as (r0 & -> & _).
    rewrite clean_row_tags, Hcol in Htg. cbn [andb] in Htg.
    injection Htg as <-. by apply elem_of_nil in Ht.
Qed.

Lemma calls_self self qs : calls self qs = self.
Proof.
  unfold calls. induction qs as [|q qs IH]; [done|].
  cbn [foldl]. by destruct q.
Qed.

Lemma remove_dups_order_ok : set_order_ok remove_dups.
Proof.
  intros l. split; [apply NoDup_remove_dups|]. intros x. apply elem_of_remove_dups.
Qed.

(** C5: when the file is missing, unreadable or not JSON, construction
    still returns an object; its table has the six columns of the schema
    and no rows, its tag index is empty, and so is every selection. *)
Theorem unavailable_corpus rt set_order file :
  unavailable file →
  ∃ self T,
    loads rt set_order file self T
    ∧ columns T = ["text"; "line_count"; "tags"; "language"; "length"; "engagement"]
    ∧ rows T = []
    ∧ get_tags self = []
    ∧ ∀ cat tag n, get_top_engaging_posts self cat tag n = [].
Proof.
  intros Hfile.
  exists (mkFewShotPosts (Some (DataFrame_columns schema)) []),
    (DataFrame_columns schema).
  split_and!; try done.
  by destruct file as [| |[| |posts]].
Qed.

Lemma unavailable_corpus_witness :
  ∃ self T,
    loads sample_runtime remove_dups Missing self T
    ∧ columns T = ["text"; "line_count"; "tags"; "language"; "length"; "engagement"]
    ∧ rows T = []
    ∧ get_tags self = []
    ∧ ∀ cat tag n, get_top_engaging_posts self cat tag n = [].
Proof. apply unavailable_corpus. exact I. Defined.

(** C8: the tag index is sorted in string order and free of duplicates,
    its members are the strings found in the tags lists of the loaded
    records, and no call of a public method changes it. *)
Theorem tag_index rt set_order file :
  set_order_ok set_order →
  ∃ self T,
    loads rt set_order file self T
    ∧ StronglySorted String.le (get_tags self)
    ∧ NoDup (get_tags self)
    ∧ (∀ t, t ∈ get_tags self
            ↔ ∃ r tags, r ∈ rows T ∧ r !!! "tags" = PList tags ∧ PStr t ∈ tags)
    ∧ ∀ qs, get_tags (calls self qs) = get_tags self.
Proof.
  intros Hset.
  destruct (loaded_tag_index rt set_order file Hset)
    as (self & T & Hloads & Hsorted & Hnodup & Hmem).
  exists self, T. split_and!; [done..|].
  intros qs. by rewrite calls_self.
Qed.

Lemma tag_index_witness :
  ∃ self T,
    loads sample_runtime remove_dups sample_corpus self T
    ∧ StronglySorted String.le (get_tags self)
    ∧ NoDup (get_tags self)
    ∧ (∀ t, t ∈ get_tags self
            ↔ ∃ r tags, r ∈ rows T ∧ r !!! "tags" = PList tags ∧ PStr t ∈ tags)
    ∧ ∀ qs, get_tags (calls self qs) = get_tags self.
Proof. apply tag_index, remove_dups_order_ok. Defined.

(** C9: two loads of one file, each with its own iteration order of the
    set of tags, give the same tag index and the same selections. *)
Theorem load_deterministic rt set_order1 set_order2 file :
  set_order_ok set_order1 →
  set_order_ok set_order2 →
  ∃ self1 self2,
    __init__ rt set_order1 file = Ok self1
    ∧ __init__ rt set_order2 file = Ok self2
    ∧ get_tags self1 = get_tags self2
    ∧ ∀ cat tag n,
        get_top_engaging_posts self1 cat tag n
        = get_top_engaging_posts self2 cat tag n.
Proof.
  intros Hset1 Hset2.
  destruct (loaded_tag_index rt set_order1 file Hset1)
    as (self1 & T1 & Hloads1 & Hsorted1 & Hnodup1 & Hmem1).
  destruct (loaded_tag_index rt set_order2 file Hset2)
    as (self2 & T2 & Hloads2 & Hsorted2 & Hnodup2 & Hmem2).
  pose proof (loads_unique _ _ _ _ _ _ _ _ Hloads1 Hloads2) as Hrows.
  exists self1, self2. split_and!; [apply Hloads1|apply Hloads2|..].
  - apply (StronglySorted_unique String.le); [done..|].
    apply NoDup_Permutation; [done..|].
    intros t. rewrite Hmem1, Hmem2, Hrows. done.
  - intros cat tag n.
    destruct (loaded_select rt set_order1 file)
      as (s1 & T1' & Hl1 & _ & Hsel1).
    destruct (loaded_select rt set_order2 file)
      as (s2 & T2' & Hl2 & _ & Hsel2).
    assert (s1 = self1) as -> by (destruct Hl1, Hloads1; congruence).
    assert (s2 = self2) as -> by (destruct Hl2, Hloads2; congruence).
    rewrite Hsel1, Hsel2.
    by rewrite (loads_unique _ _ _ _ _ _ _ _ Hl1 Hl2).
Qed.

Lemma load_deterministic_witness :
  ∃ self1 self2,
    __init__ sample_runtime remove_dups sample_corpus = Ok self1
    ∧ __init__ sample_runtime (reverse ∘ remove_dups) sample_corpus = Ok self2
    ∧ get_tags self1 = get_tags self2
    ∧ ∀ cat tag n,
        get_top_engaging_posts self1 cat tag n
        = get_top_engaging_posts self2 cat tag n.
Proof.
  apply load_deterministic; [apply remove_dups_order_ok|].
  intros l. unfold compose. split.
  - rewrite reverse_Permutation. apply NoDup_remove_dups.
  - intros x. by rewrite reverse_Permutation, elem_of_remove_dups.
Defined.

(** C6 fails on the code: a list of tags is stored as it is, so an entry
    that is no string stays in the record, and in what a selection
    returns. *)
Lemma tags_keep_non_strings :
  ∃ self T,
    loads sample_runtime remove_dups mixed_tags_corpus self T
    ∧ get_top_engaging_posts self "Short" "AI" 1
      = [ {[ "text" := PStr "A"; "tags" := PList [PInt 1; PStr "AI"];
             "length" := PStr "Short"; "engagement" := PInt 10 ]} ]
    ∧ ¬ tags_all_strings T.
Proof.
  eexists _, _. split; [split; [vm_compute; reflexivity|reflexivity]|].
  split; [vm_compute; reflexivity|].
  intros Hall. destruct (Hall _ (list_elem_of_here _ _)) as (tags & Htags & Hstr).
  vm_compute in Htags. injection Htags as <-.
  apply Forall_cons_1 in Hstr as [Hstr _]. discriminate Hstr.
Qed.

(** C7 fails on the code: a negative engagement is stored as it is. *)
Lemma engagement_keeps_negative :
  ∃ self T,
    loads sample_runtime remove_dups negative_engagement_corpus self T
    ∧ ¬ engagement_nonneg T.
Proof.
  eexists _, _. split; [split; [vm_compute; reflexivity|reflexivity]|].
  intros Hall. destruct (Hall _ (list_elem_of_here _ _)) as (e & He & Hpos).
  vm_compute in He. injection He as <-. lia.
Qed.

(** C6, amended: the tags field of every loaded record is a list.  When
    the load is not abandoned the table has a record for each source record:
    a source value that is a list is stored as it is, entries that are no
    strings included; any other source value (a scalar, null, a missing
    key) is stored as the empty list, and such a record passes the filter
    for no tag.  The tag index holds the string entries only. *)
Theorem tags_are_lists rt set_order file :
  set_order_ok set_order →
  ∃ self T,
    loads rt set_order file self T
    ∧ (rows T = []
       ∨ Forall2
           (λ src r,
              r !!! "tags" = stored_tags (src !!! "tags")
              ∧ (is_list (src !!! "tags") = false →
                 r !!! "tags" = PList [] ∧ ∀ cat tag, ¬ matches cat tag r))
           (rows (source_frame file)) (rows T))
    ∧ (∀ r, r ∈ rows T → ∃ tags, r !!! "tags" = PList tags)
    ∧ (∀ t, t ∈ get_tags self
            ↔ ∃ r tags, r ∈ rows T ∧ r !!! "tags" = PList tags ∧ PStr t ∈ tags).
Proof.
  intros Hset.
  destruct (loaded_tag_index rt set_order file Hset)
    as (self & T & Hloads & _ & _ & Hmem).
  destruct (init_loaded_rows rt set_order file)
    as (self' & T' & kept & Hloads' & _ & Hrows & Hkept).
  assert (T' = T) as -> by (destruct Hloads, Hloads'; congruence).
  exists self, T. split_and!; [done|..|done].
  - destruct Hkept as [->| ->]; [by left|right].
    rewrite Hrows. apply Forall2_fmap_diag. intros src Hsrc.
    assert (clean_row rt (source_frame file) src !!! "tags"
            = stored_tags (src !!! "tags")) as Htags.
    { rewrite clean_row_tags. unfold stored_tags.
      destruct (has_column (source_frame file) "tags") eqn:Hcol; [done|].
      by rewrite (source_frame_absent file src "tags"). }
    split; [done|]. intros Hscalar. rewrite Htags. unfold stored_tags.
    rewrite Hscalar. split; [done|].
    intros cat tag ((tags & Heq & Hin) & _). rewrite Htags in Heq.
    unfold stored_tags in Heq. rewrite Hscalar in Heq.
    injection Heq as <-. by apply elem_of_nil in Hin.
  - intros r Hr. rewrite Hrows in Hr.
    apply list_elem_of_fmap in Hr as (src & -> & _).
    apply clean_row_ok.
Qed.

Lemma tags_are_lists_witness :
  ∃ self T,
    loads sample_runtime remove_dups scalar_tags_corpus self T
    ∧ (rows T = []
       ∨ Forall2
           (λ src r,
              r !!! "tags" = stored_tags (src !!! "tags")
              ∧ (is_list (src !!! "tags") = false →
                 r !!! "tags" = PList [] ∧ ∀ cat tag, ¬ matches cat tag r))
           (rows (source_frame scalar_tags_corpus)) (rows T))
    ∧ (∀ r, r ∈ rows T → ∃ tags, r !!! "tags" = PList tags)
    ∧ (∀ t, t ∈ get_tags self
            ↔ ∃ r tags, r ∈ rows T ∧ r !!! "tags" = PList tags ∧ PStr t ∈ tags).
Proof. apply tags_are_lists, remove_dups_order_ok. Defined.

(** An integer below 2^53 in magnitude is a double. *)
Lemma float_of_int_small z :
  - 2 ^ 53 < z < 2 ^ 53 →
  ∃ f, float_of_int z = Some f ∧ float_trunc f = Some z.
Proof.
  intros Hz. unfold float_of_int. cbv zeta.
  assert (Z.log2 (Z.abs z) < 53) as Hlog.
  { destruct (Z.eq_dec (Z.abs z) 0) as [->|]; [done|].
    apply Z.log2_lt_pow2; lia. }
  assert (Z.max 0 (Z.log2 (Z.abs z) + 1 - 53) = 0) as -> by lia.
  rewrite Z.shiftr_0_r. cbn [Z.ltb Z.compare andb].
  rewrite Z.add_0_r.
  destruct (Z.ltb_spec 1024 (Z.log2 (Z.abs z) + 1)); [lia|].
  eexists. split; [done|]. cbn [float_trunc]. rewrite Z.shiftl_0_r, Z2N.id by lia.
  f_equal. destruct (Z.ltb_spec z 0); lia.
Qed.

Section engagement_facts.
Variable rt : runtime.

(** What the engagement block stores for a source value that reads as no
    number, and for an integer below 2^53 in magnitude. *)
Lemma engagement_step_no_number column v :
  no_number rt v →
  value_or (PInt 0) (astype_int rt (filled (numeric_cell rt column v))) = PInt 0.
Proof.
  unfold no_number, numeric_cell. intros ->.
  by destruct (column_dtype _).
Qed.

Lemma engagement_step_int column z :
  - 2 ^ 53 < z < 2 ^ 53 →
  value_or (PInt 0) (astype_int rt (filled (numeric_cell rt column (PInt z))))
  = PInt z.
Proof.
  intros Hz. unfold numeric_cell. cbn [read_cell].
  assert (z <= int64_max) as Hmax by (unfold int64_max; lia).
  assert (int64_min <= z) as Hmin by (unfold int64_min; lia).
  destruct (column_dtype _); cbn [convert value_or filled isna astype_int];
    try (by destruct (Z.leb_spec z int64_max); [|lia]).
  destruct (float_of_int_small z Hz) as (f & -> & Hf).
  cbn [value_or filled isna astype_int]. rewrite Hf. cbn [value_or].
  destruct (Z.leb_spec int64_min z); [|lia].
  by destruct (Z.leb_spec z int64_max); [|lia].
Qed.
End engagement_facts.

(** C7, amended: the engagement field of every loaded record is an
    integer, which can be negative.  When the load is not abandoned the
    table has a record for each source record: a source value that is
    absent, null or not numeric is stored as 0, and a source integer below
    2^53 in magnitude is stored as it is, a negative one too. *)
Theorem engagement_is_integer rt set_order file :
  ∃ self T,
    loads rt set_order file self T
    ∧ (∀ r, r ∈ rows T → ∃ e, r !!! "engagement" = PInt e)
    ∧ (rows T = []
       ∨ Forall2
           (λ src r,
              (no_number rt (src !!! "engagement") → r !!! "engagement" = PInt 0)
              ∧ (∀ z, src !!! "engagement" = PInt z → - 2 ^ 53 < z < 2 ^ 53 →
                   r !!! "engagement" = PInt z))
           (rows (source_frame file)) (rows T))
    ∧ no_number rt PNaN
    ∧ no_number rt PNone
    ∧ (∀ l, no_number rt (PList l))
    ∧ (∀ items, no_number rt (PDict items))
    ∧ (∀ s, read_number rt s = None → no_number rt (PStr s)).
Proof.
  destruct (init_loaded_rows rt set_order file)
    as (self & T & kept & Hloads & _ & Hrows & Hkept).
  exists self, T. split_and!; try done.
  - intros r Hr. rewrite Hrows in Hr.
    apply list_elem_of_fmap in Hr as (src & -> & _).
    apply clean_row_ok.
  - destruct Hkept as [->| ->]; [by left|right].
    rewrite Hrows. apply Forall2_fmap_diag. intros src Hsrc.
    rewrite (lookup_total_alt (clean_row rt (source_frame file) src)),
      clean_row_engagement.
    cbn [default].
    destruct (has_column (source_frame file) "engagement") eqn:Hcol.
    + split.
      * apply engagement_step_no_number.
      * intros z -> Hz. by apply engagement_step_int.
    + rewrite (source_frame_absent file src "engagement") by done.
      split; [done|]. by intros z.
  - intros s Hs. unfold no_number. cbn [read_cell]. by rewrite Hs.
Qed.

Lemma engagement_is_integer_witness :
  ∃ self T,
    loads sample_runtime remove_dups negative_engagement_corpus self T
    ∧ (∀ r, r ∈ rows T → ∃ e, r !!! "engagement" = PInt e)
    ∧ (rows T = []
       ∨ Forall2
           (λ src r,
              (no_number sample_runtime (src !!! "engagement") →
               r !!! "engagement" = PInt 0)
              ∧ (∀ z, src !!! "engagement" = PInt z → - 2 ^ 53 < z < 2 ^ 53 →
                   r !!! "engagement" = PInt z))
           (rows (source_frame negative_engagement_corpus)) (rows T))
    ∧ no_number sample_runtime PNaN
    ∧ no_number sample_runtime PNone
    ∧ (∀ l, no_number sample_runtime (PList l))
    ∧ (∀ items, no_number sample_runtime (PDict items))
    ∧ (∀ s, read_number sample_runtime s = None → no_number sample_runtime (PStr s)).
Proof. apply engagement_is_integer. Defined.

(** ** The scenarios of the specification, evaluated *)

Example sample_short :
  (λ self, get_top_engaging_posts self "Short" "AI" 2)
    <$> __init__ sample_runtime remove_dups sample_corpus
  = Ok [ {[ "text" := PStr "B"; "tags" := PList [PStr "AI"];
            "length" := PStr "Short"; "engagement" := PInt 50 ]};
         {[ "text" := PStr "A"; "tags" := PList [PStr "AI"];
            "length" := PStr "Short"; "engagement" := PInt 10 ]} ].
Proof. vm_compute. reflexivity. Qed.

Example sample_medium :
  (λ self, get_top_engaging_posts self "Medium" "AI" 2)
    <$> __init__ sample_runtime remove_dups sample_corpus
  = Ok [].
Proof. vm_compute. reflexivity. Qed.

Example sample_tags :
  get_tags <$> __init__ sample_runtime remove_dups sample_corpus = Ok ["AI"].
Proof. vm_compute. reflexivity. Qed.

Example scalar_tags_excluded :
  (λ self, get_top_engaging_posts self "Short" "AI" 2)
    <$> __init__ sample_runtime remove_dups scalar_tags_corpus
  = Ok [ {[ "text" := PStr "B"; "tags" := PList [PStr "AI"];
            "length" := PStr "Short"; "engagement" := PInt 50 ]} ].
Proof. vm_compute. reflexivity. Qed.

Example sample_negative_n :
  (λ self, get_top_engaging_posts self "Short" "AI" (-1))
    <$> __init__ sample_runtime remove_dups sample_corpus
  = Ok [ {[ "text" := PStr "B"; "tags" := PList [PStr "AI"];
            "length" := PStr "Short"; "engagement" := PInt 50 ]} ].
Proof. vm_compute. reflexivity. Qed.

(** An infinite engagement makes [astype(int)] raise: [load_posts]
    raises, and [__init__] leaves the empty table and no tags. *)
Example infinite_engagement_abandoned :
  raises (load_posts sample_runtime remove_dups (mkFewShotPosts None [])
            infinite_engagement_corpus) = true
  ∧ (λ self, (loaded_column self "text", get_tags self))
      <$> __init__ sample_runtime remove_dups infinite_engagement_corpus
    = Ok ([], []).
Proof. split; vm_compute; reflexivity. Qed.

(** Beside a missing value the engagement column is float64: 2^53 + 1
    is rounded to 2^53, the missing value becomes 0, 64.5 loses its
    fraction, and the str "12" reads as 12. *)
Example mixed_engagement_stored :
  (λ self, loaded_column self "engagement")
    <$> __init__ sample_runtime remove_dups mixed_engagement_corpus
  = Ok [PInt 9007199254740992; PInt 0; PInt 64; PInt 12].
Proof. vm_compute. reflexivity. Qed.

(** The line count 10.5 is stored as it is and classified Medium. *)
Example fractional_line_count_medium :
  (λ self, (loaded_column self "line_count", loaded_column self "length"))
    <$> __init__ sample_runtime remove_dups fractional_line_count_corpus
  = Ok ([PFloat (Finite false 21 (-1))], [PStr "Medium"]).
Proof. vm_compute. reflexivity. Qed.

(** ** More on the selector *)

Lemma exposed_dom r :
  dom (exposed r) = ({[ "text"; "tags"; "length"; "engagement" ]} : gset string).
Proof.
  unfold exposed. rewrite dom_list_to_map_L. cbn [fmap list_fmap fst].
  rewrite !list_to_set_cons, list_to_set_nil. set_solver.
Qed.

Lemma get_filtered_posts_exposed self cat tag :
  ∃ rs, get_filtered_posts self cat tag = exposed <$> rs.
Proof.
  unfold get_filtered_posts. destruct (df self) as [d|]; [|by exists []].
  destruct (df_empty d); [by exists []|].
  destruct (negb _); [by exists []|]. by eexists.
Qed.

(** X1: whatever the object, a record that [get_filtered_posts] or
    [get_top_engaging_posts] returns has the four keys text, tags, length
    and engagement, and no other. *)
Theorem returned_keys self cat tag n :
  Forall (λ x : row, dom x = ({[ "text"; "tags"; "length"; "engagement" ]} : gset string))
    (get_filtered_posts self cat tag)
  ∧ Forall (λ x : row, dom x = ({[ "text"; "tags"; "length"; "engagement" ]} : gset string))
      (get_top_engaging_posts self cat tag n).
Proof.
  assert (Forall (λ x : row, dom x = ({[ "text"; "tags"; "length"; "engagement" ]} : gset string))
            (get_filtered_posts self cat tag)) as Hfiltered.
  { destruct (get_filtered_posts_exposed self cat tag) as [rs ->].
    apply Forall_fmap, Forall_forall. intros r _. apply exposed_dom. }
  split; [done|].
  rewrite get_top_engaging_posts_eq.
  rewrite Forall_forall in Hfiltered. apply Forall_forall. intros x Hx.
  apply Hfiltered.
  apply (prefix_elem_of _ _ _ (slice_to_prefix _ _)) in Hx.
  by rewrite sorted_Permutation in Hx.
Qed.

(** X2: whatever the object, the top [n] for [n] at least 0 are the first
    [n] records of the top [m] for any larger [m]; there are as many of
    them as [get_filtered_posts] has records, up to [n]; and from [m] at
    least that count on the result is a reordering of what
    [get_filtered_posts] returns. *)
Theorem top_is_prefix self cat tag n m :
  0 ≤ n ≤ m →
  get_top_engaging_posts self cat tag n
    = take (Z.to_nat n) (get_top_engaging_posts self cat tag m)
  ∧ length (get_top_engaging_posts self cat tag n)
    = Nat.min (Z.to_nat n) (length (get_filtered_posts self cat tag))
  ∧ (Z.of_nat (length (get_filtered_posts self cat tag)) ≤ m →
     get_top_engaging_posts self cat tag m ≡ₚ get_filtered_posts self cat tag).
Proof.
  intros Hnm. rewrite !get_top_engaging_posts_eq.
  rewrite !slice_to_nonneg by lia. split_and!.
  - rewrite take_take. f_equal. lia.
  - by rewrite length_take, sorted_length.
  - intros Hm. rewrite take_ge; [apply sorted_Permutation|].
    rewrite sorted_length. lia.
Qed.

Lemma top_is_prefix_witness :
  get_top_engaging_posts sample_object "Short" "AI" 1
    = take (Z.to_nat 1) (get_top_engaging_posts sample_object "Short" "AI" 2)
  ∧ length (get_top_engaging_posts sample_object "Short" "AI" 1)
    = Nat.min (Z.to_nat 1) (length (get_filtered_posts sample_object "Short" "AI"))
  ∧ (Z.of_nat (length (get_filtered_posts sample_object "Short" "AI")) ≤ 2 →
     get_top_engaging_posts sample_object "Short" "AI" 2
     ≡ₚ get_filtered_posts sample_object "Short" "AI").
Proof. apply top_is_prefix. lia. Defined.

Section more_loaded.
Variable rt : runtime.
Variable set_order : list string → list string.

(** On the records of a loaded table the masks of [get_filtered_posts]
    decide [matches]. *)
Lemma loaded_passes file :
  ∃ self T,
    loads rt set_order file self T
    ∧ Forall (λ c, has_column T c = true) schema
    ∧ ∀ cat tag r, r ∈ rows T → passes cat tag r ↔ matches cat tag r.
Proof.
  destruct (init_loaded_rows rt set_order file)
    as (self & T & kept & Hloads & Hcols & Hrows & _).
  exists self, T. split_and!; [done..|]. intros cat tag r Hr.
  rewrite Hrows in Hr. apply list_elem_of_fmap in Hr as (src & -> & _).
  rewrite passes_matchesb by apply clean_row_length.
  rewrite <-matchesb_spec. by destruct (matchesb cat tag _).
Qed.

Lemma clean_row_text raw r :
  clean_row rt raw r !!! "text"
  = if has_column raw "text" then r !!! "text" else PStr "".
Proof.
  unfold clean_row. rewrite lookup_engagement_step by done.
  unfold text_step. destruct (has_column raw "text").
  - by rewrite lookup_language_step, lookup_tags_step, lookup_length_step.
  - by rewrite lookup_total_insert_eq.
Qed.
End more_loaded.

(** X3: on a loaded table [get_filtered_posts] returns the records that
    pass the filter in the order of the table, one for each occurrence. *)
Theorem filtered_in_table_order rt set_order file :
  ∃ self T,
    loads rt set_order file self T
    ∧ ∀ cat tag,
        get_filtered_posts self cat tag
        = exposed <$> filter (matches cat tag) (rows T).
Proof.
  destruct (loaded_passes rt set_order file)
    as (self & T & Hloads & Hcols & Hpasses).
  exists self, T. split; [done|]. intros cat tag.
  rewrite (get_filtered_posts_rows self T); [|apply Hloads|done].
  f_equal. apply filter_ext_elem_of. intros r Hr. by apply Hpasses.
Qed.

(** X4: a tag that the tag index does not list selects nothing, for any
    length and any [n]. *)
Theorem unlisted_tag_selects_nothing rt set_order file tag :
  set_order_ok set_order →
  ∃ self T,
    loads rt set_order file self T
    ∧ (tag ∉ get_tags self →
       ∀ cat n,
         get_filtered_posts self cat tag = []
         ∧ get_top_engaging_posts self cat tag n = []).
Proof.
  intros Hset.
  destruct (loaded_tag_index rt set_order file Hset)
    as (self & T & Hloads & _ & _ & Hmem).
  destruct (loaded_passes rt set_order file)
    as (self' & T' & Hloads' & Hcols & Hpasses).
  assert (self' = self) as -> by (destruct Hloads, Hloads'; congruence).
  assert (T' = T) as -> by (destruct Hloads, Hloads'; congruence).
  exists self, T. split; [done|]. intros Htag cat n.
  assert (get_filtered_posts self cat tag = []) as Hnone.
  { rewrite (get_filtered_posts_rows self T); [|apply Hloads|done].
    destruct (filter _ (rows T)) as [|r rs] eqn:Hf; [done|].
    assert (r ∈ filter (λ r, passes cat tag r) (rows T)) as Hr
      by (rewrite Hf; left).
    apply list_elem_of_filter in Hr as [Hp Hr].
    apply Hpasses in Hp as ((tags & Htags & Hin) & _); [|done].
    destruct Htag. apply Hmem. by exists r, tags. }
  split; [done|].
  rewrite get_top_engaging_posts_eq, Hnone. apply slice_to_nil.
Qed.

Lemma unlisted_tag_selects_nothing_witness :
  ∃ self T,
    loads sample_runtime remove_dups sample_corpus self T
    ∧ ("ML" ∉ get_tags self →
       ∀ cat n,
         get_filtered_posts self cat "ML" = []
         ∧ get_top_engaging_posts self cat "ML" n = []).
Proof. apply unlisted_tag_selects_nothing, remove_dups_order_ok. Defined.

(** ** More on the loader *)

(** X5: every loaded table has the six columns of the schema, whatever
    the file holds. *)
Theorem loaded_schema rt set_order file :
  ∃ self T,
    loads rt set_order file self T
    ∧ ∀ c, c ∈ ["text"; "line_count"; "tags"; "language"; "length"; "engagement"] →
           c ∈ columns T.
Proof.
  destruct (init_loaded rt set_order file)
    as (self & T & Hloads & Hcols & _).
  exists self, T. split; [done|]. intros c Hc.
  rewrite Forall_forall in Hcols. specialize (Hcols c Hc).
  by apply bool_decide_eq_true in Hcols.
Qed.

(** X6: no loaded record is without a language.  When the load is not
    abandoned the table has a record for each source record: a source
    record without language (no key, null or NaN) gets "English", and a
    language that is a str is kept as it is. *)
Theorem language_defaults rt set_order file :
  ∃ self T,
    loads rt set_order file self T
    ∧ (∀ r, r ∈ rows T → isna (r !!! "language") = false)
    ∧ (rows T = []
       ∨ Forall2
           (λ src r,
              (isna (src !!! "language") = true →
               r !!! "language" = PStr "English")
              ∧ (∀ s, src !!! "language" = PStr s → r !!! "language" = PStr s))
           (rows (source_frame file)) (rows T)).
Proof.
  destruct (init_loaded_rows rt set_order file)
    as (self & T & kept & Hloads & _ & Hrows & Hkept).
  exists self, T. split_and!; [done|..].
  - intros r Hr. rewrite Hrows in Hr.
    apply list_elem_of_fmap in Hr as (src & -> & _).
    apply clean_row_ok.
  - destruct Hkept as [->| ->]; [by left|right].
    rewrite Hrows. apply Forall2_fmap_diag. intros src Hsrc.
    rewrite clean_row_language.
    destruct (has_column (source_frame file) "language") eqn:Hcol.
    + split; [by intros ->|]. by intros s ->.
    + rewrite (source_frame_absent file src "language") by done.
      split; [done|]. by intros s.
Qed.

(** X7: when the load is not abandoned the table has a record for each
    source record, and a text that is a str is kept as it is.  A record
    without text gets the empty string only when no record of the file has
    a text; otherwise its text stays NaN. *)
Theorem text_kept rt set_order file :
  ∃ self T,
    loads rt set_order file self T
    ∧ (rows T = []
       ∨ Forall2
           (λ src r,
              (∀ s, src !! "text" = Some (PStr s) → r !!! "text" = PStr s)
              ∧ (src !! "text" = None →
                 r !!! "text"
                 = if has_column (source_frame file) "text" then PNaN
                   else PStr ""))
           (rows (source_frame file)) (rows T)).
Proof.
  destruct (init_loaded_rows rt set_order file)
    as (self & T & kept & Hloads & _ & Hrows & Hkept).
  exists self, T. split; [done|].
  destruct Hkept as [->| ->]; [by left|right].
  rewrite Hrows. apply Forall2_fmap_diag. intros src Hsrc.
  rewrite clean_row_text. split.
  - intros s Htext. rewrite (source_frame_columns file src "text") by done.
    by rewrite lookup_total_alt, Htext.
  - intros Hnone. destruct (has_column _ _); [|done].
    by rewrite lookup_total_alt, Hnone.
Qed.

(** *** When the load goes through *)

(** An integer whose magnitude is below 2^960 rounds to a double. *)
Lemma float_of_int_Some z : Z.log2 (Z.abs z) < 960 → is_Some (float_of_int z).
Proof.
  intros Hlog. unfold float_of_int. cbv zeta.
  set (a := Z.abs z) in *. set (k := Z.max 0 (Z.log2 a + 1 - 53)).
  assert (0 ≤ a) as Ha by (unfold a; lia).
  pose proof (Z.log2_nonneg a) as Hlog0.
  assert (Z.shiftr a k < 2 ^ 53) as Hq.
  { rewrite Z.shiftr_div_pow2 by lia.
    apply Z.div_lt_upper_bound; [apply Z.pow_pos_nonneg; lia|].
    rewrite <-Z.pow_add_r by lia.
    destruct (Z.eq_dec a 0) as [->|Hne]; [apply Z.pow_pos_nonneg; lia|].
    destruct (Z.log2_spec a) as [_ Hup]; [lia|].
    eapply Z.lt_le_trans; [exact Hup|]. apply Z.pow_le_mono_r; lia. }
  match goal with
  | |- is_Some (if 1024 <? Z.log2 ?q + 1 + _ then _ else _) => set (q' := q)
  end.
  assert (q' ≤ 2 ^ 53) as Hq'.
  { unfold q'. destruct (_ && _); lia. }
  assert (Z.log2 q' ≤ 53) as Hlq.
  { etrans; [apply Z.log2_le_mono, Hq'|]. by rewrite Z.log2_pow2. }
  destruct (Z.ltb_spec 1024 (Z.log2 q' + 1 + k)); [lia|]. by eexists.
Qed.

Lemma float_of_int_int64 z : int64_min ≤ z ≤ int64_max → is_Some (float_of_int z).
Proof.
  intros Hz. apply float_of_int_Some.
  assert (Z.log2 (Z.abs z) ≤ Z.log2 (2 ^ 63)) as Hlog.
  { apply Z.log2_le_mono. unfold int64_min, int64_max in Hz. lia. }
  rewrite Z.log2_pow2 in Hlog by lia. lia.
Qed.

(** Rounding an integer to a double keeps its length category. *)
Lemma float_of_int_category z f :
  float_of_int z = Some f →
  ∃ z', float_trunc f = Some z' ∧ count_category z' = count_category z.
Proof.
  intros Hf.
  destruct (decide (- 2 ^ 53 < z < 2 ^ 53)) as [Hsmall|Hlarge].
  { destruct (float_of_int_small z Hsmall) as (f' & Hf' & Htrunc).
    exists z. split; [congruence|done]. }
  revert Hf. unfold float_of_int. cbv zeta.
  set (a := Z.abs z). set (k := Z.max 0 (Z.log2 a + 1 - 53)).
  assert (2 ^ 53 ≤ a) as Ha by (unfold a; lia).
  assert (53 ≤ Z.log2 a) as Hlog.
  { rewrite <-(Z.log2_pow2 53) by lia. by apply Z.log2_le_mono. }
  assert (k = Z.log2 a - 52) as Hk by (unfold k; lia).
  assert (2 ^ 52 ≤ Z.shiftr a k) as Hq.
  { rewrite Z.shiftr_div_pow2 by lia.
    apply Z.div_le_lower_bound; [apply Z.pow_pos_nonneg; lia|].
    rewrite <-Z.pow_add_r by lia.
    destruct (Z.log2_spec a) as [Hlow _]; [lia|].
    replace (k + 52) with (Z.log2 a) by lia. exact Hlow. }
  match goal with
  | |- (if 1024 <? Z.log2 ?q + 1 + _ then _ else _) = _ → _ => set (q' := q)
  end.
  assert (2 ^ 52 ≤ q') as Hq'.
  { unfold q'. destruct (_ && _); lia. }
  destruct (1024 <? _); [done|]. intros [= <-].
  cbn [float_trunc]. rewrite Z2N.id, Z.shiftl_mul_pow2 by lia.
  assert (2 ^ 1 ≤ 2 ^ k) as Hpow by (apply Z.pow_le_mono_r; lia).
  assert (11 ≤ q' * 2 ^ k) as Hmag by nia.
  eexists. split; [done|].
  destruct (Z.ltb_spec z 0).
  - transitivity "Short"; [|symmetry]; apply count_category_Short; lia.
  - transitivity "Long"; [|symmetry]; apply count_category_Long; lia.
Qed.

Section load_goes_through.
Variable rt : runtime.
Implicit Types (raw : DataFrame) (r : row) (v : pyval).

(** The cell of a harmless source value, in a column of any dtype. *)
Lemma harmless_convert dt v :
  harmless rt v = true →
  ∃ cell,
    convert dt (read_cell rt v) = Ok cell
    ∧ raises (categorize_length rt cell) = false
    ∧ raises (astype_int rt (filled cell)) = false.
Proof.
  unfold harmless. destruct (read_cell rt v) as [|b|z|[negative m e|negative]].
  - intros _. exists PNaN. by destruct dt.
  - intros _. destruct dt; eexists; (split; [done|]); by rewrite categorize_length_read.
  - intros [Hmin Hmax]%andb_true_iff.
    apply Z.leb_le in Hmin. apply Z.leb_le in Hmax.
    destruct (float_of_int_int64 z) as [f Hf]; [done|].
    assert (∃ z', float_trunc f = Some z') as [z' Hz'].
    { destruct (float_of_int_category z f Hf) as (z' & Hz' & _). by exists z'. }
    destruct dt; cbn [convert]; rewrite ?Hf; eexists; (split; [done|]);
      rewrite categorize_length_read; cbn [read_count filled isna astype_int];
      by rewrite ?Hz'.
  - intros _. exists (PFloat (Finite negative m e)).
    split; [by destruct dt|]. by rewrite categorize_length_read.
  - done.
Qed.

(** The load is not abandoned when the line count and the engagement of
    every source record are harmless. *)
Lemma load_goes_through raw :
  Forall (λ r, harmless rt (r !!! "line_count") = true
               ∧ harmless rt (r !!! "engagement") = true) (rows raw) →
  load_fails rt raw = false.
Proof.
  rewrite Forall_forall. intros Hrows. unfold load_fails.
  apply orb_false_iff. split; apply existsb_false_elem_of; intros r Hr;
    destruct (Hrows r Hr) as [Hlc Heng].
  - unfold line_count_fails, numeric_fails, numeric_cell.
    destruct (harmless_convert
      (column_dtype (read_cell rt <$> get_column raw "line_count")) _ Hlc)
      as (cell & Hcell & Hcat & _).
    rewrite Hcell. cbn [raises value_or orb]. rewrite Hcat. apply andb_false_r.
  - unfold engagement_fails, numeric_fails, numeric_cell.
    destruct (harmless_convert
      (column_dtype (read_cell rt <$> get_column raw "engagement")) _ Heng)
      as (cell & Hcell & _ & Hcast).
    rewrite Hcell. cbn [raises value_or orb]. rewrite Hcast. apply andb_false_r.
Qed.
End load_goes_through.

(** X8: loading an array of JSON objects keeps every object, in order,
    unless the load is abandoned: the table then has one record for each,
    with the tags of the object that are a list, and with its text and its
    language where they are strs.  The load is not abandoned when the
    line count and the engagement of every source record are harmless. *)
Theorem every_object_loaded rt set_order l :
  Forall (λ v, is_dict v = true) l →
  ∃ self T,
    loads rt set_order (Readable (Document (PList l))) self T
    ∧ (rows T = []
       ∨ length (rows T) = length l
         ∧ Forall2
             (λ v r,
                ∃ items, v = PDict items
                  ∧ r !!! "tags"
                    = stored_tags (normalise_json_ordered items !!! "tags")
                  ∧ (∀ s, normalise_json_ordered items !!! "text" = PStr s →
                          r !!! "text" = PStr s)
                  ∧ (∀ s, normalise_json_ordered items !!! "language" = PStr s →
                          r !!! "language" = PStr s))
             l (rows T))
    ∧ (Forall (λ src, harmless rt (src !!! "line_count") = true
                      ∧ harmless rt (src !!! "engagement") = true)
         (rows (source_frame (Readable (Document (PList l))))) →
       length (rows T) = length l).
Proof.
  intros Hobj.
  set (file := Readable (Document (PList l))).
  destruct (init_loaded rt set_order file) as (self & T & Hloads & _ & Hrows).
  exists self, T. split; [done|].
  assert (length (rows (source_frame file)) = length l) as Hlen.
  { destruct l as [|v l']; [done|]. unfold file.
    by rewrite source_frame_objects, length_fmap. }
  split.
  - destruct (load_fails rt _); destruct Hrows as [Hrows _]; [by left|].
    destruct l as [|v0 l0]; [by left|right].
    set (l := v0 :: l0) in *.
    assert (rows (source_frame file)
            = (λ v, match v with
                    | PDict items => normalise_json_ordered items
                    | _ => ∅
                    end) <$> l) as Hsrc by by apply source_frame_objects.
    split; [by rewrite Hrows, length_fmap|].
    rewrite Hrows, Hsrc, <-list_fmap_compose.
    apply Forall2_fmap_diag. intros v Hv.
    rewrite Forall_forall in Hobj. specialize (Hobj v Hv).
    destruct v as [| | | | | | | |items]; try done.
    exists items. split; [done|]. unfold compose.
    set (src := normalise_json_ordered items).
    assert (src ∈ rows (source_frame file)) as Hin.
    { rewrite Hsrc. apply list_elem_of_fmap. by exists (PDict items). }
    split_and!.
    + rewrite clean_row_tags. unfold stored_tags.
      destruct (has_column (source_frame file) "tags") eqn:Hcol; [done|].
      by rewrite (source_frame_absent file src "tags").
    + intros s Hs. rewrite clean_row_text.
      rewrite (source_frame_present file src "text") by (by rewrite ?Hs). done.
    + intros s Hs. rewrite clean_row_language.
      rewrite (source_frame_present file src "language") by (by rewrite ?Hs).
      by rewrite Hs.
  - intros Hharmless. rewrite (load_goes_through rt _ Hharmless) in Hrows.
    destruct Hrows as [-> _]. by rewrite length_fmap.
Qed.

Lemma every_object_loaded_witness :
  ∃ self T,
    loads sample_runtime remove_dups
      (Readable (Document (PList [post "A" 3 (PList [PStr "AI"]) (PInt 10)]))) self T
    ∧ (rows T = []
       ∨ length (rows T) = length [post "A" 3 (PList [PStr "AI"]) (PInt 10)]
         ∧ Forall2
             (λ v r,
                ∃ items, v = PDict items
                  ∧ r !!! "tags"
                    = stored_tags (normalise_json_ordered items !!! "tags")
                  ∧ (∀ s, normalise_json_ordered items !!! "text" = PStr s →
                          r !!! "text" = PStr s)
                  ∧ (∀ s, normalise_json_ordered items !!! "language" = PStr s →
                          r !!! "language" = PStr s))
             [post "A" 3 (PList [PStr "AI"]) (PInt 10)] (rows T))
    ∧ (Forall (λ src, harmless sample_runtime (src !!! "line_count") = true
                      ∧ harmless sample_runtime (src !!! "engagement") = true)
         (rows (source_frame (Readable (Document
            (PList [post "A" 3 (PList [PStr "AI"]) (PInt 10)]))))) →
       length (rows T) = length [post "A" 3 (PList [PStr "AI"]) (PInt 10)]).
Proof. apply every_object_loaded. by repeat constructor. Defined.

(** ** Corpora of conforming objects *)

(** The cell of an int or a bool keeps its length category, whatever the
    dtype of the column. *)
Lemma convert_count dt v cell rt :
  is_int v = true →
  convert dt (read_cell rt v) = Ok cell →
  derived_length cell = count_category (int_value v).
Proof.
  destruct v as [| | |b|z|f|s|l|items]; try done; intros _;
    cbn [read_cell int_value].
  - destruct dt; cbn [convert]; intros [= <-]; try done. by destruct b.
  - destruct dt; cbn [convert]; try (by intros [= <-]).
    destruct (float_of_int z) as [f|] eqn:Hf; [|done]. intros [= <-].
    destruct (float_of_int_category z f Hf) as (z' & Hz' & Hcat).
    cbn [derived_length]. by rewrite Hz'.
Qed.

(** The records the loader makes of conforming objects, when the load is
    not abandoned. *)
Lemma conforming_rows rt l :
  Forall (λ v, ∃ line_count tags, conforming v line_count tags) l →
  load_fails rt (source_frame (Readable (Document (PList l)))) = false →
  Forall2
    (λ v r,
       ∀ line_count tags, conforming v line_count tags →
         r !!! "tags" = PList (PStr <$> tags)
         ∧ r !!! "length" = PStr (count_category line_count)
         ∧ r !!! "length" ≠ PStr "Unknown")
    l
    (clean_row rt (source_frame (Readable (Document (PList l))))
       <$> rows (source_frame (Readable (Document (PList l))))).
Proof.
  intros Hconf Hgoes.
  set (file := Readable (Document (PList l))) in *.
  assert (Forall (λ v, is_dict v = true) l) as Hobj.
  { eapply Forall_impl; [exact Hconf|].
    by intros v (line_count & tags & items & lc & -> & _). }
  destruct l as [|v0 l0]; [constructor|].
  set (l := v0 :: l0) in *.
  assert (Hsrc : rows (source_frame file)
          = (λ v, match v with
                  | PDict items => normalise_json_ordered items
                  | _ => ∅
                  end) <$> l).
  { by apply source_frame_objects. }
  rewrite Hsrc, <-list_fmap_compose. apply Forall2_fmap_diag.
  intros v Hv line_count tags
    (items & lc & -> & Hnd & Hflat & Hlc & Hint & Hval & Hpos & Htags).
  unfold compose. rewrite normalise_json_ordered_flat by done.
  set (src := dict_of_items items).
  assert (src ∈ rows (source_frame file)) as Hin.
  { rewrite Hsrc. apply list_elem_of_fmap. exists (PDict items).
    split; [|done]. by rewrite normalise_json_ordered_flat. }
  assert (src !!! "tags" = PList (PStr <$> tags)) as Hstags
    by by apply dict_of_items_lookup.
  assert (src !!! "line_count" = lc) as Hslc
    by by apply dict_of_items_lookup.
  assert (∀ c v, src !!! c = v → v ≠ PNaN →
            has_column (source_frame file) c = true) as Hcol.
  { intros c v Hc Hv'. apply (source_frame_columns file src c); [done|].
    rewrite lookup_total_alt in Hc. destruct (src !! c); [done|].
    by destruct Hv'. }
  assert (has_column (source_frame file) "line_count" = true) as Hcol_lc.
  { apply (Hcol "line_count" _ Hslc). by destruct lc. }
  assert (numeric_fails rt (get_column (source_frame file) "line_count") lc = false)
    as Hnum.
  { unfold load_fails in Hgoes. apply orb_false_iff in Hgoes as [Hgoes _].
    rewrite existsb_false_elem_of in Hgoes. specialize (Hgoes src Hin).
    unfold line_count_fails in Hgoes. rewrite Hcol_lc, Hslc in Hgoes.
    by apply orb_false_iff in Hgoes as [Hgoes _]. }
  assert (clean_row rt (source_frame file) src !!! "length"
          = PStr (count_category line_count)) as Hlength.
  { rewrite clean_row_length, clean_row_line_count, Hcol_lc, Hslc.
    f_equal. rewrite <-Hval. unfold numeric_cell. unfold numeric_fails in Hnum.
    eapply convert_count; [exact Hint|]. by apply raises_false. }
  rewrite Hlength, clean_row_tags.
  rewrite (Hcol "tags" _ Hstags) by done.
  rewrite Hstags. cbn [andb is_list].
  split_and!; [done..|].
  intros [= Hunknown]. by apply count_category_known in Hunknown.
Qed.

(** X9: in a corpus of conforming objects every loaded record keeps its
    tags, which are all strings, and its length is Short, Medium or Long
    by the line count of its object, never Unknown.  Unless the load is
    abandoned, the table has a record for each object. *)
Theorem conforming_corpus rt set_order l :
  Forall (λ v, ∃ line_count tags, conforming v line_count tags) l →
  ∃ self T,
    loads rt set_order (Readable (Document (PList l))) self T
    ∧ (rows T = []
       ∨ Forall2
           (λ v r,
              ∀ line_count tags, conforming v line_count tags →
                r !!! "tags" = PList (PStr <$> tags)
                ∧ r !!! "length" = PStr (count_category line_count)
                ∧ r !!! "length" ≠ PStr "Unknown")
           l (rows T))
    ∧ tags_all_strings T.
Proof.
  intros Hconf.
  destruct (init_loaded rt set_order (Readable (Document (PList l))))
    as (self & T & Hloads & _ & Hrows).
  exists self, T. split; [done|].
  destruct (load_fails rt _) eqn:Hgoes; destruct Hrows as [Hrows _].
  { split; [by left|]. intros r Hr. rewrite Hrows in Hr.
    by apply elem_of_nil in Hr. }
  pose proof (conforming_rows rt l Hconf Hgoes) as Hrec.
  rewrite <-Hrows in Hrec.
  split; [by right|].
  intros r Hr. apply list_elem_of_lookup in Hr as [i Hi].
  destruct (Forall2_lookup_r _ _ _ _ _ Hrec Hi) as (v & Hv & Hvr).
  rewrite Forall_forall in Hconf.
  destruct (Hconf v) as (line_count & tags & Hc);
    [by eapply list_elem_of_lookup_2|].
  destruct (Hvr _ _ Hc) as (-> & _). eexists. split; [done|].
  apply Forall_fmap, Forall_forall. by intros t _.
Qed.

Lemma conforming_corpus_witness :
  ∃ self T,
    loads sample_runtime remove_dups
      (Readable (Document (PList [post "A" 3 (PList (PStr <$> ["AI"])) (PInt 10)])))
      self T
    ∧ (rows T = []
       ∨ Forall2
           (λ v r,
              ∀ line_count tags, conforming v line_count tags →
                r !!! "tags" = PList (PStr <$> tags)
                ∧ r !!! "length" = PStr (count_category line_count)
                ∧ r !!! "length" ≠ PStr "Unknown")
           [post "A" 3 (PList (PStr <$> ["AI"])) (PInt 10)] (rows T))
    ∧ tags_all_strings T.
Proof.
  apply conforming_corpus. repeat constructor.
  exists 3, ["AI"]. eexists _, (PInt 3). split; [reflexivity|].
  split; [apply (bool_decide_unpack _); vm_compute; exact I|].
  split; [by repeat constructor|].
  split; [set_solver|]. split; [done|]. split; [done|]. split; [lia|set_solver].
Defined.

(** ** The prompt *)

Lemma string_app_assoc (a b c : string) : (a +:+ b) +:+ c = a +:+ b +:+ c.
Proof.
  induction a as [|x a IH]; [done|].
  change (String.String x ((a +:+ b) +:+ c) = String.String x (a +:+ b +:+ c)).
  by rewrite IH.
Qed.

(** X10: the length description the prompt carries for the category the
    classifier gives a line count: "1 to 4 lines" stands for every count
    up to 4 (0 and negative counts too), "5 to 10 lines" for 5 to 10,
    "11 lines or more" from 11 on, and "any length" for what stands for no
    count.  The count is the integer [int()] makes of the argument. *)
Theorem length_description (rt : runtime) (c : pyval) :
  (get_length_str <$> categorize_length rt c = Ok "1 to 4 lines"
   ↔ ∃ z, read_count rt c = Count z ∧ z ≤ 4)
  ∧ (get_length_str <$> categorize_length rt c = Ok "5 to 10 lines"
     ↔ ∃ z, read_count rt c = Count z ∧ 5 ≤ z ≤ 10)
  ∧ (get_length_str <$> categorize_length rt c = Ok "11 lines or more"
     ↔ ∃ z, read_count rt c = Count z ∧ 11 ≤ z)
  ∧ (get_length_str <$> categorize_length rt c = Ok "any length"
     ↔ read_count rt c = NoCount).
Proof.
  rewrite categorize_length_read.
  destruct (read_count rt c) as [z| |e]; cbn [fmap result_fmap].
  - unfold count_category.
    destruct (Z.ltb_spec z 5); [|destruct (Z.leb_spec 5 z); [|lia];
      destruct (Z.leb_spec z 10)]; cbn [andb];
      (repeat split; try done; try (intros (? & [= <-] & ?); lia); eauto with lia).
  - repeat split; try done; by intros (? & ? & ?).
  - repeat split; try done; by intros (? & ? & ?).
Qed.

Section prompt_facts.
Variable random_choice : list string → string.
Variable py_str : pyval → string.
Implicit Types (l : list row) (x : row).

Lemma get_prompt_take length tag style l :
  get_prompt random_choice py_str length tag style (Some l)
  = get_prompt random_choice py_str length tag style (Some (take 2 l)).
Proof. by destruct l as [|x [|y l]]. Qed.

Lemma take_top self cat tag n :
  2 ≤ n →
  take 2 (get_top_engaging_posts self cat tag n)
  = get_top_engaging_posts self cat tag 2.
Proof.
  intros Hn. rewrite !get_top_engaging_posts_eq, !slice_to_nonneg by lia.
  rewrite take_take. f_equal. lia.
Qed.

(** X11: the prompt reads the first two examples only.  Examples past the
    second change nothing, so asking the selector for more than two (the
    form offers up to five) gives the prompt of two, for one and the same
    random choice of style; and an empty list reads as no list. *)
Theorem prompt_uses_two_examples length tag style :
  (∀ l, get_prompt random_choice py_str length tag style (Some l)
        = get_prompt random_choice py_str length tag style (Some (take 2 l)))
  ∧ (∀ self n, 2 ≤ n →
       get_prompt random_choice py_str length tag style
         (Some (get_top_engaging_posts self length tag n))
       = get_prompt random_choice py_str length tag style
           (Some (get_top_engaging_posts self length tag 2)))
  ∧ get_prompt random_choice py_str length tag style (Some [])
    = get_prompt random_choice py_str length tag style None.
Proof.
  split_and!; [apply get_prompt_take| |done].
  intros self n Hn. by rewrite get_prompt_take, take_top.
Qed.

Lemma examples_loop base x0 l :
  foldl (λ prompt (ix : nat * row), prompt +:+ example_block py_str ix.1 ix.2)
    base (imap pair (take 2 (x0 :: l)))
  = match l with
    | [] => base +:+ example_block py_str 0 x0
    | x1 :: _ =>
        (base +:+ example_block py_str 0 x0) +:+ example_block py_str 1 x1
    end.
Proof. by destruct l. Qed.

(** X12: each of the first two examples is quoted in the prompt between
    its two marker lines, numbered from 1, with its text as it is (or the
    words "Example text not available." when it has no text key). *)
Theorem prompt_quotes_examples length tag style l (i : nat) x :
  (i < 2)%nat →
  l !! i = Some x →
  ∃ before after,
    get_prompt random_choice py_str length tag style (Some l)
    = before +:+ example_block py_str i x +:+ after.
Proof.
  intros Hi Hx. unfold get_prompt. cbv zeta.
  match goal with
  | |- context [foldl _ ?p _] => generalize p
  end.
  intros base.
  destruct l as [|x0 l]; [done|]. rewrite examples_loop.
  destruct i as [|[|i]]; [| |lia].
  - injection Hx as ->. destruct l as [|x1 l].
    + exists base, (nl +:+ nl +:+ "Generated Post:").
      by rewrite string_app_assoc.
    + exists base, (example_block py_str 1 x1 +:+ nl +:+ nl +:+ "Generated Post:").
      by rewrite !string_app_assoc.
  - destruct l as [|x1 l]; [done|]. injection Hx as ->.
    exists (base +:+ example_block py_str 0 x0), (nl +:+ nl +:+ "Generated Post:").
    by rewrite !string_app_assoc.
Qed.

End prompt_facts.

(** ** The topic list *)

(** X13: the topics offered for a category are its listed topics in string
    order, each once; for a category the mapping does not have they are
    the tag index itself, unchanged. *)
Theorem topics_sorted rt set_order1 set_order2 file mapping category :
  set_order_ok set_order1 →
  set_order_ok set_order2 →
  ∃ self T,
    loads rt set_order1 file self T
    ∧ StronglySorted String.le
        (available_topics set_order2 mapping category (get_tags self))
    ∧ NoDup (available_topics set_order2 mapping category (get_tags self))
    ∧ (∀ t, t ∈ available_topics set_order2 mapping category (get_tags self)
            ↔ t ∈ default (get_tags self) (mapping !! category))
    ∧ (mapping !! category = None →
       available_topics set_order2 mapping category (get_tags self)
       = get_tags self).
Proof.
  intros Hset1 Hset2.
  destruct (loaded_tag_index rt set_order1 file Hset1)
    as (self & T & Hloads & Hsorted & Hnodup & _).
  exists self, T. unfold available_topics.
  set (topics := default (get_tags self) (mapping !! category)).
  destruct (Hset2 topics) as [Hnd Hin].
  split_and!; [done|apply StronglySorted_sorted; apply _|..].
  - by rewrite sorted_Permutation.
  - intros t. by rewrite sorted_Permutation, Hin.
  - intros Hnone. subst topics. rewrite Hnone. cbn [default].
    apply (StronglySorted_unique String.le);
      [apply StronglySorted_sorted; apply _|done|].
    rewrite sorted_Permutation. apply NoDup_Permutation; [|done|].
    + apply Hset2.
    + apply Hset2.
Qed.

Lemma topics_sorted_witness :
  ∃ self T,
    loads sample_runtime remove_dups sample_corpus self T
    ∧ StronglySorted String.le
        (available_topics remove_dups {[ "Humor" := ["humor"; "Humor"; "humor"] ]}
           "Humor" (get_tags self))
    ∧ NoDup (available_topics remove_dups {[ "Humor" := ["humor"; "Humor"; "humor"] ]}
               "Humor" (get_tags self))
    ∧ (∀ t, t ∈ available_topics remove_dups
                  {[ "Humor" := ["humor"; "Humor"; "humor"] ]} "Humor" (get_tags self)
            ↔ t ∈ default (get_tags self)
                    (({[ "Humor" := ["humor"; "Humor"; "humor"] ]}
                        : gmap string (list string)) !! "Humor"))
    ∧ ((({[ "Humor" := ["humor"; "Humor"; "humor"] ]}
           : gmap string (list string)) !! "Humor") = None →
       available_topics remove_dups {[ "Humor" := ["humor"; "Humor"; "humor"] ]}
         "Humor" (get_tags self)
       = get_tags self).
Proof. apply topics_sorted; apply remove_dups_order_ok. Defined.

Example prompt_sample :
  get_prompt (λ l, default "" (head l)) (λ _, "") "Short" "AI" "Plain Text"
    (Some [ {[ "text" := PStr "B" ]} ])
  = nl +:+ "Generate a LinkedIn post using the below information. Write only the post content, no preamble or explanation before it."
    +:+ nl +:+ nl +:+ "1) Topic: AI" +:+ nl +:+ "2) Length: 1 to 4 lines" +:+ nl
    +:+ "3) Language: English" +:+ nl +:+ nl
    +:+ "Instructions: Write a compelling LinkedIn post in English about " +:+ dquote +:+ "AI" +:+ dquote
    +:+ ". Aim for a **professional, insightful, and engaging tone** that encourages interaction. The post should provide **practical value or a fresh perspective** for the reader. Use clear and concise language, avoiding overly technical jargon unless the topic specifically requires it and is clearly explained."
    +:+ nl +:+ nl +:+ "Structure of the Post:" +:+ nl
    +:+ "(a) Hook: Start with a **strong opening that grabs attention immediately**. This could be a thought-provoking question, a surprising statistic, a bold statement related to 'AI', or a relatable observation about the professional world concerning 'AI'." +:+ nl
    +:+ "(b) Main Idea: Clearly and concisely explain the core concept, trend, or insight related to 'AI'. Break down complex ideas into digestible points if necessary." +:+ nl
    +:+ "(c) Examples/Analogies (Optional): If helpful for understanding 'AI', briefly include a real-world example or an analogy. Keep it concise and directly relevant." +:+ nl
    +:+ "(d) Actionable Takeaway/Conclusion: End with a **clear takeaway, practical tip, or a thought-provoking question** that encourages readers to share their own experiences or opinions on 'AI' in the comments." +:+ nl +:+ nl
    +:+ "**Focus on providing value to the reader and sparking conversation.** Avoid generic statements or overly promotional content." +:+ nl
    +:+ nl +:+ "4) Formatting: Do not use any emojis or bullet points. Write in plain paragraphs only."
    +:+ nl +:+ nl +:+ "5) Writing Style Examples: Emulate the style, tone, and structure of the following English examples, but generate new content for the requested topic."
    +:+ nl +:+ nl +:+ "--- Top Engaging Example 1 ---" +:+ nl +:+ "B" +:+ nl +:+ "--- End Top Engaging Example 1 ---"
    +:+ nl +:+ nl +:+ "Generated Post:".
Proof. vm_compute. reflexivity. Qed.

(** ** From the form to the prompt (main.py) *)

(** X23: the form offers the topics of the category mapping, which need
    not be tags of the corpus.  For a topic the tag index does not list,
    the prompt built from the selected examples is the prompt without
    examples, whatever the length and the number of examples asked for. *)
Theorem unlisted_topic_prompt random_choice py_str rt set_order file
    length topic style n :
  set_order_ok set_order →
  ∃ self T,
    loads rt set_order file self T
    ∧ (topic ∉ get_tags self →
       get_prompt random_choice py_str length topic style
         (Some (get_top_engaging_posts self length topic n))
       = get_prompt random_choice py_str length topic style None).
Proof.
  intros Hset.
  destruct (loaded_tag_index rt set_order file Hset)
    as (self & T & Hloads & _ & _ & Hmem).
  destruct (loaded_passes rt set_order file)
    as (self' & T' & Hloads' & Hcols & Hpasses).
  assert (self' = self) as -> by (destruct Hloads, Hloads'; congruence).
  assert (T' = T) as -> by (destruct Hloads, Hloads'; congruence).
  exists self, T. split; [done|]. intros Htopic.
  assert (filter (λ r, passes length topic r) (rows T) = []) as Hnone.
  { destruct (filter _ (rows T)) as [|r rs] eqn:Hf; [done|].
    assert (r ∈ filter (λ r, passes length topic r) (rows T)) as Hr
      by (rewrite Hf; left).
    apply list_elem_of_filter in Hr as [Hp Hr].
    apply Hpasses in Hp as ((tags & Htags & Hin) & _); [|done].
    destruct Htopic. apply Hmem. by exists r, tags. }
  assert (get_top_engaging_posts self length topic n = []) as ->; [|done].
  rewrite get_top_engaging_posts_eq.
  rewrite (get_filtered_posts_rows self T); [|apply Hloads|done].
  rewrite Hnone. apply slice_to_nil.
Qed.

Lemma unlisted_topic_prompt_witness :
  ∃ self T,
    loads sample_runtime remove_dups sample_corpus self T
    ∧ ("Leadership" ∉ get_tags self →
       get_prompt sample_choice sample_str "Short" "Leadership" "Auto"
         (Some (get_top_engaging_posts self "Short" "Leadership" 2))
       = get_prompt sample_choice sample_str "Short" "Leadership" "Auto" None).
Proof. apply unlisted_topic_prompt, remove_dups_order_ok. Defined.

(** ** Preprocessing *)

Lemma dict_get_set_eq k v items : dict_get k (dict_set k v items) = Some v.
Proof.
  induction items as [|[k' v'] items IH]; cbn [dict_set dict_get].
  - by rewrite bool_decide_eq_true_2.
  - case_bool_decide as Hk; cbn [dict_get].
    + by rewrite bool_decide_eq_true_2.
    + by rewrite bool_decide_eq_false_2.
Qed.

Lemma dict_get_set_ne k k' v items :
  k ≠ k' → dict_get k' (dict_set k v items) = dict_get k' items.
Proof.
  intros Hne. induction items as [|[k0 v0] items IH]; cbn [dict_set dict_get].
  - by rewrite bool_decide_eq_false_2.
  - case_bool_decide as Hk; cbn [dict_get].
    + subst k0. by rewrite !bool_decide_eq_false_2.
    + by rewrite IH.
Qed.

Lemma dict_get_None k items : dict_get k items = None ↔ k ∉ items.*1.
Proof.
  induction items as [|[k' v'] items IH]; cbn [dict_get fmap list_fmap fst].
  - split; [intros _; apply not_elem_of_nil|done].
  - rewrite not_elem_of_cons. case_bool_decide as Hk.
    + split; [done|]. by intros [? _].
    + rewrite IH. naive_solver.
Qed.

Lemma dict_get_Some k v items : dict_get k items = Some v → (k, v) ∈ items.
Proof.
  induction items as [|[k' v'] items IH]; cbn [dict_get]; [done|].
  case_bool_decide as Hk.
  - intros [= ->]. subst. apply list_elem_of_here.
  - intros H. apply list_elem_of_further. auto.
Qed.

Lemma dict_get_elem_of k v items :
  NoDup items.*1 → (k, v) ∈ items → dict_get k items = Some v.
Proof.
  induction items as [|[k' v'] items IH]; cbn [dict_get fmap list_fmap fst].
  - intros _ H. by apply elem_of_nil in H.
  - intros [Hk' Hnd]%NoDup_cons [Heq|Hin]%elem_of_cons.
    + injection Heq as -> ->. by rewrite bool_decide_eq_true_2.
    + rewrite bool_decide_eq_false_2; [auto|].
      intros ->. apply Hk'. apply list_elem_of_fmap. by exists (k, v).
Qed.

Lemma dict_get_merge k a b :
  dict_get k (dict_merge a b)
  = match dict_get k b with
    | Some v => Some v
    | None => dict_get k a
    end.
Proof.
  unfold dict_merge.
  assert (∀ l1 l2, dict_get k (l1 ++ l2)%list
            = match dict_get k l1 with
              | Some v => Some v
              | None => dict_get k l2
              end) as Happ.
  { intros l1 l2. induction l1 as [|[k' v'] l1 IH]; [done|].
    cbn [app dict_get]. by case_bool_decide. }
  rewrite Happ.
  assert (dict_get k ((λ kv : string * pyval,
                         (kv.1, default kv.2 (dict_get kv.1 b))) <$> a)
          = match dict_get k a with
            | Some v => Some (default v (dict_get k b))
            | None => None
            end) as ->.
  { induction a as [|[k' v'] a IH]; [done|].
    cbn [fmap list_fmap dict_get fst snd]. cbn [fmap list_fmap] in IH.
    case_bool_decide; [by subst|done]. }
  destruct (dict_get k a) as [va|] eqn:Ha.
  - by destruct (dict_get k b).
  - induction b as [|[k' v'] b IH]; [done|].
    rewrite filter_cons. cbn [dict_get fst]. case_decide as Hin.
    + cbn [dict_get]. by case_bool_decide.
    + rewrite bool_decide_eq_false_2; [done|]. by intros ->.
Qed.

(** *** The second loop *)

Section unify_facts.
Variable set_order : list string → list string.

Lemma str_tags (tags : list string) : (PStr <$> tags) ≫= str_items = tags.
Proof. induction tags as [|t tags IH]; [done|]. cbn. by f_equal. Qed.

Lemma set_order_length l :
  set_order_ok set_order → (length (set_order l) ≤ length l)%nat.
Proof.
  intros Hset. destruct (Hset l) as [Hnd Hin].
  apply submseteq_length, NoDup_submseteq; [done|]. intros x. apply Hin.
Qed.

Lemma unify_tags_eq m post tags :
  dict_get "tags" post = Some (PList (PStr <$> tags)) →
  unify set_order m post
  = dict_set "tags"
      (PList (PStr <$> sorted String.le
                         (set_order ((λ tag, default tag (m !! tag)) <$> tags))))
      post.
Proof. intros Htags. unfold unify, post_tags. by rewrite Htags, str_tags. Qed.

(** X17: the second loop replaces the tags of a post by what the map
    gives for them (a tag without a key by itself), each once and in
    string order, and leaves every other key as it is. *)
Theorem unify_tags m post tags :
  set_order_ok set_order →
  dict_get "tags" post = Some (PList (PStr <$> tags)) →
  ∃ new_tags,
    dict_get "tags" (unify set_order m post) = Some (PList (PStr <$> new_tags))
    ∧ StronglySorted String.le new_tags
    ∧ NoDup new_tags
    ∧ (∀ u, u ∈ new_tags ↔ ∃ t, t ∈ tags ∧ u = default t (m !! t))
    ∧ (length new_tags ≤ length tags)%nat
    ∧ ∀ k, k ≠ "tags" → dict_get k (unify set_order m post) = dict_get k post.
Proof.
  intros Hset Htags. rewrite (unify_tags_eq m post tags Htags).
  set (mapped := (λ tag, default tag (m !! tag)) <$> tags).
  exists (sorted String.le (set_order mapped)).
  destruct (Hset mapped) as [Hnd Hin].
  split_and!.
  - by rewrite dict_get_set_eq.
  - apply StronglySorted_sorted; apply _.
  - by rewrite sorted_Permutation.
  - intros u. rewrite sorted_Permutation, Hin. subst mapped.
    rewrite list_elem_of_fmap. naive_solver.
  - rewrite sorted_length. etrans; [by apply set_order_length|].
    subst mapped. by rewrite length_fmap.
  - intros k Hk. by rewrite dict_get_set_ne.
Qed.
End unify_facts.

Section preprocess_facts.
Variable invoke_metadata : pyval → option string.
Variable invoke_unify : string → option string.
Variable json_parse : string → option pyval.
Variable strip : string → string.
Variable py_str : pyval → string.
Variable set_order : list string → list string.

Lemma omap_clean_tag l :
  ∃ tags, omap (clean_tag strip) l = PStr <$> tags
    ∧ Forall (λ t, t ≠ "" ∧ ∃ s, PStr s ∈ l ∧ t = strip s) tags.
Proof.
  induction l as [|v l (tags & Heq & Htags)]; [by exists []|].
  assert (Forall (λ t, t ≠ "" ∧ ∃ s, PStr s ∈ v :: l ∧ t = strip s) tags) as Htags'.
  { eapply Forall_impl; [exact Htags|].
    intros t (Ht & s & Hs & ->). split; [done|]. exists s. split; [|done].
    by apply list_elem_of_further. }
  cbn [omap list_omap]. destruct v; cbn [clean_tag]; try by exists tags.
  case_bool_decide as Hs; [by exists tags|].
  exists (strip s :: tags). cbn [fmap list_fmap]. rewrite Heq. split; [done|].
  constructor; [|done]. split; [done|]. exists s. split; [|done].
  apply list_elem_of_here.
Qed.

(** What [extract_metadata] returns, when it returns. *)
Lemma extract_metadata_Some post_text res :
  extract_metadata invoke_metadata json_parse strip post_text = Some res →
  ∃ content items line_count tags,
    invoke_metadata post_text = Some content
    ∧ json_parse content = Some (PDict items)
    ∧ dict_get "line_count" items = Some line_count
    ∧ is_int line_count = true ∧ negative line_count = false
    ∧ dict_get "tags" items = Some tags
    ∧ res = dict_set "tags"
              (match tags with
               | PList l => PList (take 2 (omap (clean_tag strip) l))
               | _ => PList []
               end) items.
Proof.
  unfold extract_metadata. intros H.
  destruct (invoke_metadata post_text) as [content|] eqn:Hcontent; [|done].
  cbn [mbind option_bind] in H.
  destruct (json_parse content) as [[| | | | | | | |items]|] eqn:Hparse; try done.
  cbn [mbind option_bind] in H.
  destruct (dict_get "line_count" items) as [line_count|] eqn:Hlc; [|done].
  destruct (dict_get "tags" items) as [tags|] eqn:Htags; [|done].
  destruct (is_int line_count) eqn:Hint; [|done].
  destruct (negative line_count) eqn:Hneg; [done|].
  cbn [negb orb] in H. injection H as <-.
  by exists content, items, line_count, tags.
Qed.

Lemma int_value_nonneg line_count :
  is_int line_count = true → negative line_count = false → 0 ≤ int_value line_count.
Proof.
  destruct line_count as [| | |[]| | | | |]; try done.
  cbn [negative int_value]. intros _. apply Z.ltb_ge.
Qed.

(** The tags [extract_metadata] stores: at most two strings, each
    non-empty and the [strip] of a string. *)
Lemma cleaned_tags (tags : pyval) :
  ∃ tags' : list string,
    match tags with
    | PList l => PList (take 2 (omap (clean_tag strip) l))
    | _ => PList []
    end = PList (PStr <$> tags')
    ∧ (length tags' ≤ 2)%nat
    ∧ Forall (λ t, t ≠ "" ∧ ∃ s, t = strip s) tags'.
Proof.
  destruct tags as [| | | | | | |l|];
    try (exists []; split_and!; [done|cbn; lia|constructor]).
  destruct (omap_clean_tag l) as (ts & -> & Hts).
  exists (take 2 ts). rewrite fmap_take. split; [done|]. split.
  - rewrite length_take. lia.
  - apply Forall_take. eapply Forall_impl; [exact Hts|].
    intros t (Ht & s & _ & ->). split; [done|]. by exists s.
Qed.

(** X14: what [extract_metadata] returns has an int not below 0 under
    "line_count" and, under "tags", a list of at most two strings, each
    of them non-empty and the [strip] of a string. *)
Theorem extract_metadata_valid post_text res :
  extract_metadata invoke_metadata json_parse strip post_text = Some res →
  ∃ line_count tags,
    dict_get "line_count" res = Some line_count
    ∧ is_int line_count = true ∧ 0 ≤ int_value line_count
    ∧ dict_get "tags" res = Some (PList (PStr <$> tags))
    ∧ (length tags ≤ 2)%nat
    ∧ Forall (λ t, t ≠ "" ∧ ∃ s, t = strip s) tags.
Proof.
  intros (content & items & line_count & tags & _ & _ & Hlc & Hint & Hneg & Htags & ->)
    %extract_metadata_Some.
  destruct (cleaned_tags tags) as (tags' & -> & Hlen & Hall).
  exists line_count, tags'. rewrite dict_get_set_eq, dict_get_set_ne by done.
  split_and!; [done..| |done|done|done]. by apply int_value_nonneg.
Qed.

(** *** The tag map *)

Lemma foldl_insert_self (res : row) keys t :
  foldl (λ (res : row) key, <[key := PStr key]> res) res keys !! t
  = if bool_decide (t ∈ keys) then Some (PStr t) else res !! t.
Proof.
  revert res. induction keys as [|k keys IH]; intros res; cbn [foldl].
  - rewrite bool_decide_eq_false_2; [done|apply not_elem_of_nil].
  - rewrite IH. destruct (decide (t ∈ keys)) as [Hin|Hin].
    + rewrite !bool_decide_eq_true_2; [done| |done]. by apply list_elem_of_further.
    + rewrite (bool_decide_eq_false_2 _ Hin). destruct (decide (t = k)) as [->|Hne].
      * rewrite lookup_insert_eq, bool_decide_eq_true_2; [done|].
        apply list_elem_of_here.
      * rewrite lookup_insert_ne by done. rewrite bool_decide_eq_false_2; [done|].
        rewrite not_elem_of_cons. done.
Qed.

(** What [get_unified_tags] returns for posts that carry tags: for every
    key, the value of the language model's object as a string, and for
    a tag that object has no key for, the tag itself. *)
Lemma get_unified_tags_Some posts m :
  set_order_ok set_order →
  posts ≫= post_tags ≠ [] →
  get_unified_tags invoke_unify json_parse py_str set_order posts = Some m →
  ∃ content items,
    invoke_unify
      (String.concat "," (sorted String.le (set_order (posts ≫= post_tags))))
    = Some content
    ∧ json_parse content = Some (PDict items)
    ∧ ∀ t, m !! t = match dict_of_items items !! t with
                    | Some (PStr s) => Some s
                    | Some v => Some (py_str v)
                    | None =>
                        if bool_decide (t ∈ posts ≫= post_tags) then Some t else None
                    end.
Proof.
  intros Hset Hne. unfold get_unified_tags.
  destruct (posts ≫= post_tags) as [|t0 ts] eqn:Htags; [done|].
  set (tags := t0 :: ts) in *. cbv zeta.
  destruct (invoke_unify _) as [content|] eqn:Hcontent; [|done].
  cbn [mbind option_bind].
  destruct (json_parse content) as [[| | | | | | | |items]|] eqn:Hparse; try done.
  cbn [mbind option_bind]. intros [= <-].
  exists content, items. split; [done|]. split; [done|]. intros t.
  rewrite lookup_fmap, foldl_insert_self.
  destruct (Hset (filter (λ t, dict_of_items items !! t = None) tags)) as [_ Hin].
  destruct (dict_of_items items !! t) as [v|] eqn:Hv.
  - rewrite bool_decide_eq_false_2.
    + by destruct v.
    + rewrite Hin, list_elem_of_filter, Hv. by intros [? _].
  - destruct (decide (t ∈ tags)) as [Ht|Ht].
    + rewrite !bool_decide_eq_true_2; [done|done|].
      by rewrite Hin, list_elem_of_filter.
    + rewrite !bool_decide_eq_false_2; [done|done|].
      rewrite Hin, list_elem_of_filter. by intros [_ ?].
Qed.

(** X15: the map [get_unified_tags] returns has a key for every tag of
    every post, and is empty exactly when the posts carry no tag at
    all. *)
Theorem unified_tags_cover posts m :
  set_order_ok set_order →
  get_unified_tags invoke_unify json_parse py_str set_order posts = Some m →
  (m = ∅ ↔ posts ≫= post_tags = [])
  ∧ ∀ post t, post ∈ posts → t ∈ post_tags post → is_Some (m !! t).
Proof.
  intros Hset Hm.
  destruct (decide (posts ≫= post_tags = [])) as [Hnil|Hne].
  - assert (m = ∅) as ->.
    { revert Hm. unfold get_unified_tags. rewrite Hnil. by intros [= <-]. }
    split; [done|]. intros post t Hpost Ht.
    assert (t ∈ posts ≫= post_tags) as Hin
      by (apply list_elem_of_bind; by exists post).
    rewrite Hnil in Hin. by apply elem_of_nil in Hin.
  - destruct (get_unified_tags_Some posts m Hset Hne Hm)
      as (content & items & _ & _ & Hlookup).
    assert (∀ t, t ∈ posts ≫= post_tags → is_Some (m !! t)) as Hcover.
    { intros t Ht. rewrite Hlookup, bool_decide_eq_true_2 by done.
      destruct (dict_of_items items !! t) as [[]|]; by eexists. }
    split.
    + split; [|done]. intros ->.
      destruct (posts ≫= post_tags) as [|t0 ts] eqn:Htags; [done|].
      destruct (Hcover t0) as [u Hu]; [apply list_elem_of_here|].
      by rewrite lookup_empty in Hu.
    + intros post t Hpost Ht. apply Hcover, list_elem_of_bind. by exists post.
Qed.

(** X16: a tag the language model's object has no key for is mapped to
    itself, and a key it gives a string for keeps that string, whether
    the key is a tag of the posts or not. *)
Theorem unified_tags_values posts m :
  set_order_ok set_order →
  posts ≫= post_tags ≠ [] →
  get_unified_tags invoke_unify json_parse py_str set_order posts = Some m →
  ∃ content items,
    invoke_unify
      (String.concat "," (sorted String.le (set_order (posts ≫= post_tags))))
    = Some content
    ∧ json_parse content = Some (PDict items)
    ∧ (∀ t, t ∈ posts ≫= post_tags → dict_of_items items !! t = None →
            m !! t = Some t)
    ∧ (∀ t, t ∉ posts ≫= post_tags → dict_of_items items !! t = None →
            m !! t = None)
    ∧ (∀ k s, dict_of_items items !! k = Some (PStr s) → m !! k = Some s).
Proof.
  intros Hset Hne Hm.
  destruct (get_unified_tags_Some posts m Hset Hne Hm)
    as (content & items & Hcontent & Hparse & Hlookup).
  exists content, items. split_and!; [done|done|..].
  - intros t Ht Hnone. by rewrite Hlookup, Hnone, bool_decide_eq_true_2.
  - intros t Ht Hnone. by rewrite Hlookup, Hnone, bool_decide_eq_false_2.
  - intros k s Hk. by rewrite Hlookup, Hk.
Qed.

(** *** The whole run *)

Lemma enrich_Some post e :
  enrich invoke_metadata json_parse strip post = Some (Some e) →
  ∃ items text metadata,
    post = PDict items
    ∧ dict_get "text" items = Some text
    ∧ extract_metadata invoke_metadata json_parse strip text = Some metadata
    ∧ e = dict_merge items metadata.
Proof.
  destruct post as [| | | | | | | |items]; try done. cbn [enrich].
  destruct (dict_get "text" items) as [text|] eqn:Htext; [|done].
  destruct (extract_metadata _ _ _ text) as [metadata|] eqn:Hmd; [|done].
  intros [= <-]. by exists items, text, metadata.
Qed.

(** The posts the first loop keeps, where no post makes it raise: a
    sublist of the posts, each with its enriched post. *)
Lemma enriched_sublist l es :
  mapM (enrich invoke_metadata json_parse strip) l = Some es →
  ∃ kept,
    kept `sublist_of` l
    ∧ Forall2 (λ post e, enrich invoke_metadata json_parse strip post = Some (Some e))
        kept (omap id es).
Proof.
  intros H%mapM_Some. induction H as [|post oe l es Hpost _ (kept & Hsub & Hall)].
  - exists []. split; [done|constructor].
  - destruct oe as [e|]; cbn [omap list_omap id].
    + exists (post :: kept). split; [by apply sublist_skip|]. by constructor.
    + exists kept. split; [by apply sublist_cons|done].
Qed.

(** A run of [process_posts] that reaches [json.dump]: the file holds an
    array, no post of it makes the first loop raise, some post is
    enriched, and the posts dumped are the enriched posts, with their
    tags unified when there is a tag map that is not empty. *)
Lemma process_posts_Dumps raw_file processed_file final_posts :
  process_posts invoke_metadata invoke_unify json_parse strip py_str set_order
    raw_file processed_file
  = Dumps final_posts →
  ∃ l es,
    raw_file = Readable (Document (PList l))
    ∧ mapM (enrich invoke_metadata json_parse strip) l = Some es
    ∧ omap id es ≠ []
    ∧ (final_posts = PDict <$> omap id es
       ∨ ∃ m, get_unified_tags invoke_unify json_parse py_str set_order (omap id es)
              = Some m
              ∧ m ≠ ∅
              ∧ final_posts = PDict <$> (unify set_order m <$> omap id es)).
Proof.
  unfold process_posts.
  destruct raw_file as [| |[| |posts]]; try done. cbn [open_file json_load mbind result_bind].
  destruct posts as [| | | | | | |l|]; try done.
  destruct (mapM _ l) as [es|] eqn:Hes; [|done]. cbn [fmap option_fmap option_map].
  destruct (omap id es) as [|e0 enriched] eqn:Henriched; [done|].
  destruct processed_file; [|done].
  intros [= <-]. exists l, es. split; [done|]. split; [done|].
  rewrite Henriched. split; [done|].
  destruct (get_unified_tags _ _ _ _ _) as [m|]; [|by left].
  case_bool_decide as Hm; [by left|]. right. by exists m.
Qed.

(** An enriched post: a text, a valid line count and at most two tags. *)
Lemma enriched_valid post e :
  enrich invoke_metadata json_parse strip post = Some (Some e) →
  ∃ line_count tags,
    is_Some (dict_get "text" e)
    ∧ dict_get "line_count" e = Some line_count
    ∧ is_int line_count = true ∧ 0 ≤ int_value line_count
    ∧ dict_get "tags" e = Some (PList (PStr <$> tags))
    ∧ (length tags ≤ 2)%nat.
Proof.
  intros (items & text & metadata & -> & Htext & Hmd & ->)%enrich_Some.
  apply extract_metadata_Some in Hmd
    as (content & res & line_count & tags & _ & _ & Hlc & Hint & Hneg & Htags & ->).
  destruct (cleaned_tags tags) as (tags' & -> & Hlen & _).
  exists line_count, tags'. rewrite !dict_get_merge.
  rewrite dict_get_set_eq, !dict_get_set_ne, Hlc, Htext by done.
  split_and!; [|done|done| |done|done].
  - by destruct (dict_get "text" res).
  - by apply int_value_nonneg.
Qed.

(** X18: every post [process_posts] hands to [json.dump] is an object
    with a text, an int not below 0 under "line_count" and a list of at
    most two strings under "tags", and there is at least one such post. *)
Theorem process_posts_output raw_file processed_file final_posts :
  set_order_ok set_order →
  process_posts invoke_metadata invoke_unify json_parse strip py_str set_order
    raw_file processed_file
  = Dumps final_posts →
  final_posts ≠ []
  ∧ Forall (λ post, ∃ items line_count tags,
              post = PDict items
              ∧ is_Some (dict_get "text" items)
              ∧ dict_get "line_count" items = Some line_count
              ∧ is_int line_count = true ∧ 0 ≤ int_value line_count
              ∧ dict_get "tags" items = Some (PList (PStr <$> tags))
              ∧ (length tags ≤ 2)%nat) final_posts.
Proof.
  intros Hset (l & es & _ & Hes & Hne & Hfinal)%process_posts_Dumps.
  destruct (enriched_sublist l es Hes) as (kept & _ & Hkept).
  assert (Forall (λ e, ∃ line_count tags,
              is_Some (dict_get "text" e)
              ∧ dict_get "line_count" e = Some line_count
              ∧ is_int line_count = true ∧ 0 ≤ int_value line_count
              ∧ dict_get "tags" e = Some (PList (PStr <$> tags))
              ∧ (length tags ≤ 2)%nat) (omap id es)) as Hvalid.
  { clear Hne Hfinal. induction Hkept as [|post e kept enriched Hpost _ IH];
      constructor; [|done]. by eapply enriched_valid. }
  destruct Hfinal as [->|(m & _ & _ & ->)].
  - split; [by destruct (omap id es)|].
    apply Forall_fmap. eapply Forall_impl; [exact Hvalid|].
    intros e (line_count & tags & H). by exists e, line_count, tags.
  - split; [by destruct (omap id es)|].
    rewrite <-list_fmap_compose. apply Forall_fmap.
    eapply Forall_impl; [exact Hvalid|].
    intros e (line_count & tags & Htext & Hlc & Hint & Hpos & Htags & Hlen).
    unfold compose. rewrite (unify_tags_eq set_order m e tags Htags).
    set (new_tags := sorted String.le _).
    exists (dict_set "tags" (PList (PStr <$> new_tags)) e), line_count, new_tags.
    rewrite dict_get_set_eq, !dict_get_set_ne by done.
    split_and!; [done..|].
    subst new_tags. rewrite sorted_length. etrans; [by apply set_order_length|].
    by rewrite length_fmap.
Qed.

(** X19: the posts dumped are posts of the file, in the order of the
    file and each at most once; a dumped post has every key of its post
    that the metadata of its text does not carry, with the value the post
    has. *)
Theorem process_posts_keeps raw_file processed_file final_posts :
  process_posts invoke_metadata invoke_unify json_parse strip py_str set_order
    raw_file processed_file
  = Dumps final_posts →
  ∃ l kept,
    raw_file = Readable (Document (PList l))
    ∧ kept `sublist_of` l
    ∧ Forall2
        (λ post final, ∃ items text metadata final_items,
           post = PDict items ∧ final = PDict final_items
           ∧ dict_get "text" items = Some text
           ∧ extract_metadata invoke_metadata json_parse strip text = Some metadata
           ∧ ∀ k, dict_get k metadata = None →
                  dict_get k final_items = dict_get k items)
        kept final_posts.
Proof.
  intros (l & es & -> & Hes & _ & Hfinal)%process_posts_Dumps.
  destruct (enriched_sublist l es Hes) as (kept & Hsub & Hkept).
  exists l, kept. split; [done|]. split; [done|].
  assert (∀ post e, enrich invoke_metadata json_parse strip post = Some (Some e) →
            ∃ items text metadata tags,
              post = PDict items
              ∧ dict_get "text" items = Some text
              ∧ extract_metadata invoke_metadata json_parse strip text = Some metadata
              ∧ dict_get "tags" e = Some (PList (PStr <$> tags))
              ∧ is_Some (dict_get "tags" metadata)
              ∧ ∀ k, dict_get k metadata = None → dict_get k e = dict_get k items)
    as Hpost.
  { intros post e He.
    destruct (enriched_valid post e He) as (_ & tags & _ & _ & _ & _ & Htags & _).
    apply enrich_Some in He as (items & text & metadata & -> & Htext & Hmd & ->).
    exists items, text, metadata, tags. split_and!; [done..| |].
    - apply extract_metadata_Some in Hmd as (? & ? & ? & ? & _ & _ & _ & _ & _ & _ & ->).
      rewrite dict_get_set_eq. by eexists.
    - intros k Hk. by rewrite dict_get_merge, Hk. }
  destruct Hfinal as [->|(m & _ & _ & ->)].
  - apply Forall2_fmap_r. eapply Forall2_impl; [exact Hkept|].
    intros post e (items & text & metadata & tags & -> & Htext & Hmd & _ & _ & Hk)%Hpost.
    by exists items, text, metadata, e.
  - rewrite <-list_fmap_compose. apply Forall2_fmap_r.
    eapply Forall2_impl; [exact Hkept|].
    intros post e
      (items & text & metadata & tags & -> & Htext & Hmd & Htags & Hmdtags & Hk)%Hpost.
    exists items, text, metadata, (unify set_order m e). unfold compose.
    split_and!; [done..|]. intros k Hnone.
    rewrite (unify_tags_eq set_order m e tags Htags), dict_get_set_ne; [by apply Hk|].
    intros <-. rewrite Hnone in Hmdtags. by destruct Hmdtags.
Qed.

Lemma enrich_None post :
  enrich invoke_metadata json_parse strip post = None ↔ is_container post = false.
Proof.
  destruct post as [| | | | | | | |items]; try done. cbn [enrich is_container].
  destruct (dict_get "text" items) as [text|]; [|done].
  by destruct (extract_metadata _ _ _ text).
Qed.

(** X20: [process_posts] ends with a [TypeError] exactly when the file
    holds a JSON document that is neither a str, a list nor an object, or
    a list with such an entry. *)
Theorem process_posts_type_error raw_file processed_file :
  process_posts invoke_metadata invoke_unify json_parse strip py_str set_order
    raw_file processed_file
  = Propagates TypeError
  ↔ ∃ v, raw_file = Readable (Document v)
         ∧ (is_container v = false
            ∨ ∃ l, v = PList l ∧ Exists (λ post, is_container post = false) l).
Proof.
  unfold process_posts. split.
  - destruct raw_file as [| |[| |posts]]; try done.
    cbn [open_file json_load mbind result_bind]. intros H.
    exists posts. split; [done|].
    destruct posts as [| | | | | | |l|]; try done; try by left.
    right. exists l. split; [done|].
    destruct (mapM _ l) as [es|] eqn:Hes.
    + cbn [fmap option_fmap option_map] in H.
      by destruct (omap id es), processed_file.
    + apply mapM_None in Hes. eapply Exists_impl; [exact Hes|].
      intros post. by rewrite enrich_None.
  - intros (v & -> & [Hv|(l & -> & Hl)]).
    + by destruct v.
    + cbn [open_file json_load mbind result_bind].
      assert (mapM (enrich invoke_metadata json_parse strip) l = None) as ->; [|done].
      apply mapM_None. eapply Exists_impl; [exact Hl|].
      intros post. by rewrite enrich_None.
Qed.

Lemma all_skipped l :
  (∃ es, mapM (enrich invoke_metadata json_parse strip) l = Some es ∧ omap id es = [])
  ↔ Forall (λ post, enrich invoke_metadata json_parse strip post = Some None) l.
Proof.
  split.
  - intros (es & Hes%mapM_Some & Hnil).
    induction Hes as [|post oe l es Hpost _ IH]; [constructor|].
    destruct oe as [e|]; [done|]. constructor; [done|]. by apply IH.
  - intros Hl. exists (replicate (length l) None). split.
    + apply mapM_Some. induction Hl; by constructor.
    + clear Hl. by induction l.
Qed.

Lemma enrich_enriched post :
  (∃ e, enrich invoke_metadata json_parse strip post = Some (Some e))
  ↔ ∃ items text,
      post = PDict items
      ∧ dict_get "text" items = Some text
      ∧ is_Some (extract_metadata invoke_metadata json_parse strip text).
Proof.
  split.
  - intros [e (items & text & metadata & -> & Htext & Hmd & _)%enrich_Some].
    exists items, text. by rewrite Hmd.
  - intros (items & text & -> & Htext & [metadata Hmd]). cbn [enrich].
    rewrite Htext, Hmd. by eexists.
Qed.

Lemma some_enriched l es :
  mapM (enrich invoke_metadata json_parse strip) l = Some es →
  omap id es ≠ []
  ↔ Exists (λ post, ∃ e, enrich invoke_metadata json_parse strip post = Some (Some e)) l.
Proof.
  intros H%mapM_Some. induction H as [|post oe l es Hpost _ IH].
  - split; [done|]. by intros ?%Exists_nil.
  - rewrite Exists_cons. destruct oe as [e|]; cbn [omap list_omap id].
    + split; [|done]. intros _. left. by exists e.
    + rewrite IH. split; [by right|]. intros [[e He]|]; [congruence|done].
Qed.

(** X21: [process_posts] returns without dumping anything exactly when
    the file is missing or holds no JSON, when its document is an object
    or a str, when it is a list every entry of which is skipped (no entry
    is an object with a text whose metadata is extracted), or when some
    entry is enriched and the output file cannot be opened. *)
Theorem process_posts_returns raw_file processed_file :
  process_posts invoke_metadata invoke_unify json_parse strip py_str set_order
    raw_file processed_file
  = Returns
  ↔ raw_file = Missing
    ∨ raw_file = Readable NotJson
    ∨ (∃ items, raw_file = Readable (Document (PDict items)))
    ∨ (∃ s, raw_file = Readable (Document (PStr s)))
    ∨ (∃ l, raw_file = Readable (Document (PList l))
            ∧ Forall (λ post, is_container post = true
                              ∧ ∀ items text,
                                  post = PDict items →
                                  dict_get "text" items = Some text →
                                  extract_metadata invoke_metadata json_parse strip text
                                  = None) l)
    ∨ (processed_file = NotWritable
       ∧ ∃ l, raw_file = Readable (Document (PList l))
              ∧ Forall (λ post, is_container post = true) l
              ∧ Exists (λ post, ∃ items text,
                          post = PDict items
                          ∧ dict_get "text" items = Some text
                          ∧ is_Some (extract_metadata invoke_metadata json_parse
                                       strip text)) l).
Proof.
  assert (∀ post, enrich invoke_metadata json_parse strip post = Some None
            ↔ is_container post = true
              ∧ ∀ items text, post = PDict items → dict_get "text" items = Some text →
                  extract_metadata invoke_metadata json_parse strip text = None)
    as Hskip.
  { intros post. destruct post as [| | | | | | | |items]; cbn [enrich is_container];
      try (split; [done|by intros [? _]]); try (split; [done|by intros _]).
    destruct (dict_get "text" items) as [text|] eqn:Htext.
    - destruct (extract_metadata _ _ _ text) as [metadata|] eqn:Hmd.
      + split; [done|]. intros [_ H]. by rewrite (H items text) in Hmd.
      + split; [|done]. intros _. split; [done|].
        intros ? ? [= <-] Ht. rewrite Htext in Ht. by injection Ht as <-.
    - split; [|done]. intros _. split; [done|].
      intros ? ? [= <-] Ht. by rewrite Htext in Ht. }
  assert (∀ l, Forall (λ post, is_container post = true) l
            ↔ is_Some (mapM (enrich invoke_metadata json_parse strip) l))
    as Hcontainers.
  { intros l. rewrite mapM_is_Some. apply Forall_proper; [|done].
    intros post. unfold compose. rewrite <-not_eq_None_Some, enrich_None.
    by destruct (is_container post). }
  unfold process_posts. split.
  - destruct raw_file as [| |[| |posts]]; try done; [by left|by right; left|].
    cbn [open_file json_load mbind result_bind]. intros H. do 2 right.
    destruct posts as [| | | | | | |l|]; try done;
      [by right; left; eexists| |by left; eexists].
    do 2 right.
    destruct (mapM _ l) as [es|] eqn:Hes; [|done].
    cbn [fmap option_fmap option_map] in H.
    destruct (omap id es) as [|e0 enriched] eqn:Hnil.
    + left. exists l. split; [done|].
      eapply Forall_impl; [apply all_skipped; by exists es|].
      intros post. by rewrite Hskip.
    + right. destruct processed_file; [done|]. split; [done|].
      exists l. split; [done|]. split.
      * apply Hcontainers. by rewrite Hes.
      * eapply Exists_impl; [apply (some_enriched l es Hes); by rewrite Hnil|].
        intros post. by rewrite enrich_enriched.
  - intros [->|[->|[[items ->]|[[s ->]|[(l & -> & Hl)|(-> & l & -> & Hall & Hsome)]]]]];
      try done.
    + cbn [open_file json_load mbind result_bind].
      destruct (proj2 (all_skipped l)) as (es & -> & Hnil).
      { eapply Forall_impl; [exact Hl|]. intros post. by rewrite Hskip. }
      cbn [fmap option_fmap option_map]. by rewrite Hnil.
    + cbn [open_file json_load mbind result_bind].
      apply Hcontainers in Hall as [es Hes]. rewrite Hes.
      cbn [fmap option_fmap option_map].
      destruct (omap id es) as [|e0 enriched] eqn:Hnil; [|done].
      exfalso. apply (some_enriched l es Hes); [|by rewrite Hnil].
      eapply Exists_impl; [exact Hsome|]. intros post. by rewrite enrich_enriched.
Qed.
End preprocess_facts.

(** ** From the raw posts to the loaded table *)

Lemma dict_set_keys k v items x :
  x ∈ (dict_set k v items).*1 → x = k ∨ x ∈ items.*1.
Proof.
  induction items as [|[k' v'] items IH]; cbn [dict_set fmap list_fmap fst].
  - intros ->%list_elem_of_singleton. by left.
  - case_bool_decide as Hk; cbn [fmap list_fmap fst]; rewrite !elem_of_cons.
    + naive_solver.
    + intros [->|Hx]; [by right; left|]. destruct (IH Hx); auto.
Qed.

Lemma dict_set_NoDup k v items : NoDup items.*1 → NoDup (dict_set k v items).*1.
Proof.
  induction items as [|[k' v'] items IH]; cbn [dict_set fmap list_fmap fst].
  - intros _. apply NoDup_singleton.
  - intros [Hk' Hnd]%NoDup_cons. case_bool_decide as Hk; cbn [fmap list_fmap fst].
    + subst k'. by apply NoDup_cons.
    + apply NoDup_cons. split; [|auto].
      intros [->|Hin]%dict_set_keys; done.
Qed.

Lemma dict_set_flat k v items :
  is_dict v = false →
  Forall (λ kv : string * pyval, is_dict kv.2 = false) items →
  Forall (λ kv : string * pyval, is_dict kv.2 = false) (dict_set k v items).
Proof.
  intros Hv. induction 1 as [|[k' v'] items Hkv Hitems IH]; cbn [dict_set].
  - constructor; [exact Hv|constructor].
  - case_bool_decide; constructor; done.
Qed.

Lemma dict_merge_keys a b :
  (dict_merge a b).*1
  = (a.*1 ++ (filter (λ kv : string * pyval, dict_get kv.1 a = None) b).*1)%list.
Proof.
  unfold dict_merge. rewrite fmap_app, <-list_fmap_compose. f_equal.
Qed.

Lemma dict_merge_NoDup a b :
  NoDup a.*1 → NoDup b.*1 → NoDup (dict_merge a b).*1.
Proof.
  intros Ha Hb. rewrite dict_merge_keys. apply NoDup_app. split_and!; [done| |].
  - intros x Hx (kv & -> & [Hkv _]%list_elem_of_filter)%list_elem_of_fmap.
    by apply dict_get_None in Hkv.
  - clear Ha. induction b as [|[k v] b IH]; [constructor|].
    apply NoDup_cons in Hb as [Hk Hb]. rewrite filter_cons.
    case_decide; [|auto]. cbn [fmap list_fmap fst]. apply NoDup_cons.
    split; [|auto].
    intros (kv & -> & [_ Hkv]%list_elem_of_filter)%list_elem_of_fmap.
    apply Hk, list_elem_of_fmap. by exists kv.
Qed.

Lemma dict_merge_flat a b :
  Forall (λ kv : string * pyval, is_dict kv.2 = false) a →
  Forall (λ kv : string * pyval, is_dict kv.2 = false) b →
  Forall (λ kv : string * pyval, is_dict kv.2 = false) (dict_merge a b).
Proof.
  intros Ha Hb. unfold dict_merge. apply Forall_app. split.
  - apply Forall_fmap. eapply Forall_impl; [exact Ha|].
    intros [k v] Hv. unfold compose. cbn [fst snd] in *.
    destruct (dict_get k b) as [v'|] eqn:Hk; [|done].
    apply dict_get_Some in Hk. rewrite Forall_forall in Hb. by apply (Hb (k, v')).
  - rewrite Forall_forall in Hb. apply Forall_forall.
    intros kv [_ Hkv]%list_elem_of_filter. auto.
Qed.

Section pipeline.
Variable invoke_metadata : pyval → option string.
Variable invoke_unify : string → option string.
Variable json_parse : string → option pyval.
Variable strip : string → string.
Variable py_str : pyval → string.
Variable set_order : list string → list string.

Lemma well_formed_conforming e :
  well_formed e →
  ∃ line_count tags, conforming (PDict e) line_count tags ∧ (length tags ≤ 2)%nat.
Proof.
  intros (Hnd & Hflat & lc & tags & Hlc & Hint & Hpos & Htags & Hlen).
  exists (int_value lc), tags. split; [|done].
  exists e, lc. split_and!; try done; by apply dict_get_Some.
Qed.

Lemma unify_well_formed m e :
  set_order_ok set_order → well_formed e → well_formed (unify set_order m e).
Proof.
  intros Hset (Hnd & Hflat & lc & tags & Hlc & Hint & Hpos & Htags & Hlen).
  rewrite (unify_tags_eq set_order m e tags Htags).
  set (new_tags := sorted String.le _).
  split; [by apply dict_set_NoDup|]. split; [by apply dict_set_flat|].
  exists lc, new_tags. rewrite dict_get_set_eq, dict_get_set_ne by done.
  split_and!; [done..|]. subst new_tags. rewrite sorted_length.
  etrans; [by apply set_order_length|]. by rewrite length_fmap.
Qed.

Lemma enrich_well_formed items e :
  NoDup items.*1 →
  Forall (λ kv : string * pyval, is_dict kv.2 = false) items →
  (∀ text content answer,
     invoke_metadata text = Some content →
     json_parse content = Some (PDict answer) →
     NoDup answer.*1 ∧ Forall (λ kv : string * pyval, is_dict kv.2 = false) answer) →
  enrich invoke_metadata json_parse strip (PDict items) = Some (Some e) →
  well_formed e.
Proof.
  intros Hnd Hflat Hllm He.
  destruct (enriched_valid _ _ _ _ _ He)
    as (lc & tags & _ & Hlc & Hint & Hpos & Htags & Hlen).
  apply enrich_Some in He as (items' & text & metadata & [= <-] & Htext & Hmd & ->).
  apply extract_metadata_Some in Hmd
    as (content & answer & ? & tags0 & Hcontent & Hparse & _ & _ & _ & _ & ->).
  destruct (Hllm text content answer Hcontent Hparse) as [Hnd' Hflat'].
  split_and!.
  - apply dict_merge_NoDup; [done|]. by apply dict_set_NoDup.
  - apply dict_merge_flat; [done|]. apply dict_set_flat; [|done]. by destruct tags0.
  - by exists lc, tags.
Qed.

(** X22: the preprocessing step and the loader, one after the other.
    When the objects of the raw file and the objects the language model
    answers for their texts have no nested object, a file holding the
    posts that [process_posts] dumps is loaded, unless the load is
    abandoned, into one record for each post, with the length category of
    the line count of the post, which is not Unknown, and its tags list of
    at most two strings.  The load is not abandoned when the line count
    and the engagement of every post are harmless. *)
Theorem pipeline_loads rt loader_set_order raw_file processed_file final_posts :
  set_order_ok set_order →
  (∀ l items,
     raw_file = Readable (Document (PList l)) → PDict items ∈ l →
     NoDup items.*1 ∧ Forall (λ kv : string * pyval, is_dict kv.2 = false) items) →
  (∀ text content answer,
     invoke_metadata text = Some content →
     json_parse content = Some (PDict answer) →
     NoDup answer.*1 ∧ Forall (λ kv : string * pyval, is_dict kv.2 = false) answer) →
  process_posts invoke_metadata invoke_unify json_parse strip py_str set_order
    raw_file processed_file
  = Dumps final_posts →
  ∃ self T,
    loads rt loader_set_order (Readable (Document (PList final_posts))) self T
    ∧ (rows T = []
       ∨ Forall2
           (λ post r, ∃ line_count tags,
              conforming post line_count tags
              ∧ (length tags ≤ 2)%nat
              ∧ r !!! "length" = PStr (count_category line_count)
              ∧ r !!! "length" ≠ PStr "Unknown"
              ∧ r !!! "tags" = PList (PStr <$> tags))
           final_posts (rows T))
    ∧ (Forall (λ src, harmless rt (src !!! "line_count") = true
                      ∧ harmless rt (src !!! "engagement") = true)
         (rows (source_frame (Readable (Document (PList final_posts))))) →
       length (rows T) = length final_posts).
Proof.
  intros Hset Hraw Hllm (l & es & -> & Hes & Hne & Hfinal)%process_posts_Dumps.
  destruct (enriched_sublist _ _ _ l es Hes) as (kept & Hsub & Hkept).
  assert (Forall well_formed (omap id es)) as Hwf.
  { assert (Forall (λ post, post ∈ l) kept) as Hin.
    { apply Forall_forall. intros post Hpost.
      eapply elem_of_submseteq; [done|by apply sublist_submseteq]. }
    clear Hfinal Hsub Hne.
    induction Hkept as [|post e kept enriched Hpost _ IH]; [constructor|].
    apply Forall_cons in Hin as [Hin Hin']. constructor; [|auto].
    pose proof Hpost as (items & _ & _ & -> & _)%enrich_Some.
    destruct (Hraw l items eq_refl Hin) as [Hnd Hflat].
    by eapply enrich_well_formed. }
  assert (Forall (λ v, ∃ line_count tags,
                    conforming v line_count tags ∧ (length tags ≤ 2)%nat)
            final_posts) as Hconf.
  { destruct Hfinal as [->|(m & _ & _ & ->)].
    - apply Forall_fmap. eapply Forall_impl; [exact Hwf|].
      intros e. apply well_formed_conforming.
    - rewrite <-list_fmap_compose. apply Forall_fmap.
      eapply Forall_impl; [exact Hwf|].
      intros e He. by apply well_formed_conforming, unify_well_formed. }
  assert (Forall (λ v, ∃ line_count tags, conforming v line_count tags) final_posts)
    as Hconf'.
  { eapply Forall_impl; [exact Hconf|]. intros v (lc & tags & Hc & _). eauto. }
  assert (length (rows (source_frame (Readable (Document (PList final_posts)))))
          = length final_posts) as Hlen.
  { destruct final_posts as [|v vs]; [done|].
    rewrite source_frame_objects, length_fmap; [done..|].
    eapply Forall_impl; [exact Hconf'|].
    by intros v' (line_count & tags & items & lc & -> & _). }
  destruct (init_loaded rt loader_set_order
              (Readable (Document (PList final_posts))))
    as (self & T & Hloads & _ & Hrows).
  exists self, T. split; [done|].
  destruct (load_fails rt _) eqn:Hgoes; destruct Hrows as [Hrows _].
  { split; [by left|]. intros Hharmless.
    by rewrite (load_goes_through rt _ Hharmless) in Hgoes. }
  split; [|intros _; by rewrite Hrows, length_fmap].
  right.
  pose proof (conforming_rows rt final_posts Hconf' Hgoes) as Hrec.
  rewrite <-Hrows in Hrec.
  clear Hrows Hconf' Hloads Hfinal Hlen Hgoes.
  induction Hrec as [|v r vs rs Hvr _ IH]; [constructor|].
  apply Forall_cons in Hconf as [(lc & tags & Hc & Hlen) Hconf].
  constructor; [|auto].
  destruct (Hvr lc tags Hc) as (Htags & Hlength & Hunknown).
  by exists lc, tags.
Qed.
End pipeline.

(** ** The properties at the sample inputs *)

Lemma extract_metadata_valid_witness :
  ∃ line_count tags,
    dict_get "line_count" [("line_count", PInt 3); ("tags", PList [PStr "AI"; PStr "ML"])]
    = Some line_count
    ∧ is_int line_count = true ∧ 0 ≤ int_value line_count
    ∧ dict_get "tags" [("line_count", PInt 3); ("tags", PList [PStr "AI"; PStr "ML"])]
      = Some (PList (PStr <$> tags))
    ∧ (length tags ≤ 2)%nat
    ∧ Forall (λ t, t ≠ "" ∧ ∃ s, t = sample_strip s) tags.
Proof.
  apply (extract_metadata_valid sample_invoke_metadata sample_json_parse sample_strip
           (PStr "A")).
  reflexivity.
Defined.

Lemma unified_tags_cover_witness :
  (({[ "AI" := "Tech"; "ML" := "ML" ]} : gmap string string) = ∅
   ↔ [[("tags", PList [PStr "AI"; PStr "ML"])]] ≫= post_tags = [])
  ∧ ∀ post t,
      post ∈ [[("tags", PList [PStr "AI"; PStr "ML"])]] →
      t ∈ post_tags post →
      is_Some (({[ "AI" := "Tech"; "ML" := "ML" ]} : gmap string string) !! t).
Proof.
  apply (unified_tags_cover sample_invoke_unify sample_json_parse sample_str remove_dups).
  - apply remove_dups_order_ok.
  - vm_compute. reflexivity.
Defined.

Lemma unified_tags_values_witness :
  ∃ content items,
    sample_invoke_unify
      (String.concat ","
         (sorted String.le
            (remove_dups ([[("tags", PList [PStr "AI"; PStr "ML"])]] ≫= post_tags))))
    = Some content
    ∧ sample_json_parse content = Some (PDict items)
    ∧ (∀ t, t ∈ [[("tags", PList [PStr "AI"; PStr "ML"])]] ≫= post_tags →
            dict_of_items items !! t = None →
            ({[ "AI" := "Tech"; "ML" := "ML" ]} : gmap string string) !! t = Some t)
    ∧ (∀ t, t ∉ [[("tags", PList [PStr "AI"; PStr "ML"])]] ≫= post_tags →
            dict_of_items items !! t = None →
            ({[ "AI" := "Tech"; "ML" := "ML" ]} : gmap string string) !! t = None)
    ∧ (∀ k s, dict_of_items items !! k = Some (PStr s) →
              ({[ "AI" := "Tech"; "ML" := "ML" ]} : gmap string string) !! k = Some s).
Proof.
  apply (unified_tags_values sample_invoke_unify sample_json_parse sample_str remove_dups).
  - apply remove_dups_order_ok.
  - discriminate.
  - vm_compute. reflexivity.
Defined.

Lemma unify_tags_witness :
  ∃ new_tags,
    dict_get "tags"
      (unify remove_dups {[ "AI" := "Tech"; "NLP" := "Tech" ]}
         [("text", PStr "A"); ("tags", PList (PStr <$> ["NLP"; "AI"]))])
    = Some (PList (PStr <$> new_tags))
    ∧ StronglySorted String.le new_tags
    ∧ NoDup new_tags
    ∧ (∀ u, u ∈ new_tags
            ↔ ∃ t, t ∈ ["NLP"; "AI"]
                   ∧ u = default t
                           (({[ "AI" := "Tech"; "NLP" := "Tech" ]} : gmap string string)
                              !! t))
    ∧ (length new_tags ≤ length ["NLP"; "AI"])%nat
    ∧ ∀ k, k ≠ "tags" →
           dict_get k
             (unify remove_dups {[ "AI" := "Tech"; "NLP" := "Tech" ]}
                [("text", PStr "A"); ("tags", PList (PStr <$> ["NLP"; "AI"]))])
           = dict_get k [("text", PStr "A"); ("tags", PList (PStr <$> ["NLP"; "AI"]))].
Proof.
  apply (unify_tags remove_dups _ _ ["NLP"; "AI"] remove_dups_order_ok).
  reflexivity.
Defined.

Lemma process_posts_output_witness :
  sample_final_posts ≠ []
  ∧ Forall (λ post, ∃ items line_count tags,
              post = PDict items
              ∧ is_Some (dict_get "text" items)
              ∧ dict_get "line_count" items = Some line_count
              ∧ is_int line_count = true ∧ 0 ≤ int_value line_count
              ∧ dict_get "tags" items = Some (PList (PStr <$> tags))
              ∧ (length tags ≤ 2)%nat) sample_final_posts.
Proof.
  apply (process_posts_output sample_invoke_metadata sample_invoke_unify
           sample_json_parse sample_strip sample_str remove_dups sample_raw_file
           Writable).
  - apply remove_dups_order_ok.
  - vm_compute. reflexivity.
Defined.

Lemma process_posts_keeps_witness :
  ∃ l kept,
    sample_raw_file = Readable (Document (PList l))
    ∧ kept `sublist_of` l
    ∧ Forall2
        (λ post final, ∃ items text metadata final_items,
           post = PDict items ∧ final = PDict final_items
           ∧ dict_get "text" items = Some text
           ∧ extract_metadata sample_invoke_metadata sample_json_parse sample_strip text
             = Some metadata
           ∧ ∀ k, dict_get k metadata = None →
                  dict_get k final_items = dict_get k items)
        kept sample_final_posts.
Proof.
  apply (process_posts_keeps sample_invoke_metadata sample_invoke_unify
           sample_json_parse sample_strip sample_str remove_dups sample_raw_file
           Writable).
  vm_compute. reflexivity.
Defined.

Lemma pipeline_loads_witness :
  ∃ self T,
    loads sample_runtime remove_dups (Readable (Document (PList sample_final_posts))) self T
    ∧ (rows T = []
       ∨ Forall2
           (λ post r, ∃ line_count tags,
              conforming post line_count tags
              ∧ (length tags ≤ 2)%nat
              ∧ r !!! "length" = PStr (count_category line_count)
              ∧ r !!! "length" ≠ PStr "Unknown"
              ∧ r !!! "tags" = PList (PStr <$> tags))
           sample_final_posts (rows T))
    ∧ (Forall (λ src, harmless sample_runtime (src !!! "line_count") = true
                      ∧ harmless sample_runtime (src !!! "engagement") = true)
         (rows (source_frame (Readable (Document (PList sample_final_posts))))) →
       length (rows T) = length sample_final_posts).
Proof.
  apply (pipeline_loads sample_invoke_metadata sample_invoke_unify
           sample_json_parse sample_strip sample_str remove_dups
           sample_runtime remove_dups sample_raw_file Writable).
  - apply remove_dups_order_ok.
  - intros l items [= <-] Hin.
    apply elem_of_cons in Hin as [[= ->]|Hin];
      [|apply elem_of_cons in Hin as [[= ->]|Hin]; [|by apply elem_of_nil in Hin]].
    + split; [apply (bool_decide_unpack _); vm_compute; exact I|by repeat constructor].
    + split; [apply (bool_decide_unpack _); vm_compute; exact I|by repeat constructor].
  - intros text content answer [= <-] [= <-].
    split; [apply (bool_decide_unpack _); vm_compute; exact I|by repeat constructor].
  - vm_compute. reflexivity.
Defined.

Lemma prompt_quotes_examples_witness :
  ∃ before after,
    get_prompt sample_choice sample_str "Short" "AI" "Plain Text"
      (Some [ {[ "text" := PStr "A" ]}; {[ "text" := PStr "B" ]} ])
    = before +:+ example_block sample_str 1 {[ "text" := PStr "B" ]} +:+ after.
Proof. apply prompt_quotes_examples; [lia|reflexivity]. Defined.
